(** * Nexus Knowledge Base: permission model, lock store, version store and
    article orchestration, embedded from the TypeScript server sources.

    Conventions of the embedding.
    - JavaScript integers ([version], [viewCount], [articleCount], lengths,
      epoch milliseconds) are [Z].
    - ISO-8601 timestamps produced by [new Date().toISOString()] are kept as
      the epoch milliseconds they denote; [new Date(iso) < new Date()] is [<?].
    - The flat-file stores are finite maps keyed the way the files are named.
    - [uuidv4()] and the clock are inputs of the operation that calls them;
      one service call reads the clock once.
    - A thrown exception is [Err]; the store written so far is kept. File
      system failures and interleavings of concurrent calls are outside the
      model: every call runs to its end on the store it is given. *)

From Stdlib Require Import ZArith Bool Ascii.
From stdpp Require Import base option list strings gmap fin_maps pretty sorting.

#[local] Set Warnings "-register-all".
Local Open Scope string_scope.
Local Open Scope list_scope.
Local Open Scope Z_scope.

(** ** Built-ins of the runtime that the sources call *)

(** Truthiness of a string: every string but the empty one. *)
Definition isTruthy (s : string) : bool := negb (bool_decide (s = "")).

Definition isTruthyOpt (o : option string) : bool :=
  match o with
  | Some s => isTruthy s
  | None => false
  end.

(** What follows the prefix [p] in [s], when [s.startsWith(p)]. *)
Fixpoint stripPrefix (p s : string) : option string :=
  match p, s with
  | EmptyString, _ => Some s
  | String a p', String b s' =>
      if bool_decide (a = b) then stripPrefix p' s' else None
  | String _ _, EmptyString => None
  end.

Definition startsWith (p s : string) : bool :=
  bool_decide (is_Some (stripPrefix p s)).

(** [s.endsWith(suffix)] *)
Fixpoint endsWith (suffix s : string) : bool :=
  bool_decide (s = suffix)
  || match s with
     | EmptyString => false
     | String _ s' => endsWith suffix s'
     end.

(** [s.includes(q)] *)
Fixpoint includesString (q s : string) : bool :=
  startsWith q s
  || match s with
     | EmptyString => false
     | String _ s' => includesString q s'
     end.

(** [s.replace(pat, '')] for a string pattern: the first occurrence of
    [pat] is removed. *)
Fixpoint removeFirst (pat s : string) : string :=
  match stripPrefix pat s with
  | Some rest => rest
  | None =>
      match s with
      | EmptyString => EmptyString
      | String c s' => String c (removeFirst pat s')
      end
  end.

(** [Array.prototype.sort(cmp)]: the stable sort; [x] is moved behind [y]
    only when [cmp x y > 0]. *)
Fixpoint insertBy {A} (cmp : A → A → Z) (x : A) (l : list A) : list A :=
  match l with
  | [] => [x]
  | y :: rest => if 0 <? cmp x y then y :: insertBy cmp x rest else x :: l
  end.

Definition arraySort {A} (cmp : A → A → Z) (l : list A) : list A :=
  foldr (insertBy cmp) [] l.

(** [Array.prototype.slice(start, end)] on integers: a negative index
    counts from the end, and both are clamped to the array. *)
Definition arraySlice {A} (l : list A) (start end_ : Z) : list A :=
  let len := Z.of_nat (length l) in
  let from := if start <? 0 then Z.max (len + start) 0 else Z.min start len in
  let to := if end_ <? 0 then Z.max (len + end_) 0 else Z.min end_ len in
  take (Z.to_nat (to - from)) (drop (Z.to_nat from) l).

(** [new Set(l)], in insertion order. *)
Definition setOf (l : list string) : list string :=
  fold_left (λ seen x,
               if existsb (λ y, bool_decide (y = x)) seen then seen
               else seen ++ [x])
            l [].

(** [Math.ceil(a / b)] for integers and [b] not zero. *)
Definition ceilDiv (a b : Z) : Z := - ((- a) / b).

(** ** utils/errors.ts *)

Inductive AppError : Type :=
  | BadRequestError (message : string)
  | UnauthorizedError (message : string)
  | ForbiddenError (message : string)
  | NotFoundError (resource : string) (identifier : string)
  | ConflictError (message : string)
  | ValidationError (errors : list (string * list string))
  | InternalError (message : string).

Definition statusCode (e : AppError) : Z :=
  match e with
  | BadRequestError _ => 400
  | UnauthorizedError _ => 401
  | ForbiddenError _ => 403
  | NotFoundError _ _ => 404
  | ConflictError _ => 409
  | ValidationError _ => 422
  | InternalError _ => 500
  end.

Definition code (e : AppError) : string :=
  match e with
  | BadRequestError _ => "BAD_REQUEST"
  | UnauthorizedError _ => "UNAUTHORIZED"
  | ForbiddenError _ => "FORBIDDEN"
  | NotFoundError _ _ => "NOT_FOUND"
  | ConflictError _ => "CONFLICT"
  | ValidationError _ => "VALIDATION_ERROR"
  | InternalError _ => "INTERNAL_ERROR"
  end.

(** [error.message], as the constructors of the error classes build it. *)
Definition messageOf (e : AppError) : string :=
  match e with
  | BadRequestError m | UnauthorizedError m | ForbiddenError m
  | ConflictError m | InternalError m => m
  | NotFoundError resource identifier =>
      if isTruthy identifier
      then resource +:+ " with identifier '" +:+ identifier +:+ "' not found"
      else resource +:+ " not found"
  | ValidationError _ => "Validation failed"
  end.

(** ** models/User.ts *)

Inductive UserRole : Type := reader | actor | author | editor.

Inductive Permission : Type :=
  | article_view_published
  | article_view_draft_own
  | article_view_draft_all
  | article_create
  | article_edit_own
  | article_edit_all
  | article_delete_own
  | article_delete_all
  | article_publish_own
  | article_publish_all
  | article_archive
  | article_restore_own
  | article_restore_all
  | article_version_view
  | article_version_restore_own
  | article_version_restore_all
  | comment_view
  | comment_create
  | comment_edit_own
  | comment_edit_all
  | comment_delete_own
  | comment_delete_all
  | search_basic
  | search_advanced.

#[global] Instance UserRole_eq_dec : EqDecision UserRole.
Proof. solve_decision. Defined.

#[global] Instance Permission_eq_dec : EqDecision Permission.
Proof. solve_decision. Defined.

Module User.
Record t : Type := mk {
  id : string;
  email : string;
  displayName : string;
  role : UserRole;
  createdAt : string;
}.
End User.

Definition ROLE_HIERARCHY : list UserRole := [reader; actor; author; editor].

Definition ROLE_PERMISSIONS (r : UserRole) : list Permission :=
  match r with
  | reader =>
      [ article_view_published; article_version_view; comment_view;
        search_basic ]
  | actor =>
      [ article_view_published; article_version_view; comment_view;
        comment_create; comment_edit_own; comment_delete_own; search_basic ]
  | author =>
      [ article_view_published; article_view_draft_own; article_create;
        article_edit_own; article_delete_own; article_publish_own;
        article_restore_own; article_version_view;
        article_version_restore_own; comment_view; comment_create;
        comment_edit_own; comment_delete_own; search_basic; search_advanced ]
  | editor =>
      [ article_view_published; article_view_draft_own;
        article_view_draft_all; article_create; article_edit_own;
        article_edit_all; article_delete_own; article_delete_all;
        article_publish_own; article_publish_all; article_archive;
        article_restore_own; article_restore_all; article_version_view;
        article_version_restore_own; article_version_restore_all;
        comment_view; comment_create; comment_edit_own; comment_edit_all;
        comment_delete_own; comment_delete_all; search_basic;
        search_advanced ]
  end.

(** [Array.prototype.includes] on a list of enum values. *)
Definition includes {A} `{EqDecision A} (l : list A) (x : A) : bool :=
  existsb (λ y, bool_decide (y = x)) l.

Definition hasPermission (user : User.t) (permission : Permission) : bool :=
  includes (ROLE_PERMISSIONS (User.role user)) permission.

(** [Array.prototype.indexOf]: [-1] when [x] is not in [l]. *)
Fixpoint indexOf {A} `{EqDecision A} (l : list A) (x : A) : Z :=
  match l with
  | [] => -1
  | y :: rest =>
      if bool_decide (y = x) then 0
      else let i := indexOf rest x in if i <? 0 then -1 else i + 1
  end.

Definition hasMinimumRole (userRole requiredRole : UserRole) : bool :=
  let userLevel := indexOf ROLE_HIERARCHY userRole in
  let requiredLevel := indexOf ROLE_HIERARCHY requiredRole in
  requiredLevel <=? userLevel.

Definition getPermissionsForRole (role : UserRole) : list Permission :=
  ROLE_PERMISSIONS role.

(** The role as it is spelled in the sources and in messages. *)
Definition roleName (r : UserRole) : string :=
  match r with
  | reader => "reader"
  | actor => "actor"
  | author => "author"
  | editor => "editor"
  end.

(** ** models/Article.ts *)

Inductive ArticleStatus : Type := draft | published | archived | deleted.

Inductive ContentFormat : Type := markdown | richtext.

#[global] Instance ArticleStatus_eq_dec : EqDecision ArticleStatus.
Proof. solve_decision. Defined.

#[global] Instance ContentFormat_eq_dec : EqDecision ContentFormat.
Proof. solve_decision. Defined.

Module ArticleMetadata.
Record t : Type := mk {
  viewCount : Z;
  contentFormat : ContentFormat;
  lastViewedAt : option Z;
  lastViewedBy : option string;
}.
End ArticleMetadata.

Module Article.
Record t : Type := mk {
  id : string;
  briefTitle : string;
  detailedDescription : string;
  category : string;
  tags : list string;
  relatedArticles : list string;
  status : ArticleStatus;
  authorId : string;
  authorName : string;
  createdAt : Z;
  updatedAt : Z;
  publishedAt : option Z;
  expirationDate : option string;
  version : Z;
  lockedBy : option string;
  lockedByName : option string;
  lockedAt : option Z;
  metadata : ArticleMetadata.t;
}.
End Article.

Module CreateArticleInput.
Record t : Type := mk {
  briefTitle : string;
  detailedDescription : string;
  category : string;
  tags : option (list string);
  relatedArticles : option (list string);
  status : option ArticleStatus;
  expirationDate : option string;
  contentFormat : option ContentFormat;
}.
End CreateArticleInput.

(** Every field is optional; [None] is an absent key. *)
Module UpdateArticleInput.
Record t : Type := mk {
  briefTitle : option string;
  detailedDescription : option string;
  category : option string;
  tags : option (list string);
  relatedArticles : option (list string);
  status : option ArticleStatus;
  expirationDate : option string;
}.

Definition empty : t := mk None None None None None None None.
Definition ofStatus (st : ArticleStatus) : t :=
  mk None None None None None (Some st) None.
End UpdateArticleInput.

Definition TITLE_MIN_LENGTH : Z := 3.
Definition TITLE_MAX_LENGTH : Z := 150.
Definition DESCRIPTION_MIN_LENGTH : Z := 10.
Definition DESCRIPTION_MAX_LENGTH : Z := 50000.
Definition CATEGORY_MAX_LENGTH : Z := 50.
Definition TAG_MAX_LENGTH : Z := 30.
Definition MAX_TAGS : Z := 10.
Definition MAX_RELATED_ARTICLES : Z := 10.

Module ArticleSummary.
Record t : Type := mk {
  id : string;
  briefTitle : string;
  category : string;
  tags : list string;
  status : ArticleStatus;
  authorId : string;
  authorName : string;
  createdAt : Z;
  updatedAt : Z;
  publishedAt : option Z;
  viewCount : Z;
  isLocked : bool;
  lockedByName : option string;
}.
End ArticleSummary.

Definition toArticleSummary (article : Article.t) : ArticleSummary.t :=
  {| ArticleSummary.id := Article.id article;
     ArticleSummary.briefTitle := Article.briefTitle article;
     ArticleSummary.category := Article.category article;
     ArticleSummary.tags := Article.tags article;
     ArticleSummary.status := Article.status article;
     ArticleSummary.authorId := Article.authorId article;
     ArticleSummary.authorName := Article.authorName article;
     ArticleSummary.createdAt := Article.createdAt article;
     ArticleSummary.updatedAt := Article.updatedAt article;
     ArticleSummary.publishedAt := Article.publishedAt article;
     ArticleSummary.viewCount :=
       ArticleMetadata.viewCount (Article.metadata article);
     ArticleSummary.isLocked := isTruthyOpt (Article.lockedBy article);
     ArticleSummary.lockedByName := Article.lockedByName article |}.

Inductive SortField : Type :=
  | byCreatedAt
  | byUpdatedAt
  | byBriefTitle
  | byViewCount.

Inductive SortOrder : Type := ascending | descending.

(** [status?: ArticleStatus | ArticleStatus[]] *)
Inductive StatusParam : Type :=
  | oneStatus (st : ArticleStatus)
  | manyStatuses (sts : list ArticleStatus).

(** The date bounds are timestamps, read like those of the articles. *)
Module ArticleSearchParams.
Record t : Type := mk {
  query : option string;
  status : option StatusParam;
  category : option string;
  tags : option (list string);
  authorId : option string;
  createdAfter : option Z;
  createdBefore : option Z;
  updatedAfter : option Z;
  updatedBefore : option Z;
  sortBy : option SortField;
  sortOrder : option SortOrder;
  page : option Z;
  limit : option Z;
}.

Definition empty : t :=
  mk None None None None None None None None None None None None None.
End ArticleSearchParams.

Module Pagination.
Record t : Type := mk {
  page : Z;
  limit : Z;
  totalItems : Z;
  totalPages : Z;
  hasNextPage : bool;
  hasPreviousPage : bool;
}.
End Pagination.

Module PaginatedResponse.
Record t (A : Type) : Type := mk {
  data : list A;
  pagination : Pagination.t;
}.
Arguments mk {A} data pagination.
Arguments data {A} _.
Arguments pagination {A} _.
End PaginatedResponse.

(** ** models/Version.ts *)

Module ArticleVersion.
Record t : Type := mk {
  id : string;
  articleId : string;
  version : Z;
  briefTitle : string;
  detailedDescription : string;
  category : string;
  tags : list string;
  relatedArticles : list string;
  status : ArticleStatus;
  changedBy : string;
  changedByName : string;
  changedAt : Z;
  changeReason : option string;
  changeSummary : option string;
}.
End ArticleVersion.

(** [parts.join('. ')] *)
Fixpoint join (sep : string) (parts : list string) : string :=
  match parts with
  | [] => ""
  | [p] => p
  | p :: rest => p +:+ sep +:+ join sep rest
  end.

Definition generateChangeSummary (article : Article.t) : string :=
  let parts1 :=
    if bool_decide (Article.version article = 1)
    then ["Initial version created"]
    else ["Updated to version " +:+ pretty (Article.version article)] in
  let parts2 :=
    match Article.status article with
    | published => ["Published"]
    | archived => ["Archived"]
    | _ => []
    end in
  join ". " (parts1 ++ parts2).

(** The [id] is added by the repository; it is passed here so that the record
    is built once. *)
Definition createVersionFromArticle (id : string) (article : Article.t)
    (changedBy changedByName : string) (changeReason : option string)
    (now : Z) : ArticleVersion.t :=
  {| ArticleVersion.id := id;
     ArticleVersion.articleId := Article.id article;
     ArticleVersion.version := Article.version article;
     ArticleVersion.briefTitle := Article.briefTitle article;
     ArticleVersion.detailedDescription := Article.detailedDescription article;
     ArticleVersion.category := Article.category article;
     ArticleVersion.tags := Article.tags article;
     ArticleVersion.relatedArticles := Article.relatedArticles article;
     ArticleVersion.status := Article.status article;
     ArticleVersion.changedBy := changedBy;
     ArticleVersion.changedByName := changedByName;
     ArticleVersion.changedAt := now;
     ArticleVersion.changeReason := changeReason;
     ArticleVersion.changeSummary := Some (generateChangeSummary article) |}.

(** The [unknown] values of a [VersionDiff]: a string field, the status, or
    one of the two string arrays. *)
Inductive DiffValue : Type :=
  | diffString (s : string)
  | diffStatus (st : ArticleStatus)
  | diffStrings (l : list string).

Module VersionDiff.
Record t : Type := mk {
  field : string;
  oldValue : DiffValue;
  newValue : DiffValue;
}.
End VersionDiff.

(** One step of the loop over [comparableFields], and the two array
    comparisons: [JSON.stringify] of two string arrays gives the same text
    exactly for equal arrays. *)
Definition diffOf {A} `{EqDecision A} (field : string) (inj : A → DiffValue)
    (old new : A) : list VersionDiff.t :=
  if negb (bool_decide (old = new))
  then [VersionDiff.mk field (inj old) (inj new)]
  else [].

Definition compareVersions (oldVersion newVersion : ArticleVersion.t)
    : list VersionDiff.t :=
  diffOf "briefTitle" diffString
    (ArticleVersion.briefTitle oldVersion)
    (ArticleVersion.briefTitle newVersion)
  ++ diffOf "detailedDescription" diffString
       (ArticleVersion.detailedDescription oldVersion)
       (ArticleVersion.detailedDescription newVersion)
  ++ diffOf "category" diffString
       (ArticleVersion.category oldVersion)
       (ArticleVersion.category newVersion)
  ++ diffOf "status" diffStatus
       (ArticleVersion.status oldVersion)
       (ArticleVersion.status newVersion)
  ++ diffOf "tags" diffStrings
       (ArticleVersion.tags oldVersion)
       (ArticleVersion.tags newVersion)
  ++ diffOf "relatedArticles" diffStrings
       (ArticleVersion.relatedArticles oldVersion)
       (ArticleVersion.relatedArticles newVersion).

Module VersionListResponse.
Record t : Type := mk {
  articleId : string;
  currentVersion : Z;
  versions : list ArticleVersion.t;
}.
End VersionListResponse.

(** ** models/Lock.ts *)

Module ArticleLock.
Record t : Type := mk {
  articleId : string;
  lockedBy : string;
  lockedByName : string;
  lockedAt : Z;
  expiresAt : Z;
}.
End ArticleLock.

Module LockStatusResponse.
Record t : Type := mk {
  isLocked : bool;
  lock : option ArticleLock.t;
  canEdit : bool;
  message : option string;
}.
End LockStatusResponse.

Module LockAcquisitionResult.
Record t : Type := mk {
  success : bool;
  lock : option ArticleLock.t;
  message : string;
}.
End LockAcquisitionResult.

(** ** models/Category.ts and models/Comment.ts *)

Module Category.
Record t : Type := mk {
  id : string;
  name : string;
  description : option string;
  parentId : option string;
  order : Z;
  articleCount : Z;
  createdAt : Z;
  updatedAt : option Z;
}.
End Category.

Module Comment.
Record t : Type := mk {
  id : string;
  articleId : string;
  authorId : string;
  authorName : string;
  content : string;
  createdAt : Z;
  updatedAt : option Z;
  isEdited : bool;
}.
End Comment.

Definition CONTENT_MIN_LENGTH : Z := 1.
Definition CONTENT_MAX_LENGTH : Z := 2000.

Module CommentListResponse.
Record t : Type := mk {
  articleId : string;
  comments : list Comment.t;
  totalCount : Z;
}.
End CommentListResponse.

(** ** config/index.ts *)

Module Config.
Record t : Type := mk { timeoutMinutes : Z }.
Definition timeoutMs (c : t) : Z := timeoutMinutes c * 60 * 1000.
(** [LOCK_TIMEOUT_MINUTES] unset. *)
Definition default : t := mk 30.
End Config.

(** ** The persisted state and the monad of repository calls *)

Module Store.
Record t : Type := mk {
  (** [FileArticleRepository.articlesCache], kept in step with
      [articles/{id}.json] by [saveToFile] and [deleteFile]. *)
  articles : gmap string Article.t;
  (** [versions/{articleId}/v{version}.json] *)
  versions : gmap string (gmap Z ArticleVersion.t);
  (** [locks/{articleId}.lock.json] *)
  locks : gmap string ArticleLock.t;
  (** [categories/categories.json] *)
  categories : list Category.t;
  (** [comments/{articleId}.json] *)
  comments : gmap string (list Comment.t);
}.

Definition empty : t := mk ∅ ∅ ∅ [] ∅.

Definition setArticles (f : gmap string Article.t → gmap string Article.t)
    (s : t) : t :=
  mk (f (articles s)) (versions s) (locks s) (categories s) (comments s).
Definition setVersions
    (f : gmap string (gmap Z ArticleVersion.t) →
         gmap string (gmap Z ArticleVersion.t)) (s : t) : t :=
  mk (articles s) (f (versions s)) (locks s) (categories s) (comments s).
Definition setLocks (f : gmap string ArticleLock.t → gmap string ArticleLock.t)
    (s : t) : t :=
  mk (articles s) (versions s) (f (locks s)) (categories s) (comments s).
Definition setCategories (f : list Category.t → list Category.t) (s : t) : t :=
  mk (articles s) (versions s) (locks s) (f (categories s)) (comments s).
Definition setComments
    (f : gmap string (list Comment.t) → gmap string (list Comment.t))
    (s : t) : t :=
  mk (articles s) (versions s) (locks s) (categories s) (f (comments s)).
End Store.

Inductive Result (A : Type) : Type :=
  | Ok (a : A)
  | Err (e : AppError).
Arguments Ok {A} a.
Arguments Err {A} e.

Definition M (A : Type) : Type := Store.t → Result A * Store.t.

Definition ret {A} (a : A) : M A := λ s, (Ok a, s).
Definition throw {A} (e : AppError) : M A := λ s, (Err e, s).
Definition bind {A B} (m : M A) (k : A → M B) : M B :=
  λ s, match m s with
       | (Ok a, s') => k a s'
       | (Err e, s') => (Err e, s')
       end.
Definition gets {A} (f : Store.t → A) : M A := λ s, (Ok (f s), s).
Definition modify (f : Store.t → Store.t) : M unit := λ s, (Ok tt, f s).

Notation "'let*' x ':=' m 'in' k" := (bind m (λ x, k))
  (at level 10, x pattern, m at level 100, k at level 200,
   format "'[v' 'let*'  x  ':='  m  'in' '/' k ']'").
Notation "m ';;' k" := (bind m (λ _, k))
  (at level 100, k at level 200, right associativity).

(** [if (c) throw e;] *)
Definition throwIf (c : bool) (e : AppError) : M unit :=
  if c then throw e else ret tt.

(** ** repositories/FileLockRepository.ts *)

Module FileLockRepository.

Definition loadLock (articleId : string) : M (option ArticleLock.t) :=
  gets (λ s, Store.locks s !! articleId).

Definition saveLock (lock : ArticleLock.t) : M unit :=
  modify (Store.setLocks (insert (ArticleLock.articleId lock) lock)).

Definition deleteLock (articleId : string) : M unit :=
  modify (Store.setLocks (delete articleId)).

Definition isExpired (now : Z) (lock : ArticleLock.t) : bool :=
  ArticleLock.expiresAt lock <? now.

Definition createLock (cfg : Config.t) (now : Z)
    (articleId userId userName : string) : ArticleLock.t :=
  {| ArticleLock.articleId := articleId;
     ArticleLock.lockedBy := userId;
     ArticleLock.lockedByName := userName;
     ArticleLock.lockedAt := now;
     ArticleLock.expiresAt := now + Config.timeoutMs cfg |}.

Definition acquireLock (cfg : Config.t) (now : Z)
    (articleId userId userName : string) : M LockAcquisitionResult.t :=
  let* existingLock := loadLock articleId in
  match existingLock with
  | Some existing =>
      if negb (isExpired now existing) then
        if bool_decide (ArticleLock.lockedBy existing = userId) then
          let renewedLock := createLock cfg now articleId userId userName in
          saveLock renewedLock;;
          ret {| LockAcquisitionResult.success := true;
                 LockAcquisitionResult.lock := Some renewedLock;
                 LockAcquisitionResult.message :=
                   "Lock renewed successfully" |}
        else
          ret {| LockAcquisitionResult.success := false;
                 LockAcquisitionResult.lock := Some existing;
                 LockAcquisitionResult.message :=
                   "Article is currently being edited by "
                   +:+ ArticleLock.lockedByName existing |}
      else
        let newLock := createLock cfg now articleId userId userName in
        saveLock newLock;;
        ret {| LockAcquisitionResult.success := true;
               LockAcquisitionResult.lock := Some newLock;
               LockAcquisitionResult.message :=
                 "Lock acquired successfully" |}
  | None =>
      let newLock := createLock cfg now articleId userId userName in
      saveLock newLock;;
      ret {| LockAcquisitionResult.success := true;
             LockAcquisitionResult.lock := Some newLock;
             LockAcquisitionResult.message := "Lock acquired successfully" |}
  end.

Definition releaseLock (articleId userId : string) : M bool :=
  let* existingLock := loadLock articleId in
  match existingLock with
  | None => ret true
  | Some existing =>
      if negb (bool_decide (ArticleLock.lockedBy existing = userId))
      then ret false
      else deleteLock articleId;; ret true
  end.

Definition getLockStatus (now : Z) (articleId userId : string)
    : M LockStatusResponse.t :=
  let* lock := loadLock articleId in
  match lock with
  | None =>
      ret {| LockStatusResponse.isLocked := false;
             LockStatusResponse.lock := None;
             LockStatusResponse.canEdit := true;
             LockStatusResponse.message := None |}
  | Some l =>
      if isExpired now l then
        deleteLock articleId;;
        ret {| LockStatusResponse.isLocked := false;
               LockStatusResponse.lock := None;
               LockStatusResponse.canEdit := true;
               LockStatusResponse.message :=
                 Some "Previous edit lock has expired" |}
      else
        let canEdit := bool_decide (ArticleLock.lockedBy l = userId) in
        ret {| LockStatusResponse.isLocked := true;
               LockStatusResponse.lock := Some l;
               LockStatusResponse.canEdit := canEdit;
               LockStatusResponse.message :=
                 Some (if canEdit then "You have the edit lock"
                       else "Article is being edited by "
                            +:+ ArticleLock.lockedByName l) |}
  end.

Definition isLocked (now : Z) (articleId : string) : M bool :=
  let* lock := loadLock articleId in
  ret (match lock with
       | Some l => negb (isExpired now l)
       | None => false
       end).

(** [getFilePath]: the name of the lock file in [locks/]. *)
Definition getFilePath (articleId : string) : string :=
  articleId +:+ ".lock.json".

(** [fs.readdir(this.locksDir)]: one file per stored lock. *)
Definition readdir : M (list string) :=
  gets (λ s, getFilePath <$> (map_to_list (Store.locks s)).*1).

(** The loop of [cleanExpiredLocks] over the listing, with the counter. *)
Fixpoint cleanFiles (now : Z) (files : list string) (cleanedCount : Z)
    : M Z :=
  match files with
  | [] => ret cleanedCount
  | file :: rest =>
      if negb (endsWith ".lock.json" file) then
        cleanFiles now rest cleanedCount
      else
        let articleId := removeFirst ".lock.json" file in
        let* lock := loadLock articleId in
        match lock with
        | Some l =>
            if isExpired now l then
              deleteLock articleId;;
              cleanFiles now rest (cleanedCount + 1)
            else cleanFiles now rest cleanedCount
        | None => cleanFiles now rest cleanedCount
        end
  end.

Definition cleanExpiredLocks (now : Z) : M Z :=
  let* files := readdir in
  cleanFiles now files 0.

End FileLockRepository.

(** ** repositories/FileArticleRepository.ts *)

Module FileArticleRepository.

(** [saveToFile]: writes [{id}.json] and sets the cache entry. *)
Definition saveToFile (article : Article.t) : M unit :=
  modify (Store.setArticles (insert (Article.id article) article)).

Definition deleteFile (id : string) : M unit :=
  modify (Store.setArticles (delete id)).

(** The object literal of [create]. *)
Definition newArticle (now : Z) (uuid : string) (input : CreateArticleInput.t)
    (authorId authorName : string) : Article.t :=
  {| Article.id := uuid;
     Article.briefTitle := CreateArticleInput.briefTitle input;
     Article.detailedDescription :=
       CreateArticleInput.detailedDescription input;
     Article.category := CreateArticleInput.category input;
     Article.tags := default [] (CreateArticleInput.tags input);
     Article.relatedArticles :=
       default [] (CreateArticleInput.relatedArticles input);
     Article.status := default draft (CreateArticleInput.status input);
     Article.authorId := authorId;
     Article.authorName := authorName;
     Article.createdAt := now;
     Article.updatedAt := now;
     Article.publishedAt :=
       if bool_decide (CreateArticleInput.status input = Some published)
       then Some now else None;
     Article.expirationDate := CreateArticleInput.expirationDate input;
     Article.version := 1;
     Article.lockedBy := None;
     Article.lockedByName := None;
     Article.lockedAt := None;
     Article.metadata :=
       {| ArticleMetadata.viewCount := 0;
          ArticleMetadata.contentFormat :=
            default richtext (CreateArticleInput.contentFormat input);
          ArticleMetadata.lastViewedAt := None;
          ArticleMetadata.lastViewedBy := None |} |}.

Definition create (now : Z) (uuid : string) (input : CreateArticleInput.t)
    (authorId authorName : string) : M Article.t :=
  let article := newArticle now uuid input authorId authorName in
  saveToFile article;;
  ret article.

Definition findById (id : string) : M (option Article.t) :=
  gets (λ s, Store.articles s !! id).

(** [{ ...article, ...input, updatedAt, version, publishedAt }] *)
Definition applyUpdate (now : Z) (article : Article.t)
    (input : UpdateArticleInput.t) : Article.t :=
  {| Article.id := Article.id article;
     Article.briefTitle :=
       default (Article.briefTitle article)
               (UpdateArticleInput.briefTitle input);
     Article.detailedDescription :=
       default (Article.detailedDescription article)
               (UpdateArticleInput.detailedDescription input);
     Article.category :=
       default (Article.category article) (UpdateArticleInput.category input);
     Article.tags :=
       default (Article.tags article) (UpdateArticleInput.tags input);
     Article.relatedArticles :=
       default (Article.relatedArticles article)
               (UpdateArticleInput.relatedArticles input);
     Article.status :=
       default (Article.status article) (UpdateArticleInput.status input);
     Article.authorId := Article.authorId article;
     Article.authorName := Article.authorName article;
     Article.createdAt := Article.createdAt article;
     Article.updatedAt := now;
     Article.publishedAt :=
       if bool_decide (UpdateArticleInput.status input = Some published)
          && negb (bool_decide (is_Some (Article.publishedAt article)))
       then Some now else Article.publishedAt article;
     Article.expirationDate :=
       match UpdateArticleInput.expirationDate input with
       | Some e => Some e
       | None => Article.expirationDate article
       end;
     Article.version := Article.version article + 1;
     Article.lockedBy := Article.lockedBy article;
     Article.lockedByName := Article.lockedByName article;
     Article.lockedAt := Article.lockedAt article;
     Article.metadata := Article.metadata article |}.

Definition update (now : Z) (id : string) (input : UpdateArticleInput.t)
    : M Article.t :=
  let* found := findById id in
  match found with
  | None => throw (NotFoundError "Article" id)
  | Some article =>
      let updatedArticle := applyUpdate now article input in
      saveToFile updatedArticle;;
      ret updatedArticle
  end.

Definition softDelete (now : Z) (id : string) : M Article.t :=
  let* found := findById id in
  match found with
  | None => throw (NotFoundError "Article" id)
  | Some _ => update now id (UpdateArticleInput.ofStatus deleted)
  end.

Definition exists_ (id : string) : M bool :=
  let* found := findById id in
  ret (bool_decide (is_Some found)).

Definition hardDelete (id : string) : M unit :=
  let* ex := exists_ id in
  throwIf (negb ex) (NotFoundError "Article" id);;
  deleteFile id.

Definition restore (now : Z) (id : string) : M Article.t :=
  let* found := findById id in
  match found with
  | None => throw (NotFoundError "Article" id)
  | Some article =>
      (* [throw new Error(...)], a 500 after [normalizeError] *)
      throwIf (negb (bool_decide (Article.status article = deleted)))
              (InternalError "Article is not deleted");;
      update now id (UpdateArticleInput.ofStatus draft)
  end.

(** The cached object is mutated in place and written back under [id]; the
    version is not touched. *)
Definition incrementViewCount (now : Z) (id : string)
    (viewedBy : option string) : M unit :=
  let* found := findById id in
  match found with
  | None => throw (NotFoundError "Article" id)
  | Some article =>
      let m := Article.metadata article in
      let truthy :=
        match viewedBy with
        | Some v => negb (bool_decide (v = ""))
        | None => false
        end in
      let m' :=
        {| ArticleMetadata.viewCount := ArticleMetadata.viewCount m + 1;
           ArticleMetadata.contentFormat := ArticleMetadata.contentFormat m;
           ArticleMetadata.lastViewedAt :=
             if truthy then Some now else ArticleMetadata.lastViewedAt m;
           ArticleMetadata.lastViewedBy :=
             if truthy then viewedBy else ArticleMetadata.lastViewedBy m |} in
      let article' :=
        {| Article.id := Article.id article;
           Article.briefTitle := Article.briefTitle article;
           Article.detailedDescription := Article.detailedDescription article;
           Article.category := Article.category article;
           Article.tags := Article.tags article;
           Article.relatedArticles := Article.relatedArticles article;
           Article.status := Article.status article;
           Article.authorId := Article.authorId article;
           Article.authorName := Article.authorName article;
           Article.createdAt := Article.createdAt article;
           Article.updatedAt := Article.updatedAt article;
           Article.publishedAt := Article.publishedAt article;
           Article.expirationDate := Article.expirationDate article;
           Article.version := Article.version article;
           Article.lockedBy := Article.lockedBy article;
           Article.lockedByName := Article.lockedByName article;
           Article.lockedAt := Article.lockedAt article;
           Article.metadata := m' |} in
      modify (Store.setArticles (insert id article'))
  end.

(** The in-place writes of [LockService.updateArticleLockInfo] and
    [clearArticleLockInfo] on the cached object. *)
Definition withLockInfo (lockedBy lockedByName : option string)
    (lockedAt : option Z) (article : Article.t) : Article.t :=
  {| Article.id := Article.id article;
     Article.briefTitle := Article.briefTitle article;
     Article.detailedDescription := Article.detailedDescription article;
     Article.category := Article.category article;
     Article.tags := Article.tags article;
     Article.relatedArticles := Article.relatedArticles article;
     Article.status := Article.status article;
     Article.authorId := Article.authorId article;
     Article.authorName := Article.authorName article;
     Article.createdAt := Article.createdAt article;
     Article.updatedAt := Article.updatedAt article;
     Article.publishedAt := Article.publishedAt article;
     Article.expirationDate := Article.expirationDate article;
     Article.version := Article.version article;
     Article.lockedBy := lockedBy;
     Article.lockedByName := lockedByName;
     Article.lockedAt := lockedAt;
     Article.metadata := Article.metadata article |}.

(** [Array.from(this.articlesCache.values())]. The store does not keep the
    order of insertion, so articles that the sort leaves tied may come out
    in another order than in the running server. *)
Definition cached : M (list Article.t) :=
  gets (λ s, (map_to_list (Store.articles s)).*2).

Section Search.

(** [String.prototype.toLowerCase] and [String.prototype.localeCompare] of
    the runtime. *)
Variable toLowerCase : string → string.
Variable localeCompare : string → string → Z.

(** The callback of [articles.filter] in [search]. *)
Definition matches (params : ArticleSearchParams.t) (userId : string)
    (canViewAllDrafts : bool) (article : Article.t) : bool :=
  if bool_decide (Article.status article = deleted) then false
  else if bool_decide (Article.status article = draft)
          && negb canViewAllDrafts
          && negb (bool_decide (Article.authorId article = userId))
  then false
  else if match ArticleSearchParams.status params with
          | Some (oneStatus st) => negb (includes [st] (Article.status article))
          | Some (manyStatuses sts) =>
              negb (includes sts (Article.status article))
          | None => false
          end
  then false
  else if match ArticleSearchParams.category params with
          | Some c =>
              isTruthy c && negb (bool_decide (Article.category article = c))
          | None => false
          end
  then false
  else if match ArticleSearchParams.tags params with
          | Some tags =>
              (0 <? Z.of_nat (length tags))
              && negb (forallb (λ tag, includes (Article.tags article) tag)
                               tags)
          | None => false
          end
  then false
  else if match ArticleSearchParams.authorId params with
          | Some a =>
              isTruthy a && negb (bool_decide (Article.authorId article = a))
          | None => false
          end
  then false
  else if match ArticleSearchParams.createdAfter params with
          | Some t => Article.createdAt article <? t
          | None => false
          end
  then false
  else if match ArticleSearchParams.createdBefore params with
          | Some t => t <? Article.createdAt article
          | None => false
          end
  then false
  else if match ArticleSearchParams.updatedAfter params with
          | Some t => Article.updatedAt article <? t
          | None => false
          end
  then false
  else if match ArticleSearchParams.updatedBefore params with
          | Some t => t <? Article.updatedAt article
          | None => false
          end
  then false
  else if match ArticleSearchParams.query params with
          | Some q =>
              isTruthy q
              && negb (includesString (toLowerCase q)
                         (toLowerCase
                            (Article.briefTitle article +:+ " "
                             +:+ Article.detailedDescription article +:+ " "
                             +:+ join " " (Article.tags article))))
          | None => false
          end
  then false
  else true.

(** The comparator of [articles.sort]; two timestamps compare as the ISO
    strings they stand for. *)
Definition comparison (sortBy : SortField) (a b : Article.t) : Z :=
  match sortBy with
  | byBriefTitle =>
      localeCompare (Article.briefTitle a) (Article.briefTitle b)
  | byCreatedAt => Z.sgn (Article.createdAt a - Article.createdAt b)
  | byViewCount =>
      ArticleMetadata.viewCount (Article.metadata a)
      - ArticleMetadata.viewCount (Article.metadata b)
  | byUpdatedAt => Z.sgn (Article.updatedAt a - Article.updatedAt b)
  end.

Definition sorted (params : ArticleSearchParams.t)
    (articles : list Article.t) : list Article.t :=
  let sortBy := default byUpdatedAt (ArticleSearchParams.sortBy params) in
  let sortOrder := default descending (ArticleSearchParams.sortOrder params) in
  arraySort (λ a b,
               match sortOrder with
               | descending => - comparison sortBy a b
               | ascending => comparison sortBy a b
               end)
            articles.

(** [n || fallback] on a number. *)
Definition orElse (n : option Z) (fallback : Z) : Z :=
  match n with
  | Some k => if k =? 0 then fallback else k
  | None => fallback
  end.

Definition search (params : ArticleSearchParams.t) (userId : string)
    (canViewAllDrafts : bool) : M (PaginatedResponse.t ArticleSummary.t) :=
  let* all := cached in
  let articles :=
    sorted params (List.filter (matches params userId canViewAllDrafts) all) in
  let page := orElse (ArticleSearchParams.page params) 1 in
  let limit := orElse (ArticleSearchParams.limit params) 20 in
  let startIndex := (page - 1) * limit in
  let endIndex := startIndex + limit in
  let paginatedArticles := arraySlice articles startIndex endIndex in
  let totalItems := Z.of_nat (length articles) in
  let totalPages := ceilDiv totalItems limit in
  ret {| PaginatedResponse.data := toArticleSummary <$> paginatedArticles;
         PaginatedResponse.pagination :=
           {| Pagination.page := page;
              Pagination.limit := limit;
              Pagination.totalItems := totalItems;
              Pagination.totalPages := totalPages;
              Pagination.hasNextPage := page <? totalPages;
              Pagination.hasPreviousPage := 1 <? page |} |}.

End Search.

Definition findByAuthor (authorId : string) : M (list Article.t) :=
  let* all := cached in
  ret (List.filter
         (λ a, bool_decide (Article.authorId a = authorId)
               && negb (bool_decide (Article.status a = deleted))) all).

Definition findByCategory (category : string) : M (list Article.t) :=
  let* all := cached in
  ret (List.filter
         (λ a, bool_decide (Article.category a = category)
               && negb (bool_decide (Article.status a = deleted))) all).

Definition findByTag (tag : string) : M (list Article.t) :=
  let* all := cached in
  ret (List.filter
         (λ a, includes (Article.tags a) tag
               && negb (bool_decide (Article.status a = deleted))) all).

(** [limit] defaults to [5] when the argument is left out. *)
Definition getRelatedArticles (articleId : string) (limit : option Z)
    : M (list ArticleSummary.t) :=
  let limit := default 5 limit in
  let* found := findById articleId in
  match found with
  | None => ret []
  | Some article =>
      let* cache := gets Store.articles in
      let relatedIds := setOf (Article.relatedArticles article) in
      let related :=
        omap (λ relId,
                match cache !! relId with
                | Some relArticle =>
                    if bool_decide (Article.status relArticle = published)
                    then Some relArticle else None
                | None => None
                end)
             relatedIds in
      let* all := cached in
      let candidates :=
        if Z.of_nat (length related) <? limit then
          let remaining := limit - Z.of_nat (length related) in
          arraySlice
            (List.filter
               (λ a, negb (bool_decide (Article.id a = articleId))
                     && bool_decide (Article.status a = published)
                     && negb (includes relatedIds (Article.id a))
                     && (bool_decide (Article.category a
                                      = Article.category article)
                         || existsb (λ t, includes (Article.tags article) t)
                                    (Article.tags a)))
               all)
            0 remaining
        else [] in
      ret (toArticleSummary <$> arraySlice (related ++ candidates) 0 limit)
  end.

End FileArticleRepository.

(** ** repositories/FileVersionRepository.ts *)

Module FileVersionRepository.

(** [mkdir -p versions/{articleId}] then write [v{version}.json]; an
    existing file of that name is replaced by [fs.writeFile]. *)
Definition createVersion (now : Z) (uuid : string) (article : Article.t)
    (changedBy changedByName : string) (changeReason : option string)
    : M ArticleVersion.t :=
  let version :=
    createVersionFromArticle uuid article changedBy changedByName
                             changeReason now in
  modify (Store.setVersions (λ vs,
    <[Article.id article :=
        <[ArticleVersion.version version := version]>
          (default ∅ (vs !! Article.id article))]> vs));;
  ret version.

Definition getVersion (articleId : string) (version : Z)
    : M (option ArticleVersion.t) :=
  gets (λ s, Store.versions s !! articleId ≫= (.!! version)).

(** The snapshots of [versions/{articleId}], as [getVersions] reads them
    before sorting. *)
Definition versionFiles (s : Store.t) (articleId : string)
    : list ArticleVersion.t :=
  (map_to_list (default ∅ (Store.versions s !! articleId))).*2.

Definition deleteVersions (articleId : string) : M unit :=
  modify (Store.setVersions (delete articleId)).

(** The listing is sorted by [b.version - a.version]; of an empty or
    missing directory the current version is [0]. *)
Definition getVersions (articleId : string) : M VersionListResponse.t :=
  let* files := gets (λ s, versionFiles s articleId) in
  let versions :=
    arraySort (λ a b, ArticleVersion.version b - ArticleVersion.version a)
              files in
  ret {| VersionListResponse.articleId := articleId;
         VersionListResponse.currentVersion :=
           default 0 (ArticleVersion.version <$> head versions);
         VersionListResponse.versions := versions |}.

End FileVersionRepository.

(** ** repositories/FileCategoryRepository.ts *)

Module FileCategoryRepository.

Definition withArticleCount (n : Z) (c : Category.t) : Category.t :=
  {| Category.id := Category.id c;
     Category.name := Category.name c;
     Category.description := Category.description c;
     Category.parentId := Category.parentId c;
     Category.order := Category.order c;
     Category.articleCount := n;
     Category.createdAt := Category.createdAt c;
     Category.updatedAt := Category.updatedAt c |}.

(** The element returned by [categories.find] is mutated in place: the
    first match is replaced, the rest of the array is kept. *)
Fixpoint mutateFirst (p : Category.t → bool) (f : Category.t → Category.t)
    (categories : list Category.t) : list Category.t :=
  match categories with
  | [] => []
  | c :: rest =>
      if p c then f c :: rest else c :: mutateFirst p f rest
  end.

Definition findByExactName (categoryName : string)
    (categories : list Category.t) : option Category.t :=
  List.find (λ c, bool_decide (Category.name c = categoryName)) categories.

Definition updateArticleCount (categoryName : string) (delta : Z) : M unit :=
  let* categories := gets Store.categories in
  match findByExactName categoryName categories with
  | Some _ =>
      modify (Store.setCategories (λ _,
        mutateFirst (λ c, bool_decide (Category.name c = categoryName))
          (λ c, withArticleCount
                  (Z.max 0 (Category.articleCount c + delta)) c)
          categories))
  | None => ret tt
  end.

Section WithLowerCase.

(** [String.prototype.toLowerCase] of the runtime. *)
Variable toLowerCase : string → string.

Definition sameName (name : string) (c : Category.t) : bool :=
  bool_decide (toLowerCase (Category.name c) = toLowerCase name).

Definition findAll : M (list Category.t) :=
  let* categories := gets Store.categories in
  ret (arraySort (λ a b, Category.order a - Category.order b) categories).

Definition findById (id : string) : M (option Category.t) :=
  let* categories := gets Store.categories in
  ret (List.find (λ c, bool_decide (Category.id c = id)) categories).

Definition findByName (name : string) : M (option Category.t) :=
  let* categories := gets Store.categories in
  ret (List.find (sameName name) categories).

(** [throw new Error(...)], a 500 after [normalizeError]. *)
Definition create (now : Z) (uuid : string) (name : string)
    (description parentId : option string) : M Category.t :=
  let* categories := gets Store.categories in
  throwIf (existsb (sameName name) categories)
    (InternalError ("Category '" +:+ name +:+ "' already exists"));;
  let category :=
    {| Category.id := uuid;
       Category.name := name;
       Category.description := description;
       Category.parentId := parentId;
       Category.order := Z.of_nat (length categories) + 1;
       Category.articleCount := 0;
       Category.createdAt := now;
       Category.updatedAt := None |} in
  modify (Store.setCategories (λ _, categories ++ [category]));;
  ret category.

(** [{ ...categories[index], ...(name && { name }),
       ...(description !== undefined && { description }), updatedAt }] *)
Definition renamed (now : Z) (name description : option string)
    (c : Category.t) : Category.t :=
  {| Category.id := Category.id c;
     Category.name :=
       match name with
       | Some n => if isTruthy n then n else Category.name c
       | None => Category.name c
       end;
     Category.description :=
       match description with
       | Some d => Some d
       | None => Category.description c
       end;
     Category.parentId := Category.parentId c;
     Category.order := Category.order c;
     Category.articleCount := Category.articleCount c;
     Category.createdAt := Category.createdAt c;
     Category.updatedAt := Some now |}.

Definition update (now : Z) (id : string) (name description : option string)
    : M Category.t :=
  let* categories := gets Store.categories in
  match list_find (λ c, Category.id c = id) categories with
  | None => throw (NotFoundError "Category" id)
  | Some (index, current) =>
      throwIf
        (match name with
         | Some n =>
             isTruthy n
             && existsb (λ c, negb (bool_decide (Category.id c = id))
                              && sameName n c)
                        categories
         | None => false
         end)
        (InternalError
           ("Category '" +:+ default "" name +:+ "' already exists"));;
      let updated := renamed now name description current in
      modify (Store.setCategories (λ _, <[index := updated]> categories));;
      ret updated
  end.

(** [delete] in the source. *)
Definition delete_ (id : string) : M unit :=
  let* categories := gets Store.categories in
  match List.find (λ c, bool_decide (Category.id c = id)) categories with
  | None => throw (NotFoundError "Category" id)
  | Some category =>
      throwIf (0 <? Category.articleCount category)
        (InternalError
           ("Cannot delete category '" +:+ Category.name category
            +:+ "' - it has " +:+ pretty (Category.articleCount category)
            +:+ " articles"));;
      modify (Store.setCategories (λ _,
        List.filter (λ c, negb (bool_decide (Category.id c = id)))
                    categories))
  end.

End WithLowerCase.

End FileCategoryRepository.

(** ** repositories/FileCommentRepository.ts *)

Module FileCommentRepository.

Definition loadComments (articleId : string) : M (list Comment.t) :=
  gets (λ s, default [] (Store.comments s !! articleId)).

Definition saveComments (articleId : string) (comments : list Comment.t)
    : M unit :=
  modify (Store.setComments (insert articleId comments)).

Definition create (now : Z) (uuid : string) (articleId content : string)
    (authorId authorName : string) : M Comment.t :=
  let* comments := loadComments articleId in
  let comment :=
    {| Comment.id := uuid;
       Comment.articleId := articleId;
       Comment.authorId := authorId;
       Comment.authorName := authorName;
       Comment.content := content;
       Comment.createdAt := now;
       Comment.updatedAt := None;
       Comment.isEdited := false |} in
  saveComments articleId (comments ++ [comment]);;
  ret comment.

Definition getFilePath (articleId : string) : string :=
  articleId +:+ ".json".

(** [fs.readdir(this.commentsDir)]: one file per commented article. *)
Definition readdir : M (list string) :=
  gets (λ s, getFilePath <$> (map_to_list (Store.comments s)).*1).

(** The loop of [findById] over the listing. *)
Fixpoint findInFiles (id : string) (files : list string)
    : M (option Comment.t) :=
  match files with
  | [] => ret None
  | file :: rest =>
      if negb (endsWith ".json" file) then findInFiles id rest
      else
        let articleId := removeFirst ".json" file in
        let* comments := loadComments articleId in
        match List.find (λ c, bool_decide (Comment.id c = id)) comments with
        | Some comment => ret (Some comment)
        | None => findInFiles id rest
        end
  end.

Definition findById (id : string) : M (option Comment.t) :=
  let* files := readdir in
  findInFiles id files.

(** [{ ...comment, content, updatedAt, isEdited: true }] *)
Definition edited (now : Z) (content : string) (comment : Comment.t)
    : Comment.t :=
  {| Comment.id := Comment.id comment;
     Comment.articleId := Comment.articleId comment;
     Comment.authorId := Comment.authorId comment;
     Comment.authorName := Comment.authorName comment;
     Comment.content := content;
     Comment.createdAt := Comment.createdAt comment;
     Comment.updatedAt := Some now;
     Comment.isEdited := true |}.

Definition update (now : Z) (id : string) (content : string) : M Comment.t :=
  let* found := findById id in
  match found with
  | None => throw (NotFoundError "Comment" id)
  | Some comment =>
      let* comments := loadComments (Comment.articleId comment) in
      match list_find (λ c, Comment.id c = id) comments with
      | None => throw (NotFoundError "Comment" id)
      | Some (index, _) =>
          let updatedComment := edited now content comment in
          saveComments (Comment.articleId comment)
            (<[index := updatedComment]> comments);;
          ret updatedComment
      end
  end.

(** [delete] in the source. *)
Definition delete_ (id : string) : M unit :=
  let* found := findById id in
  match found with
  | None => throw (NotFoundError "Comment" id)
  | Some comment =>
      let* comments := loadComments (Comment.articleId comment) in
      let filteredComments :=
        List.filter (λ c, negb (bool_decide (Comment.id c = id))) comments in
      saveComments (Comment.articleId comment) filteredComments
  end.

Definition findByArticle (articleId : string) : M CommentListResponse.t :=
  let* loaded := loadComments articleId in
  let comments :=
    arraySort (λ a b, Z.sgn (Comment.createdAt a - Comment.createdAt b))
              loaded in
  ret {| CommentListResponse.articleId := articleId;
         CommentListResponse.comments := comments;
         CommentListResponse.totalCount := Z.of_nat (length comments) |}.

Definition deleteByArticle (articleId : string) : M unit :=
  modify (Store.setComments (delete articleId)).

End FileCommentRepository.

(** ** services/ArticleService.ts *)

Module ArticleService.

Definition len (s : string) : Z := Z.of_nat (String.length s).
Definition truthy (s : string) : bool := negb (bool_decide (s = "")).

(** The keys of a [CreateArticleInput] seen through the [in] tests of
    [validateArticleInput]: the three required strings are always there. *)
Definition ofCreate (input : CreateArticleInput.t) : UpdateArticleInput.t :=
  {| UpdateArticleInput.briefTitle :=
       Some (CreateArticleInput.briefTitle input);
     UpdateArticleInput.detailedDescription :=
       Some (CreateArticleInput.detailedDescription input);
     UpdateArticleInput.category := Some (CreateArticleInput.category input);
     UpdateArticleInput.tags := CreateArticleInput.tags input;
     UpdateArticleInput.relatedArticles :=
       CreateArticleInput.relatedArticles input;
     UpdateArticleInput.status := CreateArticleInput.status input;
     UpdateArticleInput.expirationDate :=
       CreateArticleInput.expirationDate input |}.

(** [errors], a record filled key by key, in insertion order. *)
Definition validateArticleInput (input : UpdateArticleInput.t)
    (isCreate : bool) : list (string * list string) :=
  let titleErrors :=
    if bool_decide (is_Some (UpdateArticleInput.briefTitle input))
       || isCreate then
      let title := default "" (UpdateArticleInput.briefTitle input) in
      if isCreate && negb (truthy title) then
        [("briefTitle", ["Title is required"])]
      else if truthy title then
        if len title <? TITLE_MIN_LENGTH then
          [("briefTitle", ["Title must be at least 3 characters"])]
        else if TITLE_MAX_LENGTH <? len title then
          [("briefTitle", ["Title must not exceed 150 characters"])]
        else []
      else []
    else [] in
  let descErrors :=
    if bool_decide (is_Some (UpdateArticleInput.detailedDescription input))
       || isCreate then
      let desc := default "" (UpdateArticleInput.detailedDescription input) in
      if isCreate && negb (truthy desc) then
        [("detailedDescription", ["Description is required"])]
      else if truthy desc then
        if len desc <? DESCRIPTION_MIN_LENGTH then
          [("detailedDescription",
            ["Description must be at least 10 characters"])]
        else if DESCRIPTION_MAX_LENGTH <? len desc then
          [("detailedDescription",
            ["Description must not exceed 50000 characters"])]
        else []
      else []
    else [] in
  let categoryErrors :=
    if bool_decide (is_Some (UpdateArticleInput.category input))
       || isCreate then
      let category := default "" (UpdateArticleInput.category input) in
      if isCreate && negb (truthy category) then
        [("category", ["Category is required"])]
      else if truthy category && (CATEGORY_MAX_LENGTH <? len category) then
        [("category", ["Category must not exceed 50 characters"])]
      else []
    else [] in
  let tagErrors :=
    match UpdateArticleInput.tags input with
    | Some tags =>
        if MAX_TAGS <? Z.of_nat (length tags) then
          [("tags", ["Maximum 10 tags allowed"])]
        else
          let invalidTags :=
            List.filter (λ t, TAG_MAX_LENGTH <? len t) tags in
          if 0 <? Z.of_nat (length invalidTags) then
            [("tags", ["Tags must not exceed 30 characters"])]
          else []
    | None => []
    end in
  let relatedErrors :=
    match UpdateArticleInput.relatedArticles input with
    | Some related =>
        if MAX_RELATED_ARTICLES <? Z.of_nat (length related) then
          [("relatedArticles", ["Maximum 10 related articles allowed"])]
        else []
    | None => []
    end in
  titleErrors ++ descErrors ++ categoryErrors ++ tagErrors ++ relatedErrors.

Definition isValid (errors : list (string * list string)) : bool :=
  bool_decide (errors = []).

(** [uuidArticle] and [uuidVersion] are the two [uuidv4()] draws. *)
Definition create (now : Z) (uuidArticle uuidVersion : string)
    (input : CreateArticleInput.t) (user : User.t) : M Article.t :=
  throwIf (negb (hasPermission user article_create))
          (ForbiddenError "You do not have permission to create articles");;
  let validation := validateArticleInput (ofCreate input) true in
  throwIf (negb (isValid validation)) (ValidationError validation);;
  let* article :=
    FileArticleRepository.create now uuidArticle input
      (User.id user) (User.displayName user) in
  FileVersionRepository.createVersion now uuidVersion article
    (User.id user) (User.displayName user) (Some "Initial creation");;
  FileCategoryRepository.updateArticleCount (Article.category article) 1;;
  ret article.

(** The object returned is the cached one, so for a published article it
    already carries the incremented view count. *)
Definition getById (now : Z) (id : string) (user : User.t) : M Article.t :=
  let* found := FileArticleRepository.findById id in
  match found with
  | None => throw (NotFoundError "Article" id)
  | Some article =>
      (match Article.status article with
       | deleted =>
           throwIf (negb (hasPermission user article_delete_all))
                   (NotFoundError "Article" id)
       | draft =>
           throwIf
             (negb (bool_decide (Article.authorId article = User.id user))
              && negb (hasPermission user article_view_draft_all))
             (ForbiddenError "You do not have permission to view this draft")
       | _ => ret tt
       end);;
      if bool_decide (Article.status article = published) then
        FileArticleRepository.incrementViewCount now id
          (Some (User.id user));;
        let* viewed := FileArticleRepository.findById id in
        ret (default article viewed)
      else ret article
  end.

Definition canOwnOrAll (user : User.t) (article : Article.t)
    (own all : Permission) : bool :=
  let canOwn :=
    hasPermission user own
    && bool_decide (Article.authorId article = User.id user) in
  let canAll := hasPermission user all in
  canOwn || canAll.

Definition update (now : Z) (uuidVersion : string) (id : string)
    (input : UpdateArticleInput.t) (user : User.t)
    (changeReason : option string) : M Article.t :=
  let* found := FileArticleRepository.findById id in
  match found with
  | None => throw (NotFoundError "Article" id)
  | Some article =>
      throwIf (negb (canOwnOrAll user article
                       article_edit_own article_edit_all))
        (ForbiddenError "You do not have permission to edit this article");;
      let* lockStatus :=
        FileLockRepository.getLockStatus now id (User.id user) in
      throwIf (LockStatusResponse.isLocked lockStatus
               && negb (LockStatusResponse.canEdit lockStatus))
        (ConflictError
           ("Article is currently being edited by "
            +:+ default "undefined"
                  (ArticleLock.lockedByName
                     <$> LockStatusResponse.lock lockStatus)));;
      let validation := validateArticleInput input false in
      throwIf (negb (isValid validation)) (ValidationError validation);;
      let oldCategory := Article.category article in
      let newCategory := UpdateArticleInput.category input in
      let* updatedArticle := FileArticleRepository.update now id input in
      FileVersionRepository.createVersion now uuidVersion updatedArticle
        (User.id user) (User.displayName user) changeReason;;
      (match newCategory with
       | Some newCat =>
           if truthy newCat && negb (bool_decide (newCat = oldCategory)) then
             FileCategoryRepository.updateArticleCount oldCategory (-1);;
             FileCategoryRepository.updateArticleCount newCat 1
           else ret tt
       | None => ret tt
       end);;
      ret updatedArticle
  end.

(** [delete] in the source. *)
Definition delete_ (now : Z) (uuidVersion : string) (id : string)
    (user : User.t) : M Article.t :=
  let* found := FileArticleRepository.findById id in
  match found with
  | None => throw (NotFoundError "Article" id)
  | Some article =>
      throwIf (negb (canOwnOrAll user article
                       article_delete_own article_delete_all))
        (ForbiddenError "You do not have permission to delete this article");;
      FileLockRepository.releaseLock id
        (match Article.lockedBy article with
         | Some l => if truthy l then l else User.id user
         | None => User.id user
         end);;
      let* deletedArticle := FileArticleRepository.softDelete now id in
      FileCategoryRepository.updateArticleCount
        (Article.category article) (-1);;
      FileVersionRepository.createVersion now uuidVersion deletedArticle
        (User.id user) (User.displayName user) (Some "Moved to trash");;
      ret deletedArticle
  end.

Definition permanentDelete (id : string) (user : User.t) : M unit :=
  throwIf (negb (hasPermission user article_delete_all))
    (ForbiddenError
       "You do not have permission to permanently delete articles");;
  let* found := FileArticleRepository.findById id in
  match found with
  | None => throw (NotFoundError "Article" id)
  | Some article =>
      throwIf (negb (bool_decide (Article.status article = deleted)))
        (BadRequestError
           "Article must be in trash before permanent deletion");;
      FileVersionRepository.deleteVersions id;;
      FileArticleRepository.hardDelete id
  end.

Definition restore (now : Z) (uuidVersion : string) (id : string)
    (user : User.t) : M Article.t :=
  let* found := FileArticleRepository.findById id in
  match found with
  | None => throw (NotFoundError "Article" id)
  | Some article =>
      throwIf (negb (bool_decide (Article.status article = deleted)))
        (BadRequestError "Article is not in trash");;
      throwIf (negb (canOwnOrAll user article
                       article_restore_own article_restore_all))
        (ForbiddenError
           "You do not have permission to restore this article");;
      let* restoredArticle := FileArticleRepository.restore now id in
      FileCategoryRepository.updateArticleCount
        (Article.category restoredArticle) 1;;
      FileVersionRepository.createVersion now uuidVersion restoredArticle
        (User.id user) (User.displayName user) (Some "Restored from trash");;
      ret restoredArticle
  end.

Definition publish (now : Z) (uuidVersion : string) (id : string)
    (user : User.t) : M Article.t :=
  let* found := FileArticleRepository.findById id in
  match found with
  | None => throw (NotFoundError "Article" id)
  | Some article =>
      throwIf (negb (bool_decide (Article.status article = draft)))
        (BadRequestError "Only draft articles can be published");;
      throwIf (negb (canOwnOrAll user article
                       article_publish_own article_publish_all))
        (ForbiddenError
           "You do not have permission to publish this article");;
      let* publishedArticle :=
        FileArticleRepository.update now id
          (UpdateArticleInput.ofStatus published) in
      FileVersionRepository.createVersion now uuidVersion publishedArticle
        (User.id user) (User.displayName user) (Some "Published");;
      ret publishedArticle
  end.

Definition archive (now : Z) (uuidVersion : string) (id : string)
    (user : User.t) : M Article.t :=
  throwIf (negb (hasPermission user article_archive))
    (ForbiddenError "You do not have permission to archive articles");;
  let* found := FileArticleRepository.findById id in
  match found with
  | None => throw (NotFoundError "Article" id)
  | Some article =>
      throwIf (negb (bool_decide (Article.status article = published)))
        (BadRequestError "Only published articles can be archived");;
      let* archivedArticle :=
        FileArticleRepository.update now id
          (UpdateArticleInput.ofStatus archived) in
      FileVersionRepository.createVersion now uuidVersion archivedArticle
        (User.id user) (User.displayName user) (Some "Archived");;
      ret archivedArticle
  end.

Definition search (toLowerCase : string → string)
    (localeCompare : string → string → Z) (params : ArticleSearchParams.t)
    (user : User.t) : M (PaginatedResponse.t ArticleSummary.t) :=
  let canViewAllDrafts := hasPermission user article_view_draft_all in
  FileArticleRepository.search toLowerCase localeCompare params
    (User.id user) canViewAllDrafts.

Definition getRelatedArticles (articleId : string) (limit : option Z)
    : M (list ArticleSummary.t) :=
  FileArticleRepository.getRelatedArticles articleId limit.

End ArticleService.

(** ** services/VersionService.ts *)

Module VersionService.

Definition restoreVersion (now : Z) (uuidVersion : string)
    (articleId : string) (versionNumber : Z) (user : User.t)
    : M ArticleVersion.t :=
  let* found := FileArticleRepository.findById articleId in
  match found with
  | None => throw (NotFoundError "Article" articleId)
  | Some article =>
      throwIf (negb (ArticleService.canOwnOrAll user article
                       article_version_restore_own
                       article_version_restore_all))
        (ForbiddenError "You do not have permission to restore versions");;
      let* versionToRestore :=
        FileVersionRepository.getVersion articleId versionNumber in
      match versionToRestore with
      | None =>
          throw (NotFoundError "Version"
                   (articleId +:+ "/v" +:+ pretty versionNumber))
      | Some v =>
          throwIf (bool_decide (versionNumber = Article.version article))
            (BadRequestError "Cannot restore to current version");;
          let* restoredArticle :=
            FileArticleRepository.update now articleId
              {| UpdateArticleInput.briefTitle :=
                   Some (ArticleVersion.briefTitle v);
                 UpdateArticleInput.detailedDescription :=
                   Some (ArticleVersion.detailedDescription v);
                 UpdateArticleInput.category :=
                   Some (ArticleVersion.category v);
                 UpdateArticleInput.tags := Some (ArticleVersion.tags v);
                 UpdateArticleInput.relatedArticles :=
                   Some (ArticleVersion.relatedArticles v);
                 UpdateArticleInput.status := None;
                 UpdateArticleInput.expirationDate := None |} in
          FileVersionRepository.createVersion now uuidVersion
            restoredArticle (User.id user) (User.displayName user)
            (Some ("Restored from version " +:+ pretty versionNumber))
      end
  end.

Definition getVersions (articleId : string) (user : User.t)
    : M VersionListResponse.t :=
  let* found := FileArticleRepository.findById articleId in
  match found with
  | None => throw (NotFoundError "Article" articleId)
  | Some article =>
      throwIf (negb (hasPermission user article_version_view))
        (ForbiddenError
           "You do not have permission to view version history");;
      throwIf
        (bool_decide (Article.status article = draft)
         && negb (bool_decide (Article.authorId article = User.id user))
         && negb (hasPermission user article_view_draft_all))
        (ForbiddenError
           "You do not have permission to view this article's history");;
      FileVersionRepository.getVersions articleId
  end.

Definition getVersion (articleId : string) (versionNumber : Z)
    (user : User.t) : M ArticleVersion.t :=
  let* found := FileArticleRepository.findById articleId in
  match found with
  | None => throw (NotFoundError "Article" articleId)
  | Some article =>
      throwIf (negb (hasPermission user article_version_view))
        (ForbiddenError
           "You do not have permission to view version history");;
      let* version :=
        FileVersionRepository.getVersion articleId versionNumber in
      match version with
      | None =>
          throw (NotFoundError "Version"
                   (articleId +:+ "/v" +:+ pretty versionNumber))
      | Some v => ret v
      end
  end.

Module Comparison.
Record t : Type := mk {
  older : ArticleVersion.t;
  newer : ArticleVersion.t;
  diff : list VersionDiff.t;
}.
End Comparison.

Definition compareVersions (articleId : string) (version1 version2 : Z)
    (user : User.t) : M Comparison.t :=
  let* v1 := getVersion articleId version1 user in
  let* v2 := getVersion articleId version2 user in
  let '(older, newer) := if version1 <? version2 then (v1, v2) else (v2, v1) in
  ret {| Comparison.older := older;
         Comparison.newer := newer;
         Comparison.diff := compareVersions older newer |}.


End VersionService.

(** ** services/LockService.ts *)

Module LockService.

Definition updateArticleLockInfo (now : Z) (articleId userId userName : string)
    : M unit :=
  modify (Store.setArticles
    (alter (FileArticleRepository.withLockInfo
              (Some userId) (Some userName) (Some now)) articleId)).

Definition clearArticleLockInfo (articleId : string) : M unit :=
  modify (Store.setArticles
    (alter (FileArticleRepository.withLockInfo None None None) articleId)).

Definition acquireLock (cfg : Config.t) (now : Z) (articleId : string)
    (user : User.t) : M LockAcquisitionResult.t :=
  let* found := FileArticleRepository.findById articleId in
  match found with
  | None => throw (NotFoundError "Article" articleId)
  | Some article =>
      throwIf (negb (ArticleService.canOwnOrAll user article
                       article_edit_own article_edit_all))
        (ForbiddenError "You do not have permission to edit this article");;
      let* result :=
        FileLockRepository.acquireLock cfg now articleId
          (User.id user) (User.displayName user) in
      (if LockAcquisitionResult.success result
       then updateArticleLockInfo now articleId
              (User.id user) (User.displayName user)
       else ret tt);;
      ret result
  end.

Definition releaseLock (now : Z) (articleId : string) (user : User.t)
    : M bool :=
  let* ex := FileArticleRepository.exists_ articleId in
  throwIf (negb ex) (NotFoundError "Article" articleId);;
  let* lockStatus :=
    FileLockRepository.getLockStatus now articleId (User.id user) in
  throwIf (LockStatusResponse.isLocked lockStatus
           && negb (LockStatusResponse.canEdit lockStatus)
           && negb (hasPermission user article_edit_all))
    (ForbiddenError "You cannot release a lock held by another user");;
  let* released :=
    FileLockRepository.releaseLock articleId
      (match LockStatusResponse.lock lockStatus with
       | Some l =>
           if ArticleService.truthy (ArticleLock.lockedBy l)
           then ArticleLock.lockedBy l else User.id user
       | None => User.id user
       end) in
  (if released then clearArticleLockInfo articleId else ret tt);;
  ret released.

Definition getLockStatus (now : Z) (articleId : string) (user : User.t)
    : M LockStatusResponse.t :=
  let* ex := FileArticleRepository.exists_ articleId in
  throwIf (negb ex) (NotFoundError "Article" articleId);;
  FileLockRepository.getLockStatus now articleId (User.id user).

Definition renewLock (cfg : Config.t) (now : Z) (articleId : string)
    (user : User.t) : M LockAcquisitionResult.t :=
  let* lockStatus :=
    FileLockRepository.getLockStatus now articleId (User.id user) in
  if negb (LockStatusResponse.isLocked lockStatus)
     || negb (LockStatusResponse.canEdit lockStatus)
  then acquireLock cfg now articleId user
  else
    let* result :=
      FileLockRepository.acquireLock cfg now articleId
        (User.id user) (User.displayName user) in
    (if LockAcquisitionResult.success result
     then updateArticleLockInfo now articleId
            (User.id user) (User.displayName user)
     else ret tt);;
    ret result.

Definition isLocked (now : Z) (articleId : string) : M bool :=
  FileLockRepository.isLocked now articleId.

End LockService.

(** ** services/CommentService.ts *)

Module CommentService.
Section WithTrim.

(** [String.prototype.trim] of the runtime. *)
Variable trim : string → string.

Definition validateCommentInput (content : string)
    : list (string * list string) :=
  if negb (ArticleService.truthy content)
     || bool_decide (ArticleService.len (trim content) = 0) then
    [("content", ["Comment content is required"])]
  else if ArticleService.len content <? CONTENT_MIN_LENGTH then
    [("content", ["Comment must be at least 1 character"])]
  else if CONTENT_MAX_LENGTH <? ArticleService.len content then
    [("content", ["Comment must not exceed 2000 characters"])]
  else [].

Definition create (now : Z) (uuid : string) (articleId : string)
    (content : string) (user : User.t) : M Comment.t :=
  throwIf (negb (hasPermission user comment_create))
    (ForbiddenError "You do not have permission to add comments");;
  let* found := FileArticleRepository.findById articleId in
  match found with
  | None => throw (NotFoundError "Article" articleId)
  | Some article =>
      throwIf (negb (bool_decide (Article.status article = published)))
        (ForbiddenError
           "Comments can only be added to published articles");;
      let errors := validateCommentInput content in
      throwIf (negb (ArticleService.isValid errors))
              (ValidationError errors);;
      FileCommentRepository.create now uuid articleId (trim content)
        (User.id user) (User.displayName user)
  end.

Definition getByArticle (articleId : string) (user : User.t)
    : M CommentListResponse.t :=
  throwIf (negb (hasPermission user comment_view))
    (ForbiddenError "You do not have permission to view comments");;
  let* ex := FileArticleRepository.exists_ articleId in
  throwIf (negb ex) (NotFoundError "Article" articleId);;
  FileCommentRepository.findByArticle articleId.

Definition canOwnOrAll (user : User.t) (comment : Comment.t)
    (own all : Permission) : bool :=
  let canOwn :=
    hasPermission user own
    && bool_decide (Comment.authorId comment = User.id user) in
  let canAll := hasPermission user all in
  canOwn || canAll.

Definition update (now : Z) (commentId : string) (content : string)
    (user : User.t) : M Comment.t :=
  let* found := FileCommentRepository.findById commentId in
  match found with
  | None => throw (NotFoundError "Comment" commentId)
  | Some comment =>
      throwIf (negb (canOwnOrAll user comment
                       comment_edit_own comment_edit_all))
        (ForbiddenError "You do not have permission to edit this comment");;
      let errors := validateCommentInput content in
      throwIf (negb (ArticleService.isValid errors))
              (ValidationError errors);;
      FileCommentRepository.update now commentId (trim content)
  end.

(** [delete] in the source. *)
Definition delete_ (commentId : string) (user : User.t) : M unit :=
  let* found := FileCommentRepository.findById commentId in
  match found with
  | None => throw (NotFoundError "Comment" commentId)
  | Some comment =>
      throwIf (negb (canOwnOrAll user comment
                       comment_delete_own comment_delete_all))
        (ForbiddenError "You do not have permission to delete this comment");;
      FileCommentRepository.delete_ commentId
  end.

End WithTrim.
End CommentService.

(** ** middleware/auth.ts *)

Module auth.

(** The middleware returned by [requireRole(minimumRole)], on the user the
    request carries. *)
Definition requireRole (minimumRole : UserRole) (user : option User.t)
    : M unit :=
  match user with
  | None => throw (UnauthorizedError "Authentication required")
  | Some u =>
      let userRoleIndex := indexOf ROLE_HIERARCHY (User.role u) in
      let requiredRoleIndex := indexOf ROLE_HIERARCHY minimumRole in
      throwIf (userRoleIndex <? requiredRoleIndex)
        (UnauthorizedError
           ("This action requires " +:+ roleName minimumRole
            +:+ " role or higher"))
  end.

End auth.

(** ** routes/articleRoutes.ts, versionRoutes.ts, commentRoutes.ts and
    lockRoutes.ts: the routes mounted behind [requireRole] *)

Inductive GuardedRoute : Type :=
  | articles_create            (* POST   /articles *)
  | articles_update            (* PUT    /articles/:id *)
  | articles_delete            (* DELETE /articles/:id *)
  | articles_permanentDelete   (* DELETE /articles/:id/permanent *)
  | articles_restore           (* POST   /articles/:id/restore *)
  | articles_publish           (* POST   /articles/:id/publish *)
  | articles_archive           (* POST   /articles/:id/archive *)
  | versions_restore           (* POST   /articles/:id/versions/:version/restore *)
  | comments_create            (* POST   /articles/:articleId/comments *)
  | comments_update            (* PUT    /comments/:id *)
  | comments_delete            (* DELETE /comments/:id *)
  | lock_acquire               (* POST   /articles/:id/lock *)
  | lock_renew                 (* PUT    /articles/:id/lock *)
  | lock_release.              (* DELETE /articles/:id/lock *)

Definition minimumRole (route : GuardedRoute) : UserRole :=
  match route with
  | articles_create | articles_update | articles_delete | articles_restore
  | articles_publish | versions_restore
  | lock_acquire | lock_renew | lock_release => author
  | articles_permanentDelete | articles_archive => editor
  | comments_create | comments_update | comments_delete => actor
  end.

(** ** middleware/validation.ts *)

(** A parsed JSON value; an absent key ([undefined]) is a failed lookup. *)
Inductive JValue : Type :=
  | JNull
  | JBool (b : bool)
  | JNum (n : Z)
  | JStr (s : string)
  | JArr (items : list JValue)
  | JObj (fields : list (string * JValue)).

Inductive JType : Type := TString | TNumber | TBoolean | TArray | TObject.

(** One entry of a [ValidationSchema]. [enum] is only consulted for string
    values, so it is a list of strings; [items] is never read. *)
Inductive Rules : Type :=
  mkRules {
    type_ : JType;
    required : bool;
    minLength : option Z;
    maxLength : option Z;
    min : option Z;
    max : option Z;
    pattern : option (string → bool);
    enum : option (list string);
    properties : option (list (string * Rules));
  }.

Definition rule (t : JType) : Rules :=
  mkRules t false None None None None None None None.

Module Validation.

Definition Errors : Type := list (string * list string).

(** [data[field]] *)
Fixpoint getField (field : string) (data : list (string * JValue))
    : option JValue :=
  match data with
  | [] => None
  | (k, v) :: rest =>
      if bool_decide (k = field) then Some v else getField field rest
  end.

(** [errors[key] = value] *)
Fixpoint setKey (key : string) (value : list string) (errors : Errors)
    : Errors :=
  match errors with
  | [] => [(key, value)]
  | (k, v) :: rest =>
      if bool_decide (k = key) then (k, value) :: rest
      else (k, v) :: setKey key value rest
  end.

(** [Object.assign(errors, nested)] *)
Definition assign (errors nested : Errors) : Errors :=
  fold_left (λ acc kv, setKey kv.1 kv.2 acc) nested errors.

(** [rules.minLength && n < rules.minLength] *)
Definition below (bound : option Z) (n : Z) : bool :=
  match bound with
  | Some m => negb (m =? 0) && (n <? m)
  | None => false
  end.

Definition above (bound : option Z) (n : Z) : bool :=
  match bound with
  | Some m => negb (m =? 0) && (m <? n)
  | None => false
  end.

Definition when (c : bool) (msg : string) : list string :=
  if c then [msg] else [].

(** One iteration of the loop of [validateObject], for the entry
    [field: rules] of the schema, on the errors collected so far. *)
Fixpoint validateEntry (prefix field : string) (rules : Rules)
    (data : list (string * JValue)) (errors : Errors) : Errors :=
  let fieldPath :=
    if ArticleService.truthy prefix then prefix +:+ "." +:+ field
    else field in
  let value := getField field data in
  match rules with
  | mkRules ty req minL maxL mn mx pat en props =>
      let missing :=
        match value with
        | None | Some JNull => true
        | Some (JStr s) => bool_decide (s = "")
        | _ => false
        end in
      if req && missing then
        setKey fieldPath [fieldPath +:+ " is required"] errors
      else
        match value with
        | None | Some JNull => errors
        | Some v =>
            let '(fieldErrors, errors') :=
              match ty with
              | TString =>
                  match v with
                  | JStr s =>
                      (when (below minL (ArticleService.len s))
                         (fieldPath +:+ " must be at least "
                          +:+ pretty (default 0 minL) +:+ " characters")
                       ++ when (above maxL (ArticleService.len s))
                            (fieldPath +:+ " must not exceed "
                             +:+ pretty (default 0 maxL) +:+ " characters")
                       ++ when (match pat with
                                | Some test => negb (test s)
                                | None => false
                                end)
                            (fieldPath +:+ " format is invalid")
                       ++ when (match en with
                                | Some allowed => negb (includes allowed s)
                                | None => false
                                end)
                            (fieldPath +:+ " must be one of: "
                             +:+ join ", " (default [] en)),
                       errors)
                  | _ => ([fieldPath +:+ " must be a string"], errors)
                  end
              | TNumber =>
                  match v with
                  | JNum n =>
                      (when (match mn with Some m => n <? m | None => false end)
                         (fieldPath +:+ " must be at least "
                          +:+ pretty (default 0 mn))
                       ++ when (match mx with
                                | Some m => m <? n
                                | None => false
                                end)
                            (fieldPath +:+ " must not exceed "
                             +:+ pretty (default 0 mx)),
                       errors)
                  | _ => ([fieldPath +:+ " must be a number"], errors)
                  end
              | TBoolean =>
                  match v with
                  | JBool _ => ([], errors)
                  | _ => ([fieldPath +:+ " must be a boolean"], errors)
                  end
              | TArray =>
                  match v with
                  | JArr items =>
                      (when (below minL (Z.of_nat (length items)))
                         (fieldPath +:+ " must have at least "
                          +:+ pretty (default 0 minL) +:+ " items")
                       ++ when (above maxL (Z.of_nat (length items)))
                            (fieldPath +:+ " must not exceed "
                             +:+ pretty (default 0 maxL) +:+ " items"),
                       errors)
                  | _ => ([fieldPath +:+ " must be an array"], errors)
                  end
              | TObject =>
                  match v with
                  | JObj fields =>
                      match props with
                      | Some nestedSchema =>
                          ([],
                           assign errors
                             ((fix loop (schema : list (string * Rules))
                                   (acc : Errors) : Errors :=
                                 match schema with
                                 | [] => acc
                                 | (f, r) :: rest =>
                                     loop rest
                                       (validateEntry fieldPath f r fields acc)
                                 end) nestedSchema []))
                      | None => ([], errors)
                      end
                  | _ => ([fieldPath +:+ " must be an object"], errors)
                  end
              end in
            match fieldErrors with
            | [] => errors'
            | _ => setKey fieldPath fieldErrors errors'
            end
        end
  end.

Definition validateObject (data : list (string * JValue))
    (schema : list (string * Rules)) (prefix : string) : Errors :=
  fold_left (λ errors fr, validateEntry prefix fr.1 fr.2 data errors)
            schema [].

(** [validateBody(schema)] on a body that parsed to an object. *)
Definition validateBody (schema : list (string * Rules))
    (body : list (string * JValue)) : M unit :=
  let errors := validateObject body schema "" in
  throwIf (negb (ArticleService.isValid errors)) (ValidationError errors).

(** [code] of a character. *)
Definition charCode (c : Ascii.ascii) : Z := Z.of_N (Ascii.N_of_ascii c).

(** [[0-9a-f]] under the flag [i]. *)
Definition isHexDigit (c : Ascii.ascii) : bool :=
  ((48 <=? charCode c) && (charCode c <=? 57))
  || ((97 <=? charCode c) && (charCode c <=? 102))
  || ((65 <=? charCode c) && (charCode c <=? 70)).

Inductive UuidChar : Type := hexDigit | dash.

(** [{8}-{4}-{4}-{4}-{12}] *)
Definition uuidPattern : list UuidChar :=
  replicate 8 hexDigit ++ [dash] ++ replicate 4 hexDigit ++ [dash]
  ++ replicate 4 hexDigit ++ [dash] ++ replicate 4 hexDigit ++ [dash]
  ++ replicate 12 hexDigit.

(** [uuidRegex.test(value)]: the whole string, character by character. *)
Fixpoint matchesPattern (pattern : list UuidChar) (value : string) : bool :=
  match pattern, value with
  | [], EmptyString => true
  | hexDigit :: rest, String c value' =>
      isHexDigit c && matchesPattern rest value'
  | dash :: rest, String c value' =>
      bool_decide (c = "-"%char) && matchesPattern rest value'
  | _, _ => false
  end.

(** [validateUUID(paramName)] on [req.params[paramName]]. *)
Definition validateUUID (paramName : string) (value : option string)
    : M unit :=
  throwIf
    (match value with
     | Some v => negb (isTruthy v) || negb (matchesPattern uuidPattern v)
     | None => true
     end)
    (BadRequestError ("Invalid " +:+ paramName +:+ " format")).

End Validation.


(** ** controllers/articleController.ts *)

Module articleController.

(** The JSON body of [POST /api/articles], read at the types the schema of
    [create] checks: every key may be absent, strings are raw strings, and
    the two arrays hold strings. *)
Module Body.
Record t : Type := mk {
  briefTitle : option string;
  detailedDescription : option string;
  category : option string;
  tags : option (list string);
  relatedArticles : option (list string);
  status : option string;
  expirationDate : option string;
  contentFormat : option string;
}.

Definition entry {A} (key : string) (f : A → JValue) (x : option A)
    : list (string * JValue) :=
  match x with
  | Some a => [(key, f a)]
  | None => []
  end.

Definition toJSON (b : t) : list (string * JValue) :=
  entry "briefTitle" JStr (briefTitle b)
  ++ entry "detailedDescription" JStr (detailedDescription b)
  ++ entry "category" JStr (category b)
  ++ entry "tags" (λ l, JArr (JStr <$> l)) (tags b)
  ++ entry "relatedArticles" (λ l, JArr (JStr <$> l)) (relatedArticles b)
  ++ entry "status" JStr (status b)
  ++ entry "expirationDate" JStr (expirationDate b)
  ++ entry "contentFormat" JStr (contentFormat b).
End Body.

Definition createSchema : list (string * Rules) :=
  [ ("briefTitle",
     mkRules TString true (Some TITLE_MIN_LENGTH) (Some TITLE_MAX_LENGTH)
             None None None None None);
    ("detailedDescription",
     mkRules TString true (Some DESCRIPTION_MIN_LENGTH)
             (Some DESCRIPTION_MAX_LENGTH) None None None None None);
    ("category",
     mkRules TString true None (Some CATEGORY_MAX_LENGTH)
             None None None None None);
    ("tags", rule TArray);
    ("relatedArticles", rule TArray);
    ("status",
     mkRules TString false None None None None None
             (Some ["draft"; "published"]) None);
    ("expirationDate", rule TString);
    ("contentFormat",
     mkRules TString false None None None None None
             (Some ["markdown"; "richtext"]) None) ].

Definition statusOfString (s : string) : option ArticleStatus :=
  if bool_decide (s = "draft") then Some draft
  else if bool_decide (s = "published") then Some published
  else if bool_decide (s = "archived") then Some archived
  else if bool_decide (s = "deleted") then Some deleted
  else None.

Definition contentFormatOfString (s : string) : option ContentFormat :=
  if bool_decide (s = "markdown") then Some markdown
  else if bool_decide (s = "richtext") then Some richtext
  else None.

(** [const input: CreateArticleInput = req.body]: the body read at the
    declared type, which it has once the schema has accepted it. *)
Definition asCreateArticleInput (b : Body.t) : option CreateArticleInput.t :=
  title ← Body.briefTitle b;
  desc ← Body.detailedDescription b;
  cat ← Body.category b;
  st ← match Body.status b with
       | Some s => Some <$> statusOfString s
       | None => Some None
       end;
  fmt ← match Body.contentFormat b with
        | Some s => Some <$> contentFormatOfString s
        | None => Some None
        end;
  Some {| CreateArticleInput.briefTitle := title;
          CreateArticleInput.detailedDescription := desc;
          CreateArticleInput.category := cat;
          CreateArticleInput.tags := Body.tags b;
          CreateArticleInput.relatedArticles := Body.relatedArticles b;
          CreateArticleInput.status := st;
          CreateArticleInput.expirationDate := Body.expirationDate b;
          CreateArticleInput.contentFormat := fmt |}.

Definition create (now : Z) (uuidArticle uuidVersion : string)
    (body : Body.t) (user : User.t) : M Article.t :=
  Validation.validateBody createSchema (Body.toJSON body);;
  match asCreateArticleInput body with
  | Some input => ArticleService.create now uuidArticle uuidVersion input user
  | None => throw (InternalError "body is not a CreateArticleInput")
  end.

End articleController.

(** ** middleware/errorHandler.ts *)

(** What a response says: the status and, for an error, its code. *)
Module HttpResponse.
Record t : Type := mk {
  status : Z;
  errorCode : option string;
}.
End HttpResponse.

(** Every error class of the application is operational, so the code is
    never replaced. *)
Definition errorHandler (err : AppError) : HttpResponse.t :=
  {| HttpResponse.status := statusCode err;
     HttpResponse.errorCode := Some (code err) |}.

(** The response of a chain of middleware and handler: the one the handler
    wrote, or the one [errorHandler] writes for what was thrown. *)
Definition respond (handler : M HttpResponse.t) (s : Store.t)
    : HttpResponse.t * Store.t :=
  match handler s with
  | (Ok response, s') => (response, s')
  | (Err err, s') => (errorHandler err, s')
  end.

(** [try { ... } catch (error) { ... }] *)
Definition tryCatch {A} (body : M A) (handler : AppError → M A) : M A :=
  λ s, match body s with
       | (Ok a, s') => (Ok a, s')
       | (Err e, s') => handler e s'
       end.

(** ** controllers/lockController.ts and routes/lockRoutes.ts *)

Module lockController.

Definition acquire (cfg : Config.t) (now : Z) (id : string) (user : User.t)
    : M HttpResponse.t :=
  Validation.validateUUID "id" (Some id);;
  let* result := LockService.acquireLock cfg now id user in
  if LockAcquisitionResult.success result
  then ret {| HttpResponse.status := 200; HttpResponse.errorCode := None |}
  else ret {| HttpResponse.status := 409;
              HttpResponse.errorCode := Some "LOCK_CONFLICT" |}.

Definition release (now : Z) (id : string) (user : User.t)
    : M HttpResponse.t :=
  Validation.validateUUID "id" (Some id);;
  let* released := LockService.releaseLock now id user in
  if released
  then ret {| HttpResponse.status := 200; HttpResponse.errorCode := None |}
  else ret {| HttpResponse.status := 400;
              HttpResponse.errorCode := Some "LOCK_RELEASE_FAILED" |}.

Definition renew (cfg : Config.t) (now : Z) (id : string) (user : User.t)
    : M HttpResponse.t :=
  Validation.validateUUID "id" (Some id);;
  let* result := LockService.renewLock cfg now id user in
  if LockAcquisitionResult.success result
  then ret {| HttpResponse.status := 200; HttpResponse.errorCode := None |}
  else ret {| HttpResponse.status := 409;
              HttpResponse.errorCode := Some "LOCK_RENEW_FAILED" |}.

End lockController.

(** The requests of [lockRoutes], from [requireRole] to the response. *)
Module lockRoutes.

Definition post (cfg : Config.t) (now : Z) (id : string) (user : User.t)
    : Store.t → HttpResponse.t * Store.t :=
  respond (auth.requireRole (minimumRole lock_acquire) (Some user);;
           lockController.acquire cfg now id user).

Definition put (cfg : Config.t) (now : Z) (id : string) (user : User.t)
    : Store.t → HttpResponse.t * Store.t :=
  respond (auth.requireRole (minimumRole lock_renew) (Some user);;
           lockController.renew cfg now id user).

Definition delete_ (now : Z) (id : string) (user : User.t)
    : Store.t → HttpResponse.t * Store.t :=
  respond (auth.requireRole (minimumRole lock_release) (Some user);;
           lockController.release now id user).

End lockRoutes.

(** ** controllers/categoryController.ts *)

Module categoryController.

Definition createSchema : list (string * Rules) :=
  [ ("name",
     mkRules TString true (Some 1) (Some 50) None None None None None);
    ("description",
     mkRules TString false None (Some 200) None None None None None);
    ("parentId", rule TString) ].

(** [req.body[key]] read as the string the schema has checked it to be. *)
Definition stringField (key : string) (body : list (string * JValue))
    : option string :=
  match Validation.getField key body with
  | Some (JStr v) => Some v
  | _ => None
  end.

Section WithLowerCase.

Variable toLowerCase : string → string.

Definition create (now : Z) (uuid : string) (body : list (string * JValue))
    (user : User.t) : M HttpResponse.t :=
  Validation.validateBody createSchema body;;
  if negb (bool_decide (User.role user = editor)) then
    ret {| HttpResponse.status := 403;
           HttpResponse.errorCode := Some "FORBIDDEN" |}
  else
    tryCatch
      (FileCategoryRepository.create toLowerCase now uuid
         (default "" (stringField "name" body))
         (stringField "description" body) (stringField "parentId" body);;
       ret {| HttpResponse.status := 201; HttpResponse.errorCode := None |})
      (λ error,
         if includesString "already exists" (messageOf error)
         then ret {| HttpResponse.status := 409;
                     HttpResponse.errorCode := Some "CONFLICT" |}
         else throw error).

End WithLowerCase.

Definition delete_ (id : string) (user : User.t) : M HttpResponse.t :=
  Validation.validateUUID "id" (Some id);;
  if negb (bool_decide (User.role user = editor)) then
    ret {| HttpResponse.status := 403;
           HttpResponse.errorCode := Some "FORBIDDEN" |}
  else
    tryCatch
      (FileCategoryRepository.delete_ id;;
       ret {| HttpResponse.status := 200; HttpResponse.errorCode := None |})
      (λ error,
         if includesString "has" (messageOf error)
            && includesString "articles" (messageOf error)
         then ret {| HttpResponse.status := 400;
                     HttpResponse.errorCode := Some "BAD_REQUEST" |}
         else throw error).

End categoryController.

(** * Observations on the store used in the statements *)

(** The count kept for a category name: that of the first record with this
    exact name, as [updateArticleCount] finds it. *)
Definition articleCountOf (s : Store.t) (categoryName : string) : option Z :=
  Category.articleCount
    <$> FileCategoryRepository.findByExactName categoryName
          (Store.categories s).

(** The snapshot stored for [(articleId, version)], as [getVersion] reads
    it. *)
Definition storedVersion (s : Store.t) (articleId : string) (version : Z)
    : option ArticleVersion.t :=
  Store.versions s !! articleId ≫= (.!! version).

(** The directory [versions/{articleId}], empty when it does not exist. *)
Definition versionDir (s : Store.t) (articleId : string)
    : gmap Z ArticleVersion.t :=
  default ∅ (Store.versions s !! articleId).

(** The number of version records stored for an article. *)
Definition versionCount (s : Store.t) (articleId : string) : Z :=
  Z.of_nat (length (FileVersionRepository.versionFiles s articleId)).

Definition errorOf {A} (r : Result A) : option AppError :=
  match r with
  | Err e => Some e
  | Ok _ => None
  end.

(** [wrote s s' i r v]: from [s] to [s'] the article stored under [i] was
    replaced by [r] and the snapshot [v] of [r] was written under [r]'s
    version number; no other article and no other snapshot changed. *)
Definition wrote (s s' : Store.t) (i : string) (r : Article.t)
    (v : ArticleVersion.t) : Prop :=
  Store.articles s' = <[i := r]> (Store.articles s)
  ∧ Store.versions s'
    = <[i := <[Article.version r := v]> (versionDir s i)]> (Store.versions s)
  ∧ ArticleVersion.version v = Article.version r
  ∧ ArticleVersion.status v = Article.status r.

(** [quiet s s']: neither an article nor a snapshot changed. *)
Definition quiet (s s' : Store.t) : Prop :=
  Store.articles s' = Store.articles s
  ∧ Store.versions s' = Store.versions s.

Definition isForbidden {A} (r : Result A) : bool :=
  match r with
  | Err (ForbiddenError _) => true
  | _ => false
  end.

(** What the version protocol sees of the articles: id and version number. *)
Definition versionView (s : Store.t) : gmap string (string * Z) :=
  (λ a, (Article.id a, Article.version a)) <$> Store.articles s.

(** [steady s s']: no version number and no snapshot changed. *)
Definition steady (s s' : Store.t) : Prop :=
  versionView s' = versionView s ∧ Store.versions s' = Store.versions s.

(** ** The service as a state machine *)

(** One call of the service layer, with the clock reading and the
    identifiers drawn by [uuidv4()] during the call. *)
Inductive Request : Type :=
  | ReqCreate (now : Z) (uuidArticle uuidVersion : string)
      (input : CreateArticleInput.t) (user : User.t)
  | ReqUpdate (now : Z) (uuidVersion id : string)
      (input : UpdateArticleInput.t) (user : User.t)
      (changeReason : option string)
  | ReqDelete (now : Z) (uuidVersion id : string) (user : User.t)
  | ReqRestore (now : Z) (uuidVersion id : string) (user : User.t)
  | ReqPublish (now : Z) (uuidVersion id : string) (user : User.t)
  | ReqArchive (now : Z) (uuidVersion id : string) (user : User.t)
  | ReqRestoreVersion (now : Z) (uuidVersion id : string)
      (versionNumber : Z) (user : User.t)
  | ReqPermanentDelete (id : string) (user : User.t)
  | ReqGetById (now : Z) (id : string) (user : User.t)
  | ReqAcquireLock (cfg : Config.t) (now : Z) (id : string) (user : User.t)
  | ReqRenewLock (cfg : Config.t) (now : Z) (id : string) (user : User.t)
  | ReqReleaseLock (now : Z) (id : string) (user : User.t)
  | ReqLockStatus (now : Z) (id : string) (user : User.t)
  | ReqAddComment (trim : string → string) (now : Z) (uuid id : string)
      (content : string) (user : User.t).

Definition isOk {A} (r : Result A) : bool :=
  match r with
  | Ok _ => true
  | Err _ => false
  end.

(** Whether the call returned, and the store it left. *)
Definition finish {A} (r : Result A * Store.t) : bool * Store.t :=
  (isOk r.1, r.2).

Definition handle (req : Request) (s : Store.t) : bool * Store.t :=
  match req with
  | ReqCreate now ua uv input u =>
      finish (ArticleService.create now ua uv input u s)
  | ReqUpdate now uv i input u reason =>
      finish (ArticleService.update now uv i input u reason s)
  | ReqDelete now uv i u => finish (ArticleService.delete_ now uv i u s)
  | ReqRestore now uv i u => finish (ArticleService.restore now uv i u s)
  | ReqPublish now uv i u => finish (ArticleService.publish now uv i u s)
  | ReqArchive now uv i u => finish (ArticleService.archive now uv i u s)
  | ReqRestoreVersion now uv i n u =>
      finish (VersionService.restoreVersion now uv i n u s)
  | ReqPermanentDelete i u => finish (ArticleService.permanentDelete i u s)
  | ReqGetById now i u => finish (ArticleService.getById now i u s)
  | ReqAcquireLock cfg now i u =>
      finish (LockService.acquireLock cfg now i u s)
  | ReqRenewLock cfg now i u => finish (LockService.renewLock cfg now i u s)
  | ReqReleaseLock now i u => finish (LockService.releaseLock now i u s)
  | ReqLockStatus now i u => finish (LockService.getLockStatus now i u s)
  | ReqAddComment trim now uuid i content u =>
      finish (CommentService.create trim now uuid i content u s)
  end.

(** [uuidv4()] gives an id that no stored article has. *)
Definition freshIds (req : Request) (s : Store.t) : Prop :=
  match req with
  | ReqCreate _ uuidArticle _ _ _ => Store.articles s !! uuidArticle = None
  | _ => True
  end.

(** The stores the service can reach from one without articles and
    snapshots (any categories, locks and comments). *)
Inductive Reachable : Store.t → Prop :=
  | reach_init (s : Store.t) :
      Store.articles s = ∅ → Store.versions s = ∅ → Reachable s
  | reach_step (s : Store.t) (req : Request) :
      Reachable s → freshIds req s → Reachable (handle req s).2.

(** What a call does to the version protocol. *)
Inductive Effect : Type :=
  | Steady
  | Created (id : string)
  | Bumped (id : string)
  | Erased (id : string).

Definition effectOf (req : Request) (ok : bool) : Effect :=
  if ok then
    match req with
    | ReqCreate _ uuidArticle _ _ _ => Created uuidArticle
    | ReqUpdate _ _ i _ _ _ | ReqDelete _ _ i _ | ReqRestore _ _ i _
    | ReqPublish _ _ i _ | ReqArchive _ _ i _
    | ReqRestoreVersion _ _ i _ _ => Bumped i
    | ReqPermanentDelete i _ => Erased i
    | _ => Steady
    end
  else Steady.


(** The invariant behind [version = number of snapshots]: the article is
    stored under its id, its directory holds [version] snapshots, none
    numbered above [version]; an id without article has no directory. *)
Definition inStep (s : Store.t) : Prop :=
  ∀ i,
    match Store.articles s !! i with
    | Some a =>
        Article.id a = i
        ∧ Z.of_nat (size (versionDir s i)) = Article.version a
        ∧ ∀ k, is_Some (versionDir s i !! k) → k ≤ Article.version a
    | None => Store.versions s !! i = None
    end.

Definition explains (e : Effect) (s s' : Store.t) : Prop :=
  match e with
  | Steady => steady s s'
  | Created i =>
      Store.articles s !! i = None
      ∧ ∃ r v, wrote s s' i r v ∧ Article.id r = i ∧ Article.version r = 1
  | Bumped i =>
      ∃ a r v,
        Store.articles s !! i = Some a
        ∧ wrote s s' i r v
        ∧ Article.id r = i
        ∧ Article.version r = Article.version a + 1
  | Erased i =>
      Store.articles s' = delete i (Store.articles s)
      ∧ Store.versions s' = delete i (Store.versions s)
  end.

(** ** Route guards and service permissions *)

(** The role-wide permission the service behind a guarded route asks for
    first: for the calls that distinguish own and foreign records, the
    [own] variant. *)
Definition servicePermission (route : GuardedRoute) : Permission :=
  match route with
  | articles_create => article_create
  | articles_update => article_edit_own
  | articles_delete => article_delete_own
  | articles_permanentDelete => article_delete_all
  | articles_restore => article_restore_own
  | articles_publish => article_publish_own
  | articles_archive => article_archive
  | versions_restore => article_version_restore_own
  | comments_create => comment_create
  | comments_update => comment_edit_own
  | comments_delete => comment_delete_own
  | lock_acquire | lock_renew | lock_release => article_edit_own
  end.

(** ** The cleanup job of the lock store *)

(** What is left of a lock file after the cleanup at [now]. *)
Definition kept (now : Z) (o : option ArticleLock.t) : option ArticleLock.t :=
  match o with
  | Some l => if FileLockRepository.isExpired now l then None else Some l
  | None => None
  end.

(** ** What an update does to the category counts *)

(** The two count adjustments at the end of [ArticleService.update], for an
    article that was in category [oldCategory]. *)
Definition movedCounts (oldCategory : string) (input : UpdateArticleInput.t)
    (s : Store.t) : Store.t :=
  match UpdateArticleInput.category input with
  | Some newCat =>
      if ArticleService.truthy newCat
         && negb (bool_decide (newCat = oldCategory))
      then (FileCategoryRepository.updateArticleCount newCat 1
              (FileCategoryRepository.updateArticleCount oldCategory (-1)
                 s).2).2
      else s
  | None => s
  end.

(** The user whose lock [ArticleService.delete] and
    [LockService.releaseLock] ask the lock store to release:
    [lockedBy || user.id]. *)
Definition orUser (lockedBy : option string) (u : User.t) : string :=
  match lockedBy with
  | Some l => if ArticleService.truthy l then l else User.id u
  | None => User.id u
  end.

(** ** Order of a listing *)

(** [inOrder cmp a b]: the comparator lets [a] stand before [b]. *)
Definition inOrder {A} (cmp : A → A → Z) (a b : A) : Prop := cmp a b ≤ 0.

(** Newest first: the order of [getVersions]. *)
Definition newestFirst (a b : ArticleVersion.t) : Prop :=
  ArticleVersion.version b ≤ ArticleVersion.version a.


(** ** Comparing snapshots *)




(** ** Reading one article *)

(** The summary of an article after one more view. *)
Definition viewedOnce (x : ArticleSummary.t) : ArticleSummary.t :=
  {| ArticleSummary.id := ArticleSummary.id x;
     ArticleSummary.briefTitle := ArticleSummary.briefTitle x;
     ArticleSummary.category := ArticleSummary.category x;
     ArticleSummary.tags := ArticleSummary.tags x;
     ArticleSummary.status := ArticleSummary.status x;
     ArticleSummary.authorId := ArticleSummary.authorId x;
     ArticleSummary.authorName := ArticleSummary.authorName x;
     ArticleSummary.createdAt := ArticleSummary.createdAt x;
     ArticleSummary.updatedAt := ArticleSummary.updatedAt x;
     ArticleSummary.publishedAt := ArticleSummary.publishedAt x;
     ArticleSummary.viewCount := ArticleSummary.viewCount x + 1;
     ArticleSummary.isLocked := ArticleSummary.isLocked x;
     ArticleSummary.lockedByName := ArticleSummary.lockedByName x |}.

(** ** Comment files *)

(** Every comment file gives back the id of its article from its name and
    holds comments of that article only. *)
Definition commentsFiled (s : Store.t) : Prop :=
  ∀ k cs, Store.comments s !! k = Some cs →
    removeFirst ".json" (FileCommentRepository.getFilePath k) = k
    ∧ ∀ c, c ∈ cs → Comment.articleId c = k.

(** The first comment with the given id in the files of the articles
    [ks], read in this order. *)
Definition firstWithId (id : string) (s : Store.t) (ks : list string)
    : option Comment.t :=
  List.find (λ c, bool_decide (Comment.id c = id))
    (ks ≫= λ k, default [] (Store.comments s !! k)).

(** Oldest first: the order of [findByArticle]. *)
Definition oldestFirst (a b : Comment.t) : Prop :=
  Comment.createdAt a ≤ Comment.createdAt b.

(** ** Categories *)

(** No two categories share an id, and no two share a name up to case. *)
Definition uniqueCategories (toLowerCase : string → string)
    (categories : list Category.t) : Prop :=
  NoDup (Category.id <$> categories)
  ∧ NoDup ((λ c, toLowerCase (Category.name c)) <$> categories).

(** * Sample principals, records and stores used by the closed lemmas *)

Module Sample.

Definition mockUser (id name : string) (r : UserRole) : User.t :=
  {| User.id := id; User.email := id +:+ "@example.com";
     User.displayName := name; User.role := r;
     User.createdAt := "2024-01-01T00:00:00.000Z" |}.

(** The four [MOCK_USERS] of [middleware/auth.ts], and a second author. *)
Definition readerUser : User.t := mockUser "reader-001" "Reader User" reader.
Definition actorUser : User.t := mockUser "actor-001" "Actor User" actor.
Definition authorUser : User.t := mockUser "author-001" "Author User" author.
Definition editorUser : User.t := mockUser "editor-001" "Editor User" editor.
Definition otherAuthor : User.t := mockUser "author-002" "Other Author" author.

Definition lockOf (articleId : string) (u : User.t) (at_ expires : Z)
    : ArticleLock.t :=
  {| ArticleLock.articleId := articleId;
     ArticleLock.lockedBy := User.id u;
     ArticleLock.lockedByName := User.displayName u;
     ArticleLock.lockedAt := at_;
     ArticleLock.expiresAt := expires |}.

Definition lockedStore (l : ArticleLock.t) : Store.t :=
  Store.setLocks (insert (ArticleLock.articleId l) l) Store.empty.

Definition category (name : string) (count : Z) : Category.t :=
  {| Category.id := "cat-" +:+ name; Category.name := name;
     Category.description := None; Category.parentId := None;
     Category.order := 1; Category.articleCount := count;
     Category.createdAt := 0; Category.updatedAt := None |}.

Definition article (id : string) (owner : User.t) (st : ArticleStatus)
    (cat : string) (ver : Z) : Article.t :=
  {| Article.id := id;
     Article.briefTitle := "VPN setup";
     Article.detailedDescription := "How to set up the VPN client";
     Article.category := cat;
     Article.tags := ["vpn"];
     Article.relatedArticles := [];
     Article.status := st;
     Article.authorId := User.id owner;
     Article.authorName := User.displayName owner;
     Article.createdAt := 0;
     Article.updatedAt := 0;
     Article.publishedAt := None;
     Article.expirationDate := None;
     Article.version := ver;
     Article.lockedBy := None;
     Article.lockedByName := None;
     Article.lockedAt := None;
     Article.metadata :=
       {| ArticleMetadata.viewCount := 0;
          ArticleMetadata.contentFormat := richtext;
          ArticleMetadata.lastViewedAt := None;
          ArticleMetadata.lastViewedBy := None |} |}.

(** A store holding one article at version 1 with its first snapshot, in a
    category that counts [count] articles. *)
Definition storeWith (a : Article.t) (count : Z) : Store.t :=
  {| Store.articles := {[ Article.id a := a ]};
     Store.versions :=
       {[ Article.id a :=
            {[ 1 := createVersionFromArticle "v1" a (Article.authorId a)
                      (Article.authorName a) (Some "Initial creation") 0 ]} ]};
     Store.locks := ∅;
     Store.categories := [category "Security" count; category "Network" 0];
     Store.comments := ∅ |}.

Definition draftArticle : Article.t :=
  article "a1" authorUser draft "Security" 1.
Definition publishedArticle : Article.t :=
  article "a1" authorUser published "Security" 1.
Definition deletedArticle : Article.t :=
  article "a1" authorUser deleted "Security" 1.

(** Only the two seeded categories, both empty. *)
Definition seeded : Store.t :=
  Store.setCategories (λ _, [category "Security" 0; category "Network" 0])
    Store.empty.

Definition vpnInput (st : option ArticleStatus) : CreateArticleInput.t :=
  {| CreateArticleInput.briefTitle := "VPN setup";
     CreateArticleInput.detailedDescription := "How to set up the VPN client";
     CreateArticleInput.category := "Security";
     CreateArticleInput.tags := Some ["vpn"];
     CreateArticleInput.relatedArticles := None;
     CreateArticleInput.status := st;
     CreateArticleInput.expirationDate := None;
     CreateArticleInput.contentFormat := None |}.

(** An article created in "Security", moved to "Network" by an update, and
    brought back to "Security" by restoring version 1: [restoreVersion]
    adjusts no count, so "Security" counts 0 while holding the article. *)
Definition afterCreate : Store.t :=
  (ArticleService.create 100 "a1" "v1" (vpnInput None) authorUser seeded).2.
Definition afterMove : Store.t :=
  (ArticleService.update 200 "v2" "a1"
     (UpdateArticleInput.mk None None (Some "Network") None None None None)
     authorUser None afterCreate).2.
Definition afterRestoreVersion : Store.t :=
  (VersionService.restoreVersion 300 "v3" "a1" 1 authorUser afterMove).2.

Definition vpnBody (st : option string) : articleController.Body.t :=
  {| articleController.Body.briefTitle := Some "VPN setup";
     articleController.Body.detailedDescription :=
       Some "How to set up the VPN client";
     articleController.Body.category := Some "Security";
     articleController.Body.tags := Some ["vpn"];
     articleController.Body.relatedArticles := None;
     articleController.Body.status := st;
     articleController.Body.expirationDate := None;
     articleController.Body.contentFormat := Some "markdown" |}.

(** The author's draft, locked by the author until time 1000. *)
Definition lockedDraft : Store.t :=
  Store.setLocks (insert "a1" (lockOf "a1" authorUser 0 1000))
    (storeWith draftArticle 1).

Definition comment (id articleId : string) (owner : User.t) (text : string)
    (at_ : Z) : Comment.t :=
  {| Comment.id := id; Comment.articleId := articleId;
     Comment.authorId := User.id owner;
     Comment.authorName := User.displayName owner;
     Comment.content := text; Comment.createdAt := at_;
     Comment.updatedAt := None; Comment.isEdited := false |}.

(** The published article with two comments, the later one stored first. *)
Definition commented : Store.t :=
  Store.setComments
    (insert "a1" [ comment "c2" "a1" authorUser "Second" 20;
                   comment "c1" "a1" actorUser "First" 10 ])
    (storeWith publishedArticle 1).

End Sample.

(** * Proof support *)

Ltac unfold_monad :=
  unfold bind, ret, throw, gets, modify, throwIf in *.

Lemma bool_decide_string_refl (x : string) : bool_decide (x = x) = true.
Proof. by apply bool_decide_eq_true. Qed.

(** * Lock store *)

Section AcquireLock.

Variables (cfg : Config.t) (now : Z) (articleId userId userName : string).
Variable s : Store.t.

Let fresh : ArticleLock.t :=
  FileLockRepository.createLock cfg now articleId userId userName.

Let attempt : Result LockAcquisitionResult.t * Store.t :=
  FileLockRepository.acquireLock cfg now articleId userId userName s.

Lemma acquireLock_free :
  Store.locks s !! articleId = None →
  attempt =
    (Ok {| LockAcquisitionResult.success := true;
           LockAcquisitionResult.lock := Some fresh;
           LockAcquisitionResult.message := "Lock acquired successfully" |},
     Store.setLocks (insert articleId fresh) s).
Proof.
  intros Hnone. subst attempt fresh.
  unfold FileLockRepository.acquireLock, FileLockRepository.loadLock,
    FileLockRepository.saveLock.
  unfold_monad. by rewrite Hnone.
Qed.

Lemma acquireLock_expired (l : ArticleLock.t) :
  Store.locks s !! articleId = Some l →
  ArticleLock.expiresAt l < now →
  attempt =
    (Ok {| LockAcquisitionResult.success := true;
           LockAcquisitionResult.lock := Some fresh;
           LockAcquisitionResult.message := "Lock acquired successfully" |},
     Store.setLocks (insert articleId fresh) s).
Proof.
  intros Hl Hexp. subst attempt fresh.
  unfold FileLockRepository.acquireLock, FileLockRepository.loadLock,
    FileLockRepository.saveLock, FileLockRepository.isExpired.
  unfold_monad. rewrite Hl.
  by rewrite (proj2 (Z.ltb_lt _ _) Hexp).
Qed.

Lemma acquireLock_owner (l : ArticleLock.t) :
  Store.locks s !! articleId = Some l →
  now ≤ ArticleLock.expiresAt l →
  ArticleLock.lockedBy l = userId →
  attempt =
    (Ok {| LockAcquisitionResult.success := true;
           LockAcquisitionResult.lock := Some fresh;
           LockAcquisitionResult.message := "Lock renewed successfully" |},
     Store.setLocks (insert articleId fresh) s).
Proof.
  intros Hl Hlive Hown. subst attempt fresh.
  unfold FileLockRepository.acquireLock, FileLockRepository.loadLock,
    FileLockRepository.saveLock, FileLockRepository.isExpired.
  unfold_monad. rewrite Hl.
  rewrite (proj2 (Z.ltb_ge _ _) Hlive). simpl.
  by rewrite bool_decide_eq_true_2.
Qed.

Lemma acquireLock_foreign (l : ArticleLock.t) :
  Store.locks s !! articleId = Some l →
  now ≤ ArticleLock.expiresAt l →
  ArticleLock.lockedBy l ≠ userId →
  attempt =
    (Ok {| LockAcquisitionResult.success := false;
           LockAcquisitionResult.lock := Some l;
           LockAcquisitionResult.message :=
             "Article is currently being edited by "
             +:+ ArticleLock.lockedByName l |},
     s).
Proof.
  intros Hl Hlive Hne. subst attempt fresh.
  unfold FileLockRepository.acquireLock, FileLockRepository.loadLock,
    FileLockRepository.saveLock, FileLockRepository.isExpired.
  unfold_monad. rewrite Hl.
  rewrite (proj2 (Z.ltb_ge _ _) Hlive). simpl.
  by rewrite bool_decide_eq_false_2.
Qed.

End AcquireLock.

(** C3. [FileLockRepository.acquireLock], for every article id and
    principal: when no lock record exists or the stored one has expired, a
    lock owned by the principal with expiry [now + timeoutMs] is stored and
    success returned; when a live lock of the same principal exists, success
    is returned and the lock is stored again with the new expiry; when a live
    lock of another principal exists, failure is returned with the holder's
    lock and display name, and the store is left as it was. *)
Theorem acquireLock_behaviour (cfg : Config.t) (now : Z)
    (articleId userId userName : string) (s : Store.t) :
  let attempt :=
    FileLockRepository.acquireLock cfg now articleId userId userName s in
  (* no lock, or an expired one *)
  ((Store.locks s !! articleId = None
    ∨ ∃ l, Store.locks s !! articleId = Some l ∧ ArticleLock.expiresAt l < now) →
   ∃ lock res,
     attempt.1 = Ok res
     ∧ LockAcquisitionResult.success res = true
     ∧ LockAcquisitionResult.lock res = Some lock
     ∧ ArticleLock.lockedBy lock = userId
     ∧ ArticleLock.lockedByName lock = userName
     ∧ ArticleLock.expiresAt lock = now + Config.timeoutMs cfg
     ∧ Store.locks attempt.2 !! articleId = Some lock)
  (* a live lock of the same principal *)
  ∧ (∀ l, Store.locks s !! articleId = Some l →
          now ≤ ArticleLock.expiresAt l →
          ArticleLock.lockedBy l = userId →
     ∃ lock res,
       attempt.1 = Ok res
       ∧ LockAcquisitionResult.success res = true
       ∧ LockAcquisitionResult.lock res = Some lock
       ∧ ArticleLock.lockedBy lock = userId
       ∧ ArticleLock.expiresAt lock = now + Config.timeoutMs cfg
       ∧ Store.locks attempt.2 !! articleId = Some lock)
  (* a live lock of another principal *)
  ∧ (∀ l, Store.locks s !! articleId = Some l →
          now ≤ ArticleLock.expiresAt l →
          ArticleLock.lockedBy l ≠ userId →
     ∃ res,
       attempt.1 = Ok res
       ∧ LockAcquisitionResult.success res = false
       ∧ LockAcquisitionResult.lock res = Some l
       ∧ LockAcquisitionResult.message res =
           "Article is currently being edited by "
           +:+ ArticleLock.lockedByName l
       ∧ attempt.2 = s).
Proof.
  intros attempt. subst attempt. repeat split.
  - intros [Hnone | (l & Hl & Hexp)];
      [ rewrite (acquireLock_free _ _ _ _ _ _ Hnone)
      | rewrite (acquireLock_expired _ _ _ _ _ _ _ Hl Hexp) ];
      eexists _, _; simpl; repeat split; by rewrite ?lookup_insert_eq.
  - intros l Hl Hlive Hown.
    rewrite (acquireLock_owner _ _ _ _ _ _ _ Hl Hlive Hown).
    eexists _, _; simpl; repeat split; by rewrite ?lookup_insert_eq.
  - intros l Hl Hlive Hne.
    rewrite (acquireLock_foreign _ _ _ _ _ _ _ Hl Hlive Hne).
    eexists; simpl; repeat split.
Qed.

(** The three cases of [acquireLock_behaviour] on the lock of
    [Sample.authorUser] that expires at 1000: another author is refused at
    time 500 and served at time 2000, the owner is renewed at time 500. *)
Lemma acquireLock_behaviour_witness :
  let s := Sample.lockedStore (Sample.lockOf "a1" Sample.authorUser 0 1000) in
  (∃ res,
     (FileLockRepository.acquireLock Config.default 500 "a1"
        "author-002" "Other Author" s).1 = Ok res
     ∧ LockAcquisitionResult.success res = false
     ∧ LockAcquisitionResult.message res =
         "Article is currently being edited by Author User")
  ∧ (∃ lock,
       Store.locks
         (FileLockRepository.acquireLock Config.default 2000 "a1"
            "author-002" "Other Author" s).2 !! "a1" = Some lock
       ∧ ArticleLock.lockedBy lock = "author-002"
       ∧ ArticleLock.expiresAt lock = 1802000)
  ∧ (∃ lock,
       Store.locks
         (FileLockRepository.acquireLock Config.default 500 "a1"
            "author-001" "Author User" s).2 !! "a1" = Some lock
       ∧ ArticleLock.expiresAt lock = 1800500).
Proof.
  intros s.
  pose (held := Sample.lockOf "a1" Sample.authorUser 0 1000).
  assert (Hl : Store.locks s !! "a1" = Some held) by (by vm_compute).
  assert (Hlive : 500 ≤ ArticleLock.expiresAt held) by (by vm_compute).
  assert (Hdead : ArticleLock.expiresAt held < 2000) by (by vm_compute).
  assert (Hother : ArticleLock.lockedBy held ≠ "author-002")
    by (by vm_compute).
  assert (Hown : ArticleLock.lockedBy held = "author-001")
    by (by vm_compute).
  split; [| split].
  - destruct (acquireLock_behaviour Config.default 500 "a1"
                "author-002" "Other Author" s) as (_ & _ & H).
    destruct (H held Hl Hlive Hother) as (res & ? & ? & ? & ? & ?).
    exists res. by repeat split.
  - destruct (acquireLock_behaviour Config.default 2000 "a1"
                "author-002" "Other Author" s) as (H & _ & _).
    destruct H as (lock & res & ? & ? & ? & ? & ? & ? & ?);
      [right; by exists held |].
    exists lock. by repeat split.
  - destruct (acquireLock_behaviour Config.default 500 "a1"
                "author-001" "Author User" s) as (_ & H & _).
    destruct (H held Hl Hlive Hown) as (lock & res & ? & ? & ? & ? & ? & ?).
    exists lock. by repeat split.
Defined.

(** With a timeout that is not negative, a lock taken on a free article
    turns away another principal who asks at the same instant, naming the
    first one. *)
Corollary acquireLock_then_other (cfg : Config.t) (now : Z)
    (articleId first firstName other otherName : string) (s : Store.t) :
  0 ≤ Config.timeoutMs cfg →
  Store.locks s !! articleId = None →
  other ≠ first →
  ∃ res,
    (FileLockRepository.acquireLock cfg now articleId other otherName
       (FileLockRepository.acquireLock cfg now articleId first firstName s).2).1
    = Ok res
    ∧ LockAcquisitionResult.success res = false
    ∧ LockAcquisitionResult.message res
      = "Article is currently being edited by " +:+ firstName.
Proof.
  intros Htimeout Hfree Hother.
  rewrite (acquireLock_free cfg now articleId first firstName s Hfree).
  cbn [snd].
  rewrite (acquireLock_foreign cfg now articleId other otherName _
             (FileLockRepository.createLock cfg now articleId first firstName)).
  - eexists. by repeat split.
  - simpl. by rewrite lookup_insert_eq.
  - simpl. lia.
  - simpl. congruence.
Qed.

(** * Category counts *)

Section MutateFirst.

Variable categoryName : string.
Variable f : Category.t → Category.t.
Hypothesis f_name : ∀ c, Category.name (f c) = Category.name c.

Let named (n : string) : Category.t → bool :=
  λ c, bool_decide (Category.name c = n).

Lemma find_mutateFirst_same (cats : list Category.t) :
  FileCategoryRepository.findByExactName categoryName
    (FileCategoryRepository.mutateFirst (named categoryName) f cats)
  = f <$> FileCategoryRepository.findByExactName categoryName cats.
Proof.
  unfold FileCategoryRepository.findByExactName, named.
  induction cats as [| c rest IH]; [done |]. simpl.
  destruct (bool_decide (Category.name c = categoryName)) eqn:Hc; simpl.
  - rewrite f_name, Hc. done.
  - rewrite Hc. exact IH.
Qed.

Lemma find_mutateFirst_other (other : string) (cats : list Category.t) :
  other ≠ categoryName →
  FileCategoryRepository.findByExactName other
    (FileCategoryRepository.mutateFirst (named categoryName) f cats)
  = FileCategoryRepository.findByExactName other cats.
Proof.
  intros Hne. unfold FileCategoryRepository.findByExactName, named.
  induction cats as [| c rest IH]; [done |]. simpl.
  destruct (bool_decide (Category.name c = categoryName)) eqn:Hc; simpl.
  - apply bool_decide_eq_true in Hc.
    rewrite f_name.
    rewrite !bool_decide_eq_false_2 by congruence. done.
  - destruct (bool_decide (Category.name c = other)); [done | exact IH].
Qed.

Lemma length_mutateFirst (p : Category.t → bool) (cats : list Category.t) :
  length (FileCategoryRepository.mutateFirst p f cats) = length cats.
Proof.
  induction cats as [| c rest IH]; [done |]. simpl.
  destruct (p c); simpl; by rewrite ?IH.
Qed.

End MutateFirst.

Lemma updateArticleCount_run (categoryName : string) (delta : Z) (s : Store.t) :
  FileCategoryRepository.updateArticleCount categoryName delta s
  = (Ok tt,
     match FileCategoryRepository.findByExactName categoryName
             (Store.categories s) with
     | Some _ =>
         Store.setCategories
           (FileCategoryRepository.mutateFirst
              (λ c, bool_decide (Category.name c = categoryName))
              (λ c, FileCategoryRepository.withArticleCount
                      (Z.max 0 (Category.articleCount c + delta)) c))
           s
     | None => s
     end).
Proof.
  unfold FileCategoryRepository.updateArticleCount. unfold_monad.
  by destruct (FileCategoryRepository.findByExactName _ _).
Qed.

Lemma updateArticleCount_count (categoryName : string) (delta : Z)
    (s : Store.t) :
  articleCountOf
    (FileCategoryRepository.updateArticleCount categoryName delta s).2
    categoryName
  = (λ n, Z.max 0 (n + delta)) <$> articleCountOf s categoryName.
Proof.
  rewrite updateArticleCount_run. unfold articleCountOf. simpl.
  destruct (FileCategoryRepository.findByExactName categoryName
              (Store.categories s)) as [c |] eqn:Hc; simpl.
  - rewrite find_mutateFirst_same by done. rewrite Hc. done.
  - by rewrite Hc.
Qed.

Lemma updateArticleCount_other (categoryName other : string) (delta : Z)
    (s : Store.t) :
  other ≠ categoryName →
  articleCountOf
    (FileCategoryRepository.updateArticleCount categoryName delta s).2 other
  = articleCountOf s other.
Proof.
  intros Hne. rewrite updateArticleCount_run. unfold articleCountOf. simpl.
  destruct (FileCategoryRepository.findByExactName categoryName
              (Store.categories s)); simpl; [| done].
  by rewrite find_mutateFirst_other.
Qed.

(** C9. [updateArticleCount] never fails and never stores a negative count:
    the count of the named category becomes [max 0 (current + delta)], so a
    decrement of a zero count leaves zero; every other category, and the
    number of categories, is kept; with no category of that name the store
    is left as it was. *)
Theorem updateArticleCount_clamps (categoryName : string) (delta : Z)
    (s : Store.t) :
  let run := FileCategoryRepository.updateArticleCount categoryName delta s in
  run.1 = Ok tt
  ∧ articleCountOf run.2 categoryName
    = (λ n, Z.max 0 (n + delta)) <$> articleCountOf s categoryName
  ∧ (∀ n, articleCountOf run.2 categoryName = Some n → 0 ≤ n)
  ∧ (articleCountOf s categoryName = Some 0 → delta ≤ 0 →
     articleCountOf run.2 categoryName = Some 0)
  ∧ (∀ other, other ≠ categoryName →
       articleCountOf run.2 other = articleCountOf s other)
  ∧ length (Store.categories run.2) = length (Store.categories s)
  ∧ (articleCountOf s categoryName = None → run.2 = s).
Proof.
  intros run. subst run.
  pose proof (updateArticleCount_count categoryName delta s) as Hcount.
  split; [by rewrite updateArticleCount_run |].
  split; [exact Hcount |].
  split.
  { intros n. rewrite Hcount.
    destruct (articleCountOf s categoryName); simpl; [| done].
    intros [= <-]. lia. }
  split.
  { intros H0 Hle. rewrite Hcount, H0. simpl. f_equal. lia. }
  split; [intros other; apply updateArticleCount_other |].
  split.
  { rewrite updateArticleCount_run.
    destruct (FileCategoryRepository.findByExactName _ _); [| done].
    simpl. apply length_mutateFirst. }
  unfold articleCountOf. rewrite updateArticleCount_run.
  by destruct (FileCategoryRepository.findByExactName _ _).
Qed.

(** [updateArticleCount_clamps] on the seeded categories: a decrement of the
    empty "Security" leaves 0, and an unknown name changes nothing. *)
Lemma updateArticleCount_clamps_witness :
  articleCountOf
    (FileCategoryRepository.updateArticleCount "Security" (-1)
       Sample.seeded).2 "Security" = Some 0
  ∧ (FileCategoryRepository.updateArticleCount "Printing" (-1)
       Sample.seeded).2 = Sample.seeded.
Proof.
  split.
  - destruct (updateArticleCount_clamps "Security" (-1) Sample.seeded)
      as (_ & _ & _ & H & _).
    apply H; [reflexivity | lia].
  - destruct (updateArticleCount_clamps "Printing" (-1) Sample.seeded)
      as (_ & _ & _ & _ & _ & _ & H).
    apply H. reflexivity.
Defined.

(** * One-call equations for the repositories *)

Lemma bind_Ok {A B} (m : M A) (k : A → M B) (s s' : Store.t) (a : A) :
  m s = (Ok a, s') → bind m k s = k a s'.
Proof. intros H. unfold bind. by rewrite H. Qed.

Lemma bind_Err {A B} (m : M A) (k : A → M B) (s s' : Store.t) (e : AppError) :
  m s = (Err e, s') → bind m k s = (Err e, s').
Proof. intros H. unfold bind. by rewrite H. Qed.

Lemma throwIf_false (e : AppError) (s : Store.t) :
  throwIf false e s = (Ok tt, s).
Proof. done. Qed.

Lemma throwIf_true (e : AppError) (s : Store.t) :
  throwIf true e s = (Err e, s).
Proof. done. Qed.

Lemma setLocks_same (s : Store.t) : Store.setLocks (λ _, Store.locks s) s = s.
Proof. by destruct s. Qed.

Lemma findById_run (i : string) (s : Store.t) :
  FileArticleRepository.findById i s = (Ok (Store.articles s !! i), s).
Proof. done. Qed.

Lemma repo_update_run (now : Z) (i : string) (input : UpdateArticleInput.t)
    (s : Store.t) (a : Article.t) :
  Store.articles s !! i = Some a →
  FileArticleRepository.update now i input s
  = (Ok (FileArticleRepository.applyUpdate now a input),
     Store.setArticles
       (insert (Article.id a) (FileArticleRepository.applyUpdate now a input))
       s).
Proof.
  intros Ha. unfold FileArticleRepository.update,
    FileArticleRepository.findById, FileArticleRepository.saveToFile.
  unfold_monad. by rewrite Ha.
Qed.

Lemma softDelete_run (now : Z) (i : string) (s : Store.t) (a : Article.t) :
  Store.articles s !! i = Some a →
  let d :=
    FileArticleRepository.applyUpdate now a
      (UpdateArticleInput.ofStatus deleted) in
  FileArticleRepository.softDelete now i s
  = (Ok d, Store.setArticles (insert (Article.id a) d) s).
Proof.
  intros Ha d. unfold FileArticleRepository.softDelete.
  rewrite (bind_Ok _ _ _ _ _ (findById_run i s)), Ha.
  by apply repo_update_run.
Qed.

Lemma repo_restore_run (now : Z) (i : string) (s : Store.t) (a : Article.t) :
  Store.articles s !! i = Some a →
  Article.status a = deleted →
  let r :=
    FileArticleRepository.applyUpdate now a
      (UpdateArticleInput.ofStatus draft) in
  FileArticleRepository.restore now i s
  = (Ok r, Store.setArticles (insert (Article.id a) r) s).
Proof.
  intros Ha Hst r. unfold FileArticleRepository.restore.
  rewrite (bind_Ok _ _ _ _ _ (findById_run i s)), Ha, Hst.
  rewrite (bind_Ok _ _ _ _ _ (throwIf_false _ _)).
  by apply repo_update_run.
Qed.

Lemma createVersion_run (now : Z) (vid : string) (art : Article.t)
    (by_ name : string) (reason : option string) (s : Store.t) :
  let v := createVersionFromArticle vid art by_ name reason now in
  FileVersionRepository.createVersion now vid art by_ name reason s
  = (Ok v,
     Store.setVersions (λ vs,
       <[Article.id art :=
           <[Article.version art := v]> (default ∅ (vs !! Article.id art))]>
         vs) s).
Proof. done. Qed.

Lemma releaseLock_run (i who : string) (s : Store.t) :
  ∃ (b : bool) (L : gmap string ArticleLock.t),
    FileLockRepository.releaseLock i who s
    = (Ok b, Store.setLocks (λ _, L) s).
Proof.
  unfold FileLockRepository.releaseLock, FileLockRepository.loadLock,
    FileLockRepository.deleteLock. unfold_monad.
  destruct (Store.locks s !! i) as [l |].
  - destruct (bool_decide (ArticleLock.lockedBy l = who)); simpl.
    + by exists true, (delete i (Store.locks s)).
    + exists false, (Store.locks s). by rewrite setLocks_same.
  - exists true, (Store.locks s). by rewrite setLocks_same.
Qed.

Lemma getLockStatus_run (now : Z) (i who : string) (s : Store.t) :
  ∃ (r : LockStatusResponse.t) (L : gmap string ArticleLock.t),
    FileLockRepository.getLockStatus now i who s
    = (Ok r, Store.setLocks (λ _, L) s).
Proof.
  unfold FileLockRepository.getLockStatus, FileLockRepository.loadLock,
    FileLockRepository.deleteLock. unfold_monad.
  destruct (Store.locks s !! i) as [l |].
  - destruct (FileLockRepository.isExpired now l).
    + by eexists _, (delete i (Store.locks s)).
    + eexists _, (Store.locks s). by rewrite setLocks_same.
  - eexists _, (Store.locks s). by rewrite setLocks_same.
Qed.

Lemma canOwnOrAll_applyUpdate (u : User.t) (now : Z) (a : Article.t)
    (input : UpdateArticleInput.t) (own all : Permission) :
  ArticleService.canOwnOrAll u
    (FileArticleRepository.applyUpdate now a input) own all
  = ArticleService.canOwnOrAll u a own all.
Proof. done. Qed.

Section DeleteRestore.

Variables (s : Store.t) (i : string) (a : Article.t).
Hypothesis Hfound : Store.articles s !! i = Some a.
Hypothesis Hkey : Article.id a = i.

Lemma delete_run (now : Z) (vid : string) (u : User.t) :
  ArticleService.canOwnOrAll u a article_delete_own article_delete_all = true →
  let d :=
    FileArticleRepository.applyUpdate now a
      (UpdateArticleInput.ofStatus deleted) in
  ∃ (L : gmap string ArticleLock.t),
    ArticleService.delete_ now vid i u s
    = (Ok d,
       (FileVersionRepository.createVersion now vid d
          (User.id u) (User.displayName u) (Some "Moved to trash")
          (FileCategoryRepository.updateArticleCount (Article.category a) (-1)
             (Store.setArticles (insert i d)
                (Store.setLocks (λ _, L) s))).2).2).
Proof.
  intros Hperm d.
  destruct (releaseLock_run i
              (match Article.lockedBy a with
               | Some l => if ArticleService.truthy l then l else User.id u
               | None => User.id u
               end) s) as (b & L & Hrel).
  exists L. unfold ArticleService.delete_.
  rewrite (bind_Ok _ _ _ _ _ (findById_run i s)), Hfound.
  rewrite Hperm. simpl negb.
  rewrite (bind_Ok _ _ _ _ _ (throwIf_false _ _)).
  rewrite (bind_Ok _ _ _ _ _ Hrel).
  rewrite (bind_Ok _ _ _ _ _
             (softDelete_run now i (Store.setLocks (λ _, L) s) a Hfound)).
  rewrite Hkey. fold d.
  rewrite (bind_Ok _ _ _ _ _ (updateArticleCount_run _ _ _)).
  rewrite (bind_Ok _ _ _ _ _ (createVersion_run _ _ _ _ _ _ _)).
  by rewrite updateArticleCount_run.
Qed.

Lemma restore_run (now : Z) (vid : string) (u : User.t) :
  Article.status a = deleted →
  ArticleService.canOwnOrAll u a article_restore_own article_restore_all
  = true →
  let r :=
    FileArticleRepository.applyUpdate now a
      (UpdateArticleInput.ofStatus draft) in
  ArticleService.restore now vid i u s
  = (Ok r,
     (FileVersionRepository.createVersion now vid r
        (User.id u) (User.displayName u) (Some "Restored from trash")
        (FileCategoryRepository.updateArticleCount (Article.category a) 1
           (Store.setArticles (insert i r) s)).2).2).
Proof.
  intros Hst Hperm r. unfold ArticleService.restore.
  rewrite (bind_Ok _ _ _ _ _ (findById_run i s)), Hfound.
  rewrite Hst, Hperm. simpl negb.
  rewrite !(bind_Ok _ _ _ _ _ (throwIf_false _ _)).
  rewrite (bind_Ok _ _ _ _ _ (repo_restore_run now i s a Hfound Hst)).
  rewrite Hkey. fold r.
  rewrite (bind_Ok _ _ _ _ _ (updateArticleCount_run _ _ _)).
  rewrite (bind_Ok _ _ _ _ _ (createVersion_run _ _ _ _ _ _ _)).
  by rewrite updateArticleCount_run.
Qed.

End DeleteRestore.

(** * Soft delete and restore from trash *)

Lemma articleCountOf_createVersion (now : Z) (vid : string) (art : Article.t)
    (by_ name : string) (reason : option string) (s : Store.t) (c : string) :
  articleCountOf
    (FileVersionRepository.createVersion now vid art by_ name reason s).2 c
  = articleCountOf s c.
Proof. done. Qed.

(** C7, as the code has it. For an article that is not deleted and whose
    category record counts at least one article, a permitted soft delete
    sets [status = deleted] and lowers the count by 1, and a permitted
    restore from trash then sets [status = draft] and raises the count by 1,
    back to its value before the delete. *)
Theorem delete_restore_round_trip (s : Store.t) (i : string) (a : Article.t)
    (u u' : User.t) (now now' : Z) (vid vid' : string) (n : Z) :
  Store.articles s !! i = Some a →
  Article.id a = i →
  Article.status a ≠ deleted →
  ArticleService.canOwnOrAll u a article_delete_own article_delete_all = true →
  ArticleService.canOwnOrAll u' a article_restore_own article_restore_all
  = true →
  articleCountOf s (Article.category a) = Some n →
  1 ≤ n →
  ∃ d s1 r s2,
    ArticleService.delete_ now vid i u s = (Ok d, s1)
    ∧ Store.articles s1 !! i = Some d
    ∧ Article.status d = deleted
    ∧ articleCountOf s1 (Article.category a) = Some (n - 1)
    ∧ ArticleService.restore now' vid' i u' s1 = (Ok r, s2)
    ∧ Store.articles s2 !! i = Some r
    ∧ Article.status r = draft
    ∧ Article.category r = Article.category a
    ∧ articleCountOf s2 (Article.category a) = Some n.
Proof.
  intros Hfound Hkey _ Hdel Hres Hcount Hn.
  destruct (delete_run s i a Hfound Hkey now vid u Hdel) as (L & Hrun).
  set (d := FileArticleRepository.applyUpdate now a
              (UpdateArticleInput.ofStatus deleted)) in *.
  eexists d, _. eexists _, _.
  split; [exact Hrun |].
  match type of Hrun with _ = (_, ?st) => set (s1 := st) in * end.
  assert (Hd : Store.articles s1 !! i = Some d).
  { subst s1. rewrite updateArticleCount_run.
    destruct (FileCategoryRepository.findByExactName _ _);
      simpl; by rewrite lookup_insert_eq. }
  assert (Hc1 : articleCountOf s1 (Article.category a) = Some (n - 1)).
  { subst s1. rewrite articleCountOf_createVersion.
    rewrite updateArticleCount_count.
    change (articleCountOf (Store.setArticles _ _) ?c)
      with (articleCountOf s c).
    rewrite Hcount. simpl. f_equal. lia. }
  split; [exact Hd |]. split; [done |]. split; [exact Hc1 |].
  pose proof (restore_run s1 i d Hd Hkey now' vid' u' eq_refl Hres) as Hrun2.
  split; [exact Hrun2 |].
  split.
  { rewrite updateArticleCount_run.
    destruct (FileCategoryRepository.findByExactName _ _);
      simpl; by rewrite lookup_insert_eq. }
  split; [done |]. split; [done |].
  rewrite articleCountOf_createVersion, updateArticleCount_count.
  change (articleCountOf (Store.setArticles _ _) ?c)
    with (articleCountOf s1 c).
  change (Article.category d) with (Article.category a).
  rewrite Hc1. simpl. f_equal. lia.
Qed.

(** One run of [delete_restore_round_trip]: the author deletes and restores
    the own draft of a category that counts one article. *)
Lemma delete_restore_round_trip_witness :
  ∃ d s1 r s2,
    ArticleService.delete_ 10 "v2" "a1" Sample.authorUser
      (Sample.storeWith Sample.draftArticle 1) = (Ok d, s1)
    ∧ Store.articles s1 !! "a1" = Some d
    ∧ Article.status d = deleted
    ∧ articleCountOf s1 "Security" = Some (1 - 1)
    ∧ ArticleService.restore 20 "v3" "a1" Sample.authorUser s1 = (Ok r, s2)
    ∧ Store.articles s2 !! "a1" = Some r
    ∧ Article.status r = draft
    ∧ Article.category r = "Security"
    ∧ articleCountOf s2 "Security" = Some 1.
Proof.
  apply (delete_restore_round_trip
           (Sample.storeWith Sample.draftArticle 1) "a1" Sample.draftArticle
           Sample.authorUser Sample.authorUser 10 20 "v2" "v3" 1).
  - by vm_compute.
  - reflexivity.
  - discriminate.
  - reflexivity.
  - reflexivity.
  - reflexivity.
  - lia.
Defined.

(** C7 as stated fails when the category record counts 0 while holding the
    article, a state reached by create, update of the category and
    restore-to-version 1 ([Sample.afterRestoreVersion]): the delete leaves
    the count at 0 instead of lowering it, and the restore raises it to 1,
    which is not its value before the delete. *)
Lemma delete_restore_round_trip_counterexample :
  let s := Sample.afterRestoreVersion in
  let del := ArticleService.delete_ 400 "v4" "a1" Sample.authorUser s in
  let res := ArticleService.restore 500 "v5" "a1" Sample.authorUser del.2 in
  Article.status <$> Store.articles s !! "a1" = Some draft
  ∧ Article.category <$> Store.articles s !! "a1" = Some "Security"
  ∧ articleCountOf s "Security" = Some 0
  ∧ Article.status <$> Store.articles del.2 !! "a1" = Some deleted
  ∧ articleCountOf del.2 "Security" = Some 0
  ∧ Article.status <$> Store.articles res.2 !! "a1" = Some draft
  ∧ articleCountOf res.2 "Security" = Some 1.
Proof. by vm_compute. Qed.

(** * Reading an article *)

(** C1, as the code has it. A draft requested by a principal who is neither
    its author nor a holder of [article:view:draft:all] is refused with a
    [ForbiddenError] (HTTP 403) and the store is left as it was; an id that
    is not stored gives a [NotFoundError] (HTTP 404). *)
Theorem getById_foreign_draft_forbidden (s : Store.t) (i : string)
    (a : Article.t) (u : User.t) (now : Z) :
  Store.articles s !! i = Some a →
  Article.status a = draft →
  Article.authorId a ≠ User.id u →
  hasPermission u article_view_draft_all = false →
  ∃ e,
    ArticleService.getById now i u s = (Err e, s)
    ∧ e = ForbiddenError "You do not have permission to view this draft"
    ∧ statusCode e = 403
    ∧ ∀ j, Store.articles s !! j = None →
           ArticleService.getById now j u s = (Err (NotFoundError "Article" j), s)
           ∧ statusCode (NotFoundError "Article" j) = 404.
Proof.
  intros Hfound Hdraft Hother Hperm. eexists. split; [| split; [reflexivity |]].
  - unfold ArticleService.getById.
    rewrite (bind_Ok _ _ _ _ _ (findById_run i s)), Hfound, Hdraft, Hperm.
    rewrite bool_decide_eq_false_2 by done. reflexivity.
  - split; [reflexivity |]. intros j Hj. split; [| reflexivity].
    unfold ArticleService.getById.
    by rewrite (bind_Ok _ _ _ _ _ (findById_run j s)), Hj.
Qed.

(** The reader asks for the author's draft. *)
Lemma getById_foreign_draft_forbidden_witness :
  ∃ e,
    ArticleService.getById 5 "a1" Sample.readerUser
      (Sample.storeWith Sample.draftArticle 1)
    = (Err e, Sample.storeWith Sample.draftArticle 1)
    ∧ e = ForbiddenError "You do not have permission to view this draft"
    ∧ statusCode e = 403
    ∧ ∀ j, Store.articles (Sample.storeWith Sample.draftArticle 1) !! j = None →
           ArticleService.getById 5 j Sample.readerUser
             (Sample.storeWith Sample.draftArticle 1)
           = (Err (NotFoundError "Article" j),
              Sample.storeWith Sample.draftArticle 1)
           ∧ statusCode (NotFoundError "Article" j) = 404.
Proof.
  apply (getById_foreign_draft_forbidden
           (Sample.storeWith Sample.draftArticle 1) "a1" Sample.draftArticle
           Sample.readerUser 5).
  - by vm_compute.
  - reflexivity.
  - by vm_compute.
  - reflexivity.
Defined.

(** C1 as stated fails: the reader's request for the author's draft is
    answered with the 403 [ForbiddenError], while an unknown id is answered
    with the 404 [NotFoundError]. *)
Lemma getById_hidden_draft_counterexample :
  let s := Sample.storeWith Sample.draftArticle 1 in
  Article.status <$> Store.articles s !! "a1" = Some draft
  ∧ bool_decide (Article.authorId Sample.draftArticle
                 = User.id Sample.readerUser) = false
  ∧ hasPermission Sample.readerUser article_view_draft_all = false
  ∧ statusCode <$> errorOf (ArticleService.getById 5 "a1" Sample.readerUser s).1
    = Some 403
  ∧ code <$> errorOf (ArticleService.getById 5 "a1" Sample.readerUser s).1
    = Some "FORBIDDEN"
  ∧ statusCode
      <$> errorOf (ArticleService.getById 5 "missing" Sample.readerUser s).1
    = Some 404.
Proof. by vm_compute. Qed.

(** * Version store *)

(** C5, as the code has it. [createVersion] makes no existence check: it
    always succeeds, and afterwards the record stored for the article's id
    and version number is the one just built, whatever was stored there
    before; every other record is kept. *)
Theorem createVersion_replaces (now : Z) (vid : string) (art : Article.t)
    (by_ name : string) (reason : option string) (s : Store.t) :
  let run :=
    FileVersionRepository.createVersion now vid art by_ name reason s in
  let v := createVersionFromArticle vid art by_ name reason now in
  run.1 = Ok v
  ∧ storedVersion run.2 (Article.id art) (Article.version art) = Some v
  ∧ ∀ aid n, (aid, n) ≠ (Article.id art, Article.version art) →
             storedVersion run.2 aid n = storedVersion s aid n.
Proof.
  intros run v. subst run. rewrite createVersion_run. fold v.
  unfold storedVersion. simpl.
  split; [done |]. split.
  - rewrite lookup_insert_eq. simpl. by rewrite lookup_insert_eq.
  - intros aid n Hne.
    destruct (decide (aid = Article.id art)) as [-> |].
    + rewrite lookup_insert_eq. simpl.
      rewrite lookup_insert_ne by congruence.
      by destruct (Store.versions s !! Article.id art).
    + by rewrite lookup_insert_ne.
Qed.

(** C5 as stated fails: with the snapshot [("a1", 1)] stored under the
    reason "Initial creation", a second [createVersion] for the same pair
    returns a record, and that record has taken the place of the first. *)
Lemma createVersion_overwrite_counterexample :
  let s := Sample.storeWith Sample.draftArticle 1 in
  let run :=
    FileVersionRepository.createVersion 50 "v9" Sample.draftArticle
      "editor-001" "Editor User" (Some "Second write") s in
  ArticleVersion.changeReason <$> storedVersion s "a1" 1
  = Some (Some "Initial creation")
  ∧ errorOf run.1 = None
  ∧ ArticleVersion.changeReason <$> storedVersion run.2 "a1" 1
    = Some (Some "Second write")
  ∧ versionCount run.2 "a1" = 1.
Proof. by vm_compute. Qed.

(** * Publish and archive *)

Lemma applyUpdate_publishedAt (now : Z) (a : Article.t) :
  Article.publishedAt
    (FileArticleRepository.applyUpdate now a
       (UpdateArticleInput.ofStatus published))
  = match Article.publishedAt a with
    | Some t => Some t
    | None => Some now
    end.
Proof. simpl. by destruct (Article.publishedAt a). Qed.

Section StatusTransitions.

Variables (s : Store.t) (i : string) (a : Article.t).
Hypothesis Hfound : Store.articles s !! i = Some a.
Hypothesis Hkey : Article.id a = i.
Variables (now : Z) (vid : string) (u : User.t).

Lemma publish_not_draft :
  Article.status a ≠ draft →
  ArticleService.publish now vid i u s
  = (Err (BadRequestError "Only draft articles can be published"), s).
Proof.
  intros Hst. unfold ArticleService.publish.
  rewrite (bind_Ok _ _ _ _ _ (findById_run i s)), Hfound.
  by rewrite bool_decide_eq_false_2.
Qed.

Lemma publish_run :
  Article.status a = draft →
  ArticleService.canOwnOrAll u a article_publish_own article_publish_all
  = true →
  let p :=
    FileArticleRepository.applyUpdate now a
      (UpdateArticleInput.ofStatus published) in
  ArticleService.publish now vid i u s
  = (Ok p,
     (FileVersionRepository.createVersion now vid p (User.id u)
        (User.displayName u) (Some "Published")
        (Store.setArticles (insert i p) s)).2).
Proof.
  intros Hst Hperm p. unfold ArticleService.publish.
  rewrite (bind_Ok _ _ _ _ _ (findById_run i s)), Hfound, Hst, Hperm.
  simpl negb.
  rewrite !(bind_Ok _ _ _ _ _ (throwIf_false _ _)).
  rewrite (bind_Ok _ _ _ _ _ (repo_update_run now i _ s a Hfound)).
  rewrite Hkey. fold p.
  by rewrite (bind_Ok _ _ _ _ _ (createVersion_run _ _ _ _ _ _ _)).
Qed.

Lemma archive_not_permitted :
  hasPermission u article_archive = false →
  ArticleService.archive now vid i u s
  = (Err (ForbiddenError "You do not have permission to archive articles"), s).
Proof. intros Hperm. unfold ArticleService.archive. by rewrite Hperm. Qed.

Lemma archive_not_published :
  hasPermission u article_archive = true →
  Article.status a ≠ published →
  ArticleService.archive now vid i u s
  = (Err (BadRequestError "Only published articles can be archived"), s).
Proof.
  intros Hperm Hst. unfold ArticleService.archive. rewrite Hperm. simpl negb.
  rewrite (bind_Ok _ _ _ _ _ (throwIf_false _ _)).
  rewrite (bind_Ok _ _ _ _ _ (findById_run i s)), Hfound.
  by rewrite bool_decide_eq_false_2.
Qed.

Lemma archive_run :
  hasPermission u article_archive = true →
  Article.status a = published →
  let p :=
    FileArticleRepository.applyUpdate now a
      (UpdateArticleInput.ofStatus archived) in
  ArticleService.archive now vid i u s
  = (Ok p,
     (FileVersionRepository.createVersion now vid p (User.id u)
        (User.displayName u) (Some "Archived")
        (Store.setArticles (insert i p) s)).2).
Proof.
  intros Hperm Hst p. unfold ArticleService.archive. rewrite Hperm.
  simpl negb.
  rewrite (bind_Ok _ _ _ _ _ (throwIf_false _ _)).
  rewrite (bind_Ok _ _ _ _ _ (findById_run i s)), Hfound, Hst.
  rewrite (bind_Ok _ _ _ _ _ (throwIf_false _ _)).
  rewrite (bind_Ok _ _ _ _ _ (repo_update_run now i _ s a Hfound)).
  rewrite Hkey. fold p.
  by rewrite (bind_Ok _ _ _ _ _ (createVersion_run _ _ _ _ _ _ _)).
Qed.

End StatusTransitions.

Lemma storedVersion_after_snapshot (now : Z) (vid : string) (p : Article.t)
    (by_ name : string) (reason : option string) (s : Store.t) :
  storedVersion
    (FileVersionRepository.createVersion now vid p by_ name reason s).2
    (Article.id p) (Article.version p)
  = Some (createVersionFromArticle vid p by_ name reason now).
Proof.
  unfold storedVersion. simpl.
  rewrite lookup_insert_eq. simpl. by rewrite lookup_insert_eq.
Qed.

(** C6. For a stored article: [publish] of anything but a draft is refused
    with a [BadRequestError] and changes nothing, so a publish that succeeds
    was applied to a draft; a permitted publish of a draft stores
    [status = published], sets [publishedAt] to the clock when it was unset
    and keeps it otherwise, and writes the snapshot of the new version.
    [archive] of anything but a published article is refused (403 without
    the archive permission, 400 with it) and changes nothing; a permitted
    archive of a published article stores [status = archived] and writes
    the snapshot of the new version. *)
Theorem publish_archive_transitions (s : Store.t) (i : string) (a : Article.t)
    (now : Z) (vid : string) (u : User.t) :
  Store.articles s !! i = Some a →
  Article.id a = i →
  let pub := ArticleService.publish now vid i u s in
  let arc := ArticleService.archive now vid i u s in
  (Article.status a ≠ draft →
   pub = (Err (BadRequestError "Only draft articles can be published"), s))
  ∧ (errorOf pub.1 = None → Article.status a = draft)
  ∧ (Article.status a = draft →
     ArticleService.canOwnOrAll u a article_publish_own article_publish_all
     = true →
     ∃ p v,
       pub.1 = Ok p
       ∧ Store.articles pub.2 !! i = Some p
       ∧ Article.status p = published
       ∧ Article.publishedAt p
         = match Article.publishedAt a with
           | Some t => Some t
           | None => Some now
           end
       ∧ Article.version p = Article.version a + 1
       ∧ storedVersion pub.2 i (Article.version p) = Some v
       ∧ ArticleVersion.status v = published
       ∧ ArticleVersion.changeReason v = Some "Published")
  ∧ (Article.status a ≠ published →
     ∃ e, arc = (Err e, s) ∧ (statusCode e = 400 ∨ statusCode e = 403))
  ∧ (errorOf arc.1 = None → Article.status a = published)
  ∧ (Article.status a = published →
     hasPermission u article_archive = true →
     ∃ p v,
       arc.1 = Ok p
       ∧ Store.articles arc.2 !! i = Some p
       ∧ Article.status p = archived
       ∧ Article.version p = Article.version a + 1
       ∧ storedVersion arc.2 i (Article.version p) = Some v
       ∧ ArticleVersion.status v = archived
       ∧ ArticleVersion.changeReason v = Some "Archived").
Proof.
  intros Hfound Hkey pub arc.
  assert (Hpub_only : Article.status a ≠ draft →
    pub = (Err (BadRequestError "Only draft articles can be published"), s))
    by apply (publish_not_draft s i a Hfound).
  assert (Harc_only : Article.status a ≠ published →
    ∃ e, arc = (Err e, s) ∧ (statusCode e = 400 ∨ statusCode e = 403)).
  { intros Hst. destruct (hasPermission u article_archive) eqn:Hperm.
    - eexists. split;
        [by apply (archive_not_published s i a Hfound) | by left].
    - eexists. split; [by apply archive_not_permitted | by right]. }
  split; [exact Hpub_only |]. split.
  { intros Hok. destruct (decide (Article.status a = draft)) as [| Hne];
      [done |]. rewrite (Hpub_only Hne) in Hok. discriminate. }
  split.
  { intros Hst Hperm. subst pub.
    rewrite (publish_run s i a Hfound Hkey now vid u Hst Hperm).
    cbn [fst snd].
    set (p := FileArticleRepository.applyUpdate now a
                (UpdateArticleInput.ofStatus published)).
    exists p, (createVersionFromArticle vid p (User.id u)
                 (User.displayName u) (Some "Published") now).
    split; [reflexivity |].
    split; [simpl; by rewrite lookup_insert_eq |].
    split; [reflexivity |].
    split; [apply applyUpdate_publishedAt |].
    split; [reflexivity |].
    split; [| split; reflexivity].
    rewrite <- Hkey. apply (storedVersion_after_snapshot now vid p). }
  split; [exact Harc_only |]. split.
  { intros Hok. destruct (decide (Article.status a = published)) as [| Hne];
      [done |]. destruct (Harc_only Hne) as (e & He & _).
    rewrite He in Hok. discriminate. }
  intros Hst Hperm. subst arc.
  rewrite (archive_run s i a Hfound Hkey now vid u Hperm Hst).
  cbn [fst snd].
  set (p := FileArticleRepository.applyUpdate now a
              (UpdateArticleInput.ofStatus archived)).
  exists p, (createVersionFromArticle vid p (User.id u)
               (User.displayName u) (Some "Archived") now).
  split; [reflexivity |].
  split; [simpl; by rewrite lookup_insert_eq |].
  split; [reflexivity |]. split; [reflexivity |].
  split; [| split; reflexivity].
  rewrite <- Hkey. apply (storedVersion_after_snapshot now vid p).
Qed.

(** [publish_archive_transitions] on the author's draft: the author
    publishes it at time 7, and the editor's attempt to archive the draft
    is refused with status 400. *)
Lemma publish_archive_transitions_witness :
  (∃ p,
     (ArticleService.publish 7 "v2" "a1" Sample.authorUser
        (Sample.storeWith Sample.draftArticle 1)).1 = Ok p
     ∧ Article.status p = published
     ∧ Article.publishedAt p = Some 7)
  ∧ (∃ e,
       ArticleService.archive 7 "v2" "a1" Sample.editorUser
         (Sample.storeWith Sample.draftArticle 1)
       = (Err e, Sample.storeWith Sample.draftArticle 1)
       ∧ statusCode e = 400).
Proof.
  assert (Hfound : Store.articles (Sample.storeWith Sample.draftArticle 1)
                     !! "a1" = Some Sample.draftArticle) by (by vm_compute).
  split.
  - destruct (publish_archive_transitions _ _ _ 7 "v2" Sample.authorUser
                Hfound eq_refl) as (_ & _ & H & _).
    destruct (H eq_refl eq_refl) as (p & v & ? & ? & ? & ? & _).
    exists p. by repeat split.
  - destruct (publish_archive_transitions _ _ _ 7 "v2" Sample.editorUser
                Hfound eq_refl) as (_ & _ & _ & H & _).
    destruct H as (e & He & Hcode); [discriminate |].
    exists e. split; [exact He |].
    injection He as He. rewrite <- He. reflexivity.
Defined.

(** * Restore to a version *)

Section RestoreVersion.

Variables (s : Store.t) (i : string) (a : Article.t).
Hypothesis Hfound : Store.articles s !! i = Some a.
Hypothesis Hkey : Article.id a = i.
Variables (now : Z) (vid : string) (u : User.t).
Variables (n : Z) (old : ArticleVersion.t).
Hypothesis Hold : storedVersion s i n = Some old.
Hypothesis Hperm :
  ArticleService.canOwnOrAll u a
    article_version_restore_own article_version_restore_all = true.

Let contentOf : UpdateArticleInput.t :=
  {| UpdateArticleInput.briefTitle := Some (ArticleVersion.briefTitle old);
     UpdateArticleInput.detailedDescription :=
       Some (ArticleVersion.detailedDescription old);
     UpdateArticleInput.category := Some (ArticleVersion.category old);
     UpdateArticleInput.tags := Some (ArticleVersion.tags old);
     UpdateArticleInput.relatedArticles :=
       Some (ArticleVersion.relatedArticles old);
     UpdateArticleInput.status := None;
     UpdateArticleInput.expirationDate := None |}.

Lemma getVersion_run :
  FileVersionRepository.getVersion i n s = (Ok (Some old), s).
Proof.
  unfold FileVersionRepository.getVersion, gets.
  unfold storedVersion in Hold. by rewrite Hold.
Qed.

Lemma restoreVersion_current :
  n = Article.version a →
  VersionService.restoreVersion now vid i n u s
  = (Err (BadRequestError "Cannot restore to current version"), s).
Proof.
  intros Hn. unfold VersionService.restoreVersion.
  rewrite (bind_Ok _ _ _ _ _ (findById_run i s)), Hfound, Hperm.
  simpl negb. rewrite (bind_Ok _ _ _ _ _ (throwIf_false _ _)).
  rewrite (bind_Ok _ _ _ _ _ getVersion_run).
  by rewrite bool_decide_eq_true_2.
Qed.

Lemma restoreVersion_run :
  n ≠ Article.version a →
  let r := FileArticleRepository.applyUpdate now a contentOf in
  VersionService.restoreVersion now vid i n u s
  = FileVersionRepository.createVersion now vid r (User.id u)
      (User.displayName u) (Some ("Restored from version " +:+ pretty n))
      (Store.setArticles (insert i r) s).
Proof.
  intros Hn r. unfold VersionService.restoreVersion.
  rewrite (bind_Ok _ _ _ _ _ (findById_run i s)), Hfound, Hperm.
  simpl negb. rewrite (bind_Ok _ _ _ _ _ (throwIf_false _ _)).
  rewrite (bind_Ok _ _ _ _ _ getVersion_run).
  rewrite bool_decide_eq_false_2 by done.
  rewrite (bind_Ok _ _ _ _ _ (throwIf_false _ _)).
  rewrite (bind_Ok _ _ _ _ _ (repo_update_run now i _ s a Hfound)).
  by rewrite Hkey.
Qed.

End RestoreVersion.

(** C4. For a stored article, a version [n] stored for it, and a principal
    who may restore versions of it: when [n] is not the article's current
    version, the call succeeds, the article takes the title, body, category,
    tags and related articles of snapshot [n] and keeps its status, its
    version number grows by one, and the snapshot of that new version is
    recorded and returned with the reason "Restored from version n"; when
    [n] is the current version, the call is refused with a
    [BadRequestError] and the store is left as it was. *)
Theorem restoreVersion_copies_content (s : Store.t) (i : string)
    (a : Article.t) (now : Z) (vid : string) (u : User.t) (n : Z)
    (old : ArticleVersion.t) :
  Store.articles s !! i = Some a →
  Article.id a = i →
  storedVersion s i n = Some old →
  ArticleService.canOwnOrAll u a
    article_version_restore_own article_version_restore_all = true →
  let run := VersionService.restoreVersion now vid i n u s in
  (n ≠ Article.version a →
   ∃ a' v,
     run.1 = Ok v
     ∧ Store.articles run.2 !! i = Some a'
     ∧ Article.briefTitle a' = ArticleVersion.briefTitle old
     ∧ Article.detailedDescription a' = ArticleVersion.detailedDescription old
     ∧ Article.category a' = ArticleVersion.category old
     ∧ Article.tags a' = ArticleVersion.tags old
     ∧ Article.relatedArticles a' = ArticleVersion.relatedArticles old
     ∧ Article.status a' = Article.status a
     ∧ Article.version a' = Article.version a + 1
     ∧ Article.version a < Article.version a'
     ∧ storedVersion run.2 i (Article.version a') = Some v
     ∧ ArticleVersion.version v = Article.version a'
     ∧ ArticleVersion.briefTitle v = ArticleVersion.briefTitle old
     ∧ ArticleVersion.changeReason v
       = Some ("Restored from version " +:+ pretty n))
  ∧ (n = Article.version a →
     run = (Err (BadRequestError "Cannot restore to current version"), s)
     ∧ statusCode (BadRequestError "Cannot restore to current version") = 400).
Proof.
  intros Hfound Hkey Hold Hperm run. subst run. split.
  - intros Hn.
    rewrite (restoreVersion_run s i a Hfound Hkey now vid u n old Hold Hperm Hn).
    match goal with
    | |- context [FileArticleRepository.applyUpdate now a ?c] =>
        set (r := FileArticleRepository.applyUpdate now a c)
    end.
    exists r, (createVersionFromArticle vid r (User.id u) (User.displayName u)
                 (Some ("Restored from version " +:+ pretty n)) now).
    split; [reflexivity |].
    split; [simpl; by rewrite lookup_insert_eq |].
    do 7 (split; [reflexivity |]).
    split; [simpl; lia |].
    split; [| by repeat split].
    rewrite <- Hkey. apply (storedVersion_after_snapshot now vid r).
  - intros Hn. split; [| reflexivity].
    by apply (restoreVersion_current s i a Hfound now vid u n old).
Qed.

(** [restoreVersion_copies_content] on [Sample.afterMove], where the
    article is at version 2 in "Network": restoring version 1 brings it back
    to "Security" at version 3, and restoring version 2 is refused. *)
Lemma restoreVersion_copies_content_witness :
  (∃ a' v,
     (VersionService.restoreVersion 300 "v3" "a1" 1 Sample.authorUser
        Sample.afterMove).1 = Ok v
     ∧ Store.articles
         (VersionService.restoreVersion 300 "v3" "a1" 1 Sample.authorUser
            Sample.afterMove).2 !! "a1" = Some a'
     ∧ Article.category a' = "Security"
     ∧ Article.version a' = 3
     ∧ ArticleVersion.changeReason v = Some "Restored from version 1")
  ∧ VersionService.restoreVersion 300 "v3" "a1" 2 Sample.authorUser
      Sample.afterMove
    = (Err (BadRequestError "Cannot restore to current version"),
       Sample.afterMove).
Proof.
  pose (a := default Sample.draftArticle
               (Store.articles Sample.afterMove !! "a1")).
  pose (v0 := createVersionFromArticle "" a "" "" None 0).
  pose (old1 := default v0 (storedVersion Sample.afterMove "a1" 1)).
  pose (old2 := default v0 (storedVersion Sample.afterMove "a1" 2)).
  assert (Hfound : Store.articles Sample.afterMove !! "a1" = Some a)
    by (by vm_compute).
  assert (Hold1 : storedVersion Sample.afterMove "a1" 1 = Some old1)
    by (by vm_compute).
  assert (Hold2 : storedVersion Sample.afterMove "a1" 2 = Some old2)
    by (by vm_compute).
  split.
  - destruct (restoreVersion_copies_content Sample.afterMove "a1" a 300 "v3"
                Sample.authorUser 1 old1 Hfound eq_refl Hold1 eq_refl)
      as (H & _).
    destruct H as (a' & v & Hv & Ha' & _ & _ & Hcat & _ & _ & _ & Hver & _ & _
                   & _ & _ & Hreason); [by vm_compute |].
    exists a', v.
    split; [exact Hv |]. split; [exact Ha' |].
    split; [rewrite Hcat; by vm_compute |].
    split; [rewrite Hver; by vm_compute | exact Hreason].
  - destruct (restoreVersion_copies_content Sample.afterMove "a1" a 300 "v3"
                Sample.authorUser 2 old2 Hfound eq_refl Hold2 eq_refl)
      as (_ & H).
    apply H. by vm_compute.
Defined.

(** * Request validation and the public create operation *)

Lemma setKey_not_nil (k : string) (v : list string) (e : Validation.Errors) :
  Validation.setKey k v e ≠ [].
Proof. destruct e as [| [k' v'] e]; simpl; [done |]. by case_bool_decide. Qed.

Lemma assign_nil (e nested : Validation.Errors) :
  Validation.assign e nested = [] → e = [].
Proof.
  unfold Validation.assign. revert e.
  induction nested as [| kv nested IH]; simpl; [done |].
  intros e H. apply IH in H. by apply setKey_not_nil in H.
Qed.

(** The errors collected so far are never dropped by a later entry. *)
Lemma validateEntry_grows (prefix field : string) (rules : Rules)
    (data : list (string * JValue)) (errors : Validation.Errors) :
  Validation.validateEntry prefix field rules data errors = [] → errors = [].
Proof.
  destruct rules as [ty req minL maxL mn mx pat en props].
  cbn [Validation.validateEntry].
  repeat (case_match; simplify_eq; try done);
    intros Hnil;
    try (by apply setKey_not_nil in Hnil);
    try (by apply assign_nil in Hnil).
Qed.

Lemma validateObject_fold_nil (prefix : string)
    (data : list (string * JValue)) (schema : list (string * Rules))
    (acc : Validation.Errors) :
  fold_left (λ errors fr,
               Validation.validateEntry prefix fr.1 fr.2 data errors)
            schema acc = [] →
  acc = []
  ∧ Forall (λ fr, Validation.validateEntry prefix fr.1 fr.2 data [] = [])
           schema.
Proof.
  revert acc. induction schema as [| fr schema IH]; simpl; intros acc H.
  - by split.
  - destruct (IH _ H) as [Hacc Hrest].
    pose proof (validateEntry_grows _ _ _ _ _ Hacc) as ->.
    split; [done |]. by constructor.
Qed.

Lemma validateObject_nil (prefix : string) (data : list (string * JValue))
    (schema : list (string * Rules)) :
  Validation.validateObject data schema prefix = [] →
  Forall (λ fr, Validation.validateEntry prefix fr.1 fr.2 data [] = [])
         schema.
Proof. intros H. by apply validateObject_fold_nil in H as [_ H]. Qed.

Lemma getField_app (k : string) (l1 l2 : list (string * JValue)) :
  Validation.getField k (l1 ++ l2)
  = match Validation.getField k l1 with
    | Some v => Some v
    | None => Validation.getField k l2
    end.
Proof.
  induction l1 as [| [k' v'] l1 IH]; simpl; [done |].
  by case_bool_decide.
Qed.

Lemma getField_entry {A} (k k' : string) (f : A → JValue) (x : option A) :
  Validation.getField k (articleController.Body.entry k' f x)
  = if bool_decide (k' = k) then f <$> x else None.
Proof. destruct x; simpl; by case_bool_decide. Qed.

Ltac getField_toJSON :=
  unfold articleController.Body.toJSON;
  rewrite ?getField_app, ?getField_entry; simpl;
  repeat (case_match; simplify_eq; try done); try done.

Lemma getField_briefTitle (b : articleController.Body.t) :
  Validation.getField "briefTitle" (articleController.Body.toJSON b)
  = JStr <$> articleController.Body.briefTitle b.
Proof. getField_toJSON. Qed.

Lemma getField_detailedDescription (b : articleController.Body.t) :
  Validation.getField "detailedDescription" (articleController.Body.toJSON b)
  = JStr <$> articleController.Body.detailedDescription b.
Proof. getField_toJSON. Qed.

Lemma getField_category (b : articleController.Body.t) :
  Validation.getField "category" (articleController.Body.toJSON b)
  = JStr <$> articleController.Body.category b.
Proof. getField_toJSON. Qed.

Lemma getField_status (b : articleController.Body.t) :
  Validation.getField "status" (articleController.Body.toJSON b)
  = JStr <$> articleController.Body.status b.
Proof. getField_toJSON. Qed.

Lemma getField_contentFormat (b : articleController.Body.t) :
  Validation.getField "contentFormat" (articleController.Body.toJSON b)
  = JStr <$> articleController.Body.contentFormat b.
Proof. getField_toJSON. Qed.

Lemma service_create_run (now : Z) (uuidA uuidV : string)
    (input : CreateArticleInput.t) (user : User.t) (s : Store.t) :
  hasPermission user article_create = true →
  ArticleService.validateArticleInput (ArticleService.ofCreate input) true
  = [] →
  let art :=
    FileArticleRepository.newArticle now uuidA input
      (User.id user) (User.displayName user) in
  ArticleService.create now uuidA uuidV input user s
  = (Ok art,
     (FileCategoryRepository.updateArticleCount (Article.category art) 1
        (FileVersionRepository.createVersion now uuidV art (User.id user)
           (User.displayName user) (Some "Initial creation")
           (Store.setArticles (insert uuidA art) s)).2).2).
Proof.
  intros Hperm Hvalid art. unfold ArticleService.create.
  rewrite Hperm, Hvalid. simpl negb.
  rewrite !(bind_Ok _ _ _ _ _ (throwIf_false _ _)).
  rewrite (bind_Ok _ _ s (Store.setArticles (insert uuidA art) s) art)
    by done.
  rewrite (bind_Ok _ _ _ _ _ (createVersion_run _ _ _ _ _ _ _)).
  rewrite (bind_Ok _ _ _ _ _ (updateArticleCount_run _ _ _)).
  by rewrite updateArticleCount_run.
Qed.

Lemma articles_updateArticleCount (c : string) (delta : Z) (s : Store.t) :
  Store.articles (FileCategoryRepository.updateArticleCount c delta s).2
  = Store.articles s.
Proof.
  rewrite updateArticleCount_run.
  by destruct (FileCategoryRepository.findByExactName _ _).
Qed.

Lemma versions_updateArticleCount (c : string) (delta : Z) (s : Store.t) :
  Store.versions (FileCategoryRepository.updateArticleCount c delta s).2
  = Store.versions s.
Proof.
  rewrite updateArticleCount_run.
  by destruct (FileCategoryRepository.findByExactName _ _).
Qed.

Lemma storedVersion_updateArticleCount (c : string) (delta : Z) (s : Store.t)
    (i : string) (n : Z) :
  storedVersion (FileCategoryRepository.updateArticleCount c delta s).2 i n
  = storedVersion s i n.
Proof. unfold storedVersion. by rewrite versions_updateArticleCount. Qed.

Section CreateBody.

Variable body : articleController.Body.t.

Let entryOk (field : string) (rules : Rules) : Prop :=
  Validation.validateEntry "" field rules
    (articleController.Body.toJSON body) [] = [].

Lemma schema_status_enum :
  entryOk "status"
    (mkRules TString false None None None None None
       (Some ["draft"; "published"]) None) →
  articleController.Body.status body = None
  ∨ articleController.Body.status body = Some "draft"
  ∨ articleController.Body.status body = Some "published".
Proof.
  unfold entryOk. cbn [Validation.validateEntry].
  rewrite getField_status.
  destruct (articleController.Body.status body) as [st |]; [| by left].
  simpl. unfold includes. simpl.
  repeat case_bool_decide; simplify_eq; simpl; try done; auto.
Qed.

Lemma schema_contentFormat_enum :
  entryOk "contentFormat"
    (mkRules TString false None None None None None
       (Some ["markdown"; "richtext"]) None) →
  articleController.Body.contentFormat body = None
  ∨ articleController.Body.contentFormat body = Some "markdown"
  ∨ articleController.Body.contentFormat body = Some "richtext".
Proof.
  unfold entryOk. cbn [Validation.validateEntry].
  rewrite getField_contentFormat.
  destruct (articleController.Body.contentFormat body) as [st |]; [| by left].
  simpl. unfold includes. simpl.
  repeat case_bool_decide; simplify_eq; simpl; try done; auto.
Qed.

Lemma schema_required (field : string) (value : option string)
    (minL maxL : option Z) :
  Validation.getField field (articleController.Body.toJSON body)
  = JStr <$> value →
  entryOk field (mkRules TString true minL maxL None None None None None) →
  is_Some value.
Proof.
  unfold entryOk. cbn [Validation.validateEntry]. intros ->.
  destruct value as [v |]; [by eexists |]. simpl.
  intros H. discriminate H.
Qed.

Lemma schema_accepts_input :
  Validation.validateObject (articleController.Body.toJSON body)
    articleController.createSchema "" = [] →
  ∃ input,
    articleController.asCreateArticleInput body = Some input
    ∧ CreateArticleInput.status input
      = (articleController.Body.status body
         ≫= articleController.statusOfString)
    ∧ (articleController.Body.status body = None
       ∨ articleController.Body.status body = Some "draft"
       ∨ articleController.Body.status body = Some "published").
Proof.
  intros Hvalid. apply validateObject_nil in Hvalid.
  unfold articleController.createSchema in Hvalid.
  repeat match goal with
         | H : Forall _ (_ :: _) |- _ => apply Forall_cons in H as [? H]
         end.
  cbn beta iota delta [fst snd] in *.
  repeat match goal with
         | H : Validation.validateEntry "" ?f ?r _ [] = [] |- _ =>
             change (entryOk f r) in H
         end.
  destruct (schema_required _ _ _ _ (getField_briefTitle body) ltac:(eassumption))
    as [title Htitle].
  destruct (schema_required _ _ _ _ (getField_detailedDescription body)
              ltac:(eassumption)) as [desc Hdesc].
  destruct (schema_required _ _ _ _ (getField_category body) ltac:(eassumption))
    as [cat Hcat].
  pose proof (schema_status_enum ltac:(eassumption)) as Hst.
  pose proof (schema_contentFormat_enum ltac:(eassumption)) as Hcf.
  unfold articleController.asCreateArticleInput.
  rewrite Htitle, Hdesc, Hcat. simpl.
  destruct Hst as [Hst | [Hst | Hst]], Hcf as [Hcf | [Hcf | Hcf]];
    rewrite Hst, Hcf; simpl; eexists; (split; [reflexivity |]); auto.
Qed.

Lemma schema_rejects_status (st : string) :
  articleController.Body.status body = Some st →
  st ≠ "draft" → st ≠ "published" →
  Validation.validateObject (articleController.Body.toJSON body)
    articleController.createSchema "" ≠ [].
Proof.
  intros Hst Hd Hp Hvalid.
  destruct (schema_accepts_input Hvalid) as (_ & _ & _ & [H | [H | H]]);
    congruence.
Qed.

End CreateBody.

(** C10. [POST /api/articles], on a body read at the types of its schema.
    A [status] other than "draft" and "published" is refused by the schema
    with a validation error and nothing is stored. For a principal who may
    create articles and a body that the schema and the service validation
    accept, the article is stored under the fresh id at version 1 together
    with its first snapshot, which carries the same status: with [status]
    omitted or "draft" it is a draft with no [publishedAt]; with "published"
    it is stored published with [publishedAt] equal to the creation time, so
    that its first stored state and first snapshot are already published. *)
Theorem create_initial_status (now : Z) (uuidArticle uuidVersion : string)
    (body : articleController.Body.t) (user : User.t) (s : Store.t) :
  let run :=
    articleController.create now uuidArticle uuidVersion body user s in
  (∀ st, articleController.Body.status body = Some st →
         st ≠ "draft" → st ≠ "published" →
         ∃ errors, run = (Err (ValidationError errors), s)
                   ∧ statusCode (ValidationError errors) = 422)
  ∧ (hasPermission user article_create = true →
     Validation.validateObject (articleController.Body.toJSON body)
       articleController.createSchema "" = [] →
     (∀ input, articleController.asCreateArticleInput body = Some input →
               ArticleService.validateArticleInput
                 (ArticleService.ofCreate input) true = []) →
     ∃ a v,
       run.1 = Ok a
       ∧ Store.articles run.2 !! uuidArticle = Some a
       ∧ Article.version a = 1
       ∧ Article.createdAt a = now
       ∧ storedVersion run.2 uuidArticle 1 = Some v
       ∧ ArticleVersion.status v = Article.status a
       ∧ (articleController.Body.status body = None
          ∨ articleController.Body.status body = Some "draft" →
          Article.status a = draft ∧ Article.publishedAt a = None)
       ∧ (articleController.Body.status body = Some "published" →
          Article.status a = published ∧ Article.publishedAt a = Some now)).
Proof.
  intros run. subst run. unfold articleController.create,
    Validation.validateBody. split.
  - intros st Hst Hd Hp.
    pose proof (schema_rejects_status body st Hst Hd Hp) as Hne.
    eexists. split; [| reflexivity].
    unfold ArticleService.isValid.
    rewrite bool_decide_eq_false_2 by exact Hne. reflexivity.
  - intros Hperm Hschema Hservice.
    destruct (schema_accepts_input body Hschema)
      as (input & Hinput & Hstatus & Hcases).
    rewrite Hschema, Hinput.
    change (ArticleService.isValid []) with true. simpl negb.
    rewrite (bind_Ok _ _ _ _ _ (throwIf_false _ _)).
    rewrite (service_create_run now uuidArticle uuidVersion input user s
               Hperm (Hservice input Hinput)).
    cbn [fst snd].
    set (a := FileArticleRepository.newArticle now uuidArticle input
                (User.id user) (User.displayName user)).
    exists a, (createVersionFromArticle uuidVersion a (User.id user)
                 (User.displayName user) (Some "Initial creation") now).
    split; [reflexivity |].
    split; [rewrite articles_updateArticleCount; simpl;
            by rewrite lookup_insert_eq |].
    split; [reflexivity |]. split; [reflexivity |].
    split; [rewrite storedVersion_updateArticleCount;
            apply (storedVersion_after_snapshot now uuidVersion a) |].
    split; [reflexivity |].
    split.
    + intros [Hnone | Hdraft]; subst a; simpl; rewrite Hstatus.
      * by rewrite Hnone.
      * by rewrite Hdraft.
    + intros Hpub. subst a. simpl. rewrite Hstatus, Hpub. done.
Qed.

(** [create_initial_status] on the sample body: sent with
    [status = "published"] by the author at time 100 it is stored published
    with [publishedAt = 100]; sent with [status = "archived"] it is refused
    and the store is left as it was. *)
Lemma create_initial_status_witness :
  (∃ a,
     (articleController.create 100 "a2" "v1"
        (Sample.vpnBody (Some "published")) Sample.authorUser
        Sample.seeded).1 = Ok a
     ∧ Article.status a = published
     ∧ Article.publishedAt a = Some 100)
  ∧ (∃ errors,
       articleController.create 100 "a2" "v1"
         (Sample.vpnBody (Some "archived")) Sample.authorUser Sample.seeded
       = (Err (ValidationError errors), Sample.seeded)).
Proof.
  split.
  - destruct (create_initial_status 100 "a2" "v1"
                (Sample.vpnBody (Some "published")) Sample.authorUser
                Sample.seeded) as (_ & H).
    destruct H as (a & v & Ha & _ & _ & _ & _ & _ & _ & Hpub).
    + reflexivity.
    + by vm_compute.
    + intros input Hinput. vm_compute in Hinput.
      injection Hinput as <-. by vm_compute.
    + exists a. split; [exact Ha |]. by apply Hpub.
  - destruct (create_initial_status 100 "a2" "v1"
                (Sample.vpnBody (Some "archived")) Sample.authorUser
                Sample.seeded) as (H & _).
    destruct (H "archived" eq_refl) as (errors & Herr & _);
      [discriminate | discriminate |].
    by exists errors.
Defined.

(** * Outcomes of the article operations *)

Lemma quiet_refl (s : Store.t) : quiet s s.
Proof. by split. Qed.

Lemma quiet_setLocks (f : gmap string ArticleLock.t → gmap string ArticleLock.t)
    (s : Store.t) : quiet s (Store.setLocks f s).
Proof. by split. Qed.

Lemma wrote_snapshot (now : Z) (vid : string) (r : Article.t)
    (by_ name : string) (reason : option string) (s s0 : Store.t)
    (i : string) :
  Article.id r = i →
  Store.articles s0 = <[i := r]> (Store.articles s) →
  Store.versions s0 = Store.versions s →
  wrote s
    (FileVersionRepository.createVersion now vid r by_ name reason s0).2
    i r (createVersionFromArticle vid r by_ name reason now).
Proof.
  intros Hid Harts Hvers. unfold wrote, versionDir. simpl.
  by rewrite Hid, Harts, Hvers.
Qed.

Section Outcomes.

Variables (s : Store.t) (i : string) (a : Article.t).
Hypothesis Hfound : Store.articles s !! i = Some a.
Hypothesis Hkey : Article.id a = i.
Variables (now : Z) (vid : string) (u : User.t).

Lemma publish_forbidden :
  Article.status a = draft →
  ArticleService.canOwnOrAll u a article_publish_own article_publish_all
  = false →
  ArticleService.publish now vid i u s
  = (Err (ForbiddenError
            "You do not have permission to publish this article"), s).
Proof.
  intros Hst Hperm. unfold ArticleService.publish.
  rewrite (bind_Ok _ _ _ _ _ (findById_run i s)), Hfound, Hst, Hperm.
  simpl negb. by rewrite (bind_Ok _ _ _ _ _ (throwIf_false _ _)).
Qed.

Lemma publish_outcome :
  (∃ e, ArticleService.publish now vid i u s = (Err e, s)
        ∧ (isForbidden (Err e : Result Article.t) = true →
           ArticleService.canOwnOrAll u a
             article_publish_own article_publish_all = false))
  ∨ (∃ r v s',
       ArticleService.publish now vid i u s = (Ok r, s')
       ∧ ArticleService.canOwnOrAll u a
           article_publish_own article_publish_all = true
       ∧ Article.status a = draft
       ∧ r = FileArticleRepository.applyUpdate now a
               (UpdateArticleInput.ofStatus published)
       ∧ wrote s s' i r v).
Proof.
  destruct (decide (Article.status a = draft)) as [Hst | Hst].
  - destruct (ArticleService.canOwnOrAll u a
                article_publish_own article_publish_all) eqn:Hperm.
    + right. eexists _, _, _.
      split; [by apply (publish_run s i a) |]. do 3 (split; [done |]).
      by apply wrote_snapshot.
    + left. eexists. split; [by apply publish_forbidden | done].
  - left. eexists. split; [by apply (publish_not_draft s i a) | done].
Qed.

Lemma archive_outcome :
  (∃ e, ArticleService.archive now vid i u s = (Err e, s)
        ∧ (isForbidden (Err e : Result Article.t) = true →
           hasPermission u article_archive = false))
  ∨ (∃ r v s',
       ArticleService.archive now vid i u s = (Ok r, s')
       ∧ hasPermission u article_archive = true
       ∧ Article.status a = published
       ∧ r = FileArticleRepository.applyUpdate now a
               (UpdateArticleInput.ofStatus archived)
       ∧ wrote s s' i r v).
Proof.
  destruct (hasPermission u article_archive) eqn:Hperm.
  - destruct (decide (Article.status a = published)) as [Hst | Hst].
    + right. eexists _, _, _.
      split; [by apply (archive_run s i a) |]. do 3 (split; [done |]).
      by apply wrote_snapshot.
    + left. eexists. split; [by apply (archive_not_published s i a) | done].
  - left. eexists. split; [by apply archive_not_permitted | done].
Qed.

Lemma delete_forbidden :
  ArticleService.canOwnOrAll u a article_delete_own article_delete_all
  = false →
  ArticleService.delete_ now vid i u s
  = (Err (ForbiddenError
            "You do not have permission to delete this article"), s).
Proof.
  intros Hperm. unfold ArticleService.delete_.
  by rewrite (bind_Ok _ _ _ _ _ (findById_run i s)), Hfound, Hperm.
Qed.

Lemma delete_outcome :
  (∃ e, ArticleService.delete_ now vid i u s = (Err e, s)
        ∧ ArticleService.canOwnOrAll u a
            article_delete_own article_delete_all = false)
  ∨ (∃ r v s',
       ArticleService.delete_ now vid i u s = (Ok r, s')
       ∧ ArticleService.canOwnOrAll u a
           article_delete_own article_delete_all = true
       ∧ r = FileArticleRepository.applyUpdate now a
               (UpdateArticleInput.ofStatus deleted)
       ∧ wrote s s' i r v).
Proof.
  destruct (ArticleService.canOwnOrAll u a
              article_delete_own article_delete_all) eqn:Hperm.
  - right. destruct (delete_run s i a Hfound Hkey now vid u Hperm)
      as (L & Hrun).
    eexists _, _, _. split; [exact Hrun |]. do 2 (split; [done |]).
    apply wrote_snapshot; [done | |];
      by rewrite ?articles_updateArticleCount, ?versions_updateArticleCount.
  - left. eexists. split; [by apply delete_forbidden | done].
Qed.

Lemma restore_not_deleted :
  Article.status a ≠ deleted →
  ArticleService.restore now vid i u s
  = (Err (BadRequestError "Article is not in trash"), s).
Proof.
  intros Hst. unfold ArticleService.restore.
  rewrite (bind_Ok _ _ _ _ _ (findById_run i s)), Hfound.
  by rewrite bool_decide_eq_false_2.
Qed.

Lemma restore_forbidden :
  Article.status a = deleted →
  ArticleService.canOwnOrAll u a article_restore_own article_restore_all
  = false →
  ArticleService.restore now vid i u s
  = (Err (ForbiddenError
            "You do not have permission to restore this article"), s).
Proof.
  intros Hst Hperm. unfold ArticleService.restore.
  rewrite (bind_Ok _ _ _ _ _ (findById_run i s)), Hfound, Hst, Hperm.
  simpl negb. by rewrite (bind_Ok _ _ _ _ _ (throwIf_false _ _)).
Qed.

Lemma restore_outcome :
  (∃ e, ArticleService.restore now vid i u s = (Err e, s)
        ∧ (isForbidden (Err e : Result Article.t) = true →
           ArticleService.canOwnOrAll u a
             article_restore_own article_restore_all = false))
  ∨ (∃ r v s',
       ArticleService.restore now vid i u s = (Ok r, s')
       ∧ ArticleService.canOwnOrAll u a
           article_restore_own article_restore_all = true
       ∧ Article.status a = deleted
       ∧ r = FileArticleRepository.applyUpdate now a
               (UpdateArticleInput.ofStatus draft)
       ∧ wrote s s' i r v).
Proof.
  destruct (decide (Article.status a = deleted)) as [Hst | Hst].
  - destruct (ArticleService.canOwnOrAll u a
                article_restore_own article_restore_all) eqn:Hperm.
    + right. eexists _, _, _.
      split; [by apply (restore_run s i a) |]. do 3 (split; [done |]).
      apply wrote_snapshot; [done | |];
        by rewrite ?articles_updateArticleCount,
             ?versions_updateArticleCount.
    + left. eexists. split; [by apply restore_forbidden | done].
  - left. eexists. split; [by apply restore_not_deleted | done].
Qed.

End Outcomes.

Lemma quiet_steady (s s' : Store.t) : quiet s s' → steady s s'.
Proof. intros [Ha Hv]. split; [| done]. unfold versionView. by rewrite Ha. Qed.

Lemma updateArticleCount_snd (c : string) (delta : Z) (s : Store.t) :
  FileCategoryRepository.updateArticleCount c delta s
  = (Ok tt, (FileCategoryRepository.updateArticleCount c delta s).2).
Proof. by rewrite updateArticleCount_run. Qed.

Lemma move_counts_run (oldCat newCat : string) (s : Store.t) :
  (FileCategoryRepository.updateArticleCount oldCat (-1);;
   FileCategoryRepository.updateArticleCount newCat 1) s
  = (Ok tt,
     (FileCategoryRepository.updateArticleCount newCat 1
        (FileCategoryRepository.updateArticleCount oldCat (-1) s).2).2).
Proof.
  rewrite (bind_Ok _ _ _ _ _ (updateArticleCount_snd oldCat (-1) s)).
  apply updateArticleCount_snd.
Qed.

Section MoreOutcomes.

Variables (s : Store.t) (i : string) (a : Article.t).
Hypothesis Hfound : Store.articles s !! i = Some a.
Hypothesis Hkey : Article.id a = i.
Variables (now : Z) (vid : string) (u : User.t).

Lemma update_outcome (input : UpdateArticleInput.t)
    (changeReason : option string) :
  (∃ e s1,
     ArticleService.update now vid i input u changeReason s = (Err e, s1)
     ∧ quiet s s1
     ∧ (isForbidden (Err e : Result Article.t) = true →
        ArticleService.canOwnOrAll u a article_edit_own article_edit_all
        = false))
  ∨ (∃ r v s',
       ArticleService.update now vid i input u changeReason s = (Ok r, s')
       ∧ ArticleService.canOwnOrAll u a article_edit_own article_edit_all
         = true
       ∧ r = FileArticleRepository.applyUpdate now a input
       ∧ wrote s s' i r v).
Proof.
  unfold ArticleService.update.
  rewrite (bind_Ok _ _ _ _ _ (findById_run i s)), Hfound.
  destruct (ArticleService.canOwnOrAll u a article_edit_own article_edit_all)
    eqn:Hperm; simpl negb.
  2:{ left. eexists _, _. split; [reflexivity |].
      split; [apply quiet_refl | done]. }
  rewrite (bind_Ok _ _ _ _ _ (throwIf_false _ _)).
  destruct (getLockStatus_run now i (User.id u) s) as (ls & L & Hls).
  rewrite (bind_Ok _ _ _ _ _ Hls).
  destruct (LockStatusResponse.isLocked ls
            && negb (LockStatusResponse.canEdit ls)).
  { left. eexists _, _. split; [reflexivity |].
    split; [apply quiet_setLocks | done]. }
  rewrite (bind_Ok _ _ _ _ _ (throwIf_false _ _)).
  destruct (ArticleService.isValid
              (ArticleService.validateArticleInput input false)).
  2:{ left. eexists _, _. split; [reflexivity |].
      split; [apply quiet_setLocks | done]. }
  simpl negb. rewrite (bind_Ok _ _ _ _ _ (throwIf_false _ _)).
  rewrite (bind_Ok _ _ _ _ _
             (repo_update_run now i input (Store.setLocks (λ _, L) s) a
                Hfound)).
  rewrite (bind_Ok _ _ _ _ _ (createVersion_run _ _ _ _ _ _ _)).
  right.
  set (r := FileArticleRepository.applyUpdate now a input).
  set (v := createVersionFromArticle vid r (User.id u) (User.displayName u)
              changeReason now).
  assert (Hw : ∀ s',
    Store.articles s' = <[i := r]> (Store.articles s) →
    Store.versions s'
    = <[i := <[Article.version r := v]> (versionDir s i)]> (Store.versions s) →
    wrote s s' i r v).
  { intros s' H1 H2. by repeat split. }
  destruct (UpdateArticleInput.category input) as [newCat |].
  - destruct (ArticleService.truthy newCat
              && negb (bool_decide (newCat = Article.category a))).
    + rewrite (bind_Ok _ _ _ _ _ (move_counts_run _ _ _)).
      eexists r, v, _. split; [reflexivity |]. do 2 (split; [done |]).
      apply Hw.
      * rewrite !articles_updateArticleCount. simpl. by rewrite Hkey.
      * rewrite !versions_updateArticleCount. simpl.
        unfold versionDir. by rewrite Hkey.
    + eexists r, v, _. split; [reflexivity |]. do 2 (split; [done |]).
      apply Hw; simpl; unfold versionDir; by rewrite Hkey.
  - eexists r, v, _. split; [reflexivity |]. do 2 (split; [done |]).
    apply Hw; simpl; unfold versionDir; by rewrite Hkey.
Qed.

Lemma restoreVersion_outcome (n : Z) :
  (∃ e,
     VersionService.restoreVersion now vid i n u s = (Err e, s)
     ∧ (isForbidden (Err e : Result ArticleVersion.t) = true →
        ArticleService.canOwnOrAll u a
          article_version_restore_own article_version_restore_all = false))
  ∨ (∃ r v s',
       VersionService.restoreVersion now vid i n u s = (Ok v, s')
       ∧ ArticleService.canOwnOrAll u a
           article_version_restore_own article_version_restore_all = true
       ∧ Article.version r = Article.version a + 1
       ∧ Article.id r = Article.id a
       ∧ wrote s s' i r v).
Proof.
  destruct (ArticleService.canOwnOrAll u a
              article_version_restore_own article_version_restore_all)
    eqn:Hperm.
  - destruct (storedVersion s i n) as [old |] eqn:Hold.
    + destruct (decide (n = Article.version a)) as [Hn | Hn].
      * left. eexists.
        split; [by apply (restoreVersion_current s i a Hfound now vid u n old)
               | done].
      * right.
        rewrite (restoreVersion_run s i a Hfound Hkey now vid u n old
                   Hold Hperm Hn).
        match goal with
        | |- context [FileArticleRepository.applyUpdate now a ?c] =>
            exists (FileArticleRepository.applyUpdate now a c)
        end.
        eexists _, _. split; [reflexivity |]. split; [done |].
        split; [reflexivity |]. split; [reflexivity |].
        by apply wrote_snapshot.
    + left. unfold VersionService.restoreVersion.
      rewrite (bind_Ok _ _ _ _ _ (findById_run i s)), Hfound, Hperm.
      simpl negb. rewrite (bind_Ok _ _ _ _ _ (throwIf_false _ _)).
      unfold storedVersion in Hold.
      rewrite (bind_Ok _ _ s s None);
        [| unfold FileVersionRepository.getVersion, gets; by rewrite Hold].
      eexists. split; [reflexivity | done].
  - left. unfold VersionService.restoreVersion.
    rewrite (bind_Ok _ _ _ _ _ (findById_run i s)), Hfound, Hperm.
    eexists. split; [reflexivity | done].
Qed.

End MoreOutcomes.

Lemma missing_article_outcomes (s : Store.t) (i : string) (now : Z)
    (vid : string) (u : User.t) :
  Store.articles s !! i = None →
  (∀ input reason,
     ArticleService.update now vid i input u reason s
     = (Err (NotFoundError "Article" i), s))
  ∧ ArticleService.delete_ now vid i u s = (Err (NotFoundError "Article" i), s)
  ∧ ArticleService.restore now vid i u s = (Err (NotFoundError "Article" i), s)
  ∧ ArticleService.publish now vid i u s = (Err (NotFoundError "Article" i), s)
  ∧ (∃ e, ArticleService.archive now vid i u s = (Err e, s))
  ∧ (∀ n, VersionService.restoreVersion now vid i n u s
          = (Err (NotFoundError "Article" i), s))
  ∧ (∃ e, ArticleService.permanentDelete i u s = (Err e, s)).
Proof.
  intros Hnone.
  assert (Hrun : FileArticleRepository.findById i s = (Ok None, s))
    by (by rewrite findById_run, Hnone).
  split.
  { intros input reason. unfold ArticleService.update.
    by rewrite (bind_Ok _ _ _ _ _ Hrun). }
  split; [unfold ArticleService.delete_; by rewrite (bind_Ok _ _ _ _ _ Hrun) |].
  split; [unfold ArticleService.restore; by rewrite (bind_Ok _ _ _ _ _ Hrun) |].
  split; [unfold ArticleService.publish; by rewrite (bind_Ok _ _ _ _ _ Hrun) |].
  split.
  { unfold ArticleService.archive.
    destruct (hasPermission u article_archive); simpl negb.
    - rewrite (bind_Ok _ _ _ _ _ (throwIf_false _ _)).
      rewrite (bind_Ok _ _ _ _ _ Hrun). by eexists.
    - by eexists. }
  split.
  { intros n. unfold VersionService.restoreVersion.
    by rewrite (bind_Ok _ _ _ _ _ Hrun). }
  unfold ArticleService.permanentDelete.
  destruct (hasPermission u article_delete_all); simpl negb.
  - rewrite (bind_Ok _ _ _ _ _ (throwIf_false _ _)).
    rewrite (bind_Ok _ _ _ _ _ Hrun). by eexists.
  - by eexists.
Qed.

Lemma create_outcome (now : Z) (uuidA uuidV : string)
    (input : CreateArticleInput.t) (u : User.t) (s : Store.t) :
  (∃ e, ArticleService.create now uuidA uuidV input u s = (Err e, s)
        ∧ (hasPermission u article_create = false →
           e = ForbiddenError "You do not have permission to create articles")
        ∧ (isForbidden (Err e : Result Article.t) = true →
           hasPermission u article_create = false))
  ∨ (∃ r v s',
       ArticleService.create now uuidA uuidV input u s = (Ok r, s')
       ∧ hasPermission u article_create = true
       ∧ r = FileArticleRepository.newArticle now uuidA input
               (User.id u) (User.displayName u)
       ∧ wrote s s' uuidA r v).
Proof.
  destruct (hasPermission u article_create) eqn:Hperm.
  - destruct (ArticleService.validateArticleInput
                (ArticleService.ofCreate input) true) as [| e es] eqn:Hvalid.
    + right. rewrite (service_create_run _ _ _ _ _ _ Hperm Hvalid).
      eexists _, _, _. split; [reflexivity |]. do 2 (split; [done |]).
      unfold wrote. rewrite articles_updateArticleCount,
        versions_updateArticleCount. by repeat split.
    + left. unfold ArticleService.create. rewrite Hperm, Hvalid.
      simpl negb. rewrite (bind_Ok _ _ _ _ _ (throwIf_false _ _)).
      eexists. split; [reflexivity |]. by split.
  - left. unfold ArticleService.create. rewrite Hperm.
    eexists. split; [reflexivity |]. by split.
Qed.

(** * Permission matrix *)

Lemma hasPermission_role (u : User.t) (r : UserRole) (p : Permission) :
  User.role u = r → hasPermission u p = includes (ROLE_PERMISSIONS r) p.
Proof. by intros <-. Qed.

Lemma canOwnOrAll_role (u : User.t) (r : UserRole) (a : Article.t)
    (own all : Permission) :
  User.role u = r →
  ArticleService.canOwnOrAll u a own all
  = (includes (ROLE_PERMISSIONS r) own
     && bool_decide (Article.authorId a = User.id u))
    || includes (ROLE_PERMISSIONS r) all.
Proof. by intros <-. Qed.

Section Matrix.

Variables (s : Store.t) (i : string) (a : Article.t).
Hypothesis Hfound : Store.articles s !! i = Some a.
Hypothesis Hkey : Article.id a = i.
Variables (now : Z) (vid : string) (u : User.t).

Lemma update_forbidden (input : UpdateArticleInput.t)
    (reason : option string) :
  ArticleService.canOwnOrAll u a article_edit_own article_edit_all = false →
  ArticleService.update now vid i input u reason s
  = (Err (ForbiddenError "You do not have permission to edit this article"),
     s).
Proof.
  intros Hperm. unfold ArticleService.update.
  by rewrite (bind_Ok _ _ _ _ _ (findById_run i s)), Hfound, Hperm.
Qed.

Lemma update_not_forbidden (input : UpdateArticleInput.t)
    (reason : option string) :
  ArticleService.canOwnOrAll u a article_edit_own article_edit_all = true →
  isForbidden (ArticleService.update now vid i input u reason s).1 = false.
Proof.
  intros Hperm.
  destruct (update_outcome s i a Hfound Hkey now vid u input reason)
    as [(e & s1 & -> & _ & He) | (r & v & s' & -> & _)]; [| done].
  simpl. destruct (isForbidden (Err e)) eqn:Hf; [| done].
  rewrite (He eq_refl) in Hperm. done.
Qed.

Lemma delete_succeeds :
  ArticleService.canOwnOrAll u a article_delete_own article_delete_all
  = true →
  errorOf (ArticleService.delete_ now vid i u s).1 = None.
Proof.
  intros Hperm.
  destruct (delete_run s i a Hfound Hkey now vid u Hperm) as (L & ->). done.
Qed.

Lemma publish_succeeds :
  Article.status a = draft →
  ArticleService.canOwnOrAll u a article_publish_own article_publish_all
  = true →
  errorOf (ArticleService.publish now vid i u s).1 = None.
Proof.
  intros Hst Hperm.
  by rewrite (publish_run s i a Hfound Hkey now vid u Hst Hperm).
Qed.

Lemma restore_succeeds :
  Article.status a = deleted →
  ArticleService.canOwnOrAll u a article_restore_own article_restore_all
  = true →
  errorOf (ArticleService.restore now vid i u s).1 = None.
Proof.
  intros Hst Hperm.
  by rewrite (restore_run s i a Hfound Hkey now vid u Hst Hperm).
Qed.

Lemma comment_create_run (trim : string → string) (uuid content : string) :
  hasPermission u comment_create = true →
  Article.status a = published →
  CommentService.validateCommentInput trim content = [] →
  let c :=
    {| Comment.id := uuid; Comment.articleId := i;
       Comment.authorId := User.id u;
       Comment.authorName := User.displayName u;
       Comment.content := trim content; Comment.createdAt := now;
       Comment.updatedAt := None; Comment.isEdited := false |} in
  CommentService.create trim now uuid i content u s
  = (Ok c,
     Store.setComments
       (insert i (default [] (Store.comments s !! i) ++ [c])) s).
Proof.
  intros Hperm Hst Hvalid c. unfold CommentService.create.
  rewrite Hperm. simpl negb.
  rewrite (bind_Ok _ _ _ _ _ (throwIf_false _ _)).
  rewrite (bind_Ok _ _ _ _ _ (findById_run i s)), Hfound, Hst, Hvalid.
  done.
Qed.

Lemma force_release_run (l : ArticleLock.t) :
  Store.locks s !! i = Some l →
  now ≤ ArticleLock.expiresAt l →
  ArticleLock.lockedBy l ≠ User.id u →
  ArticleLock.lockedBy l ≠ "" →
  hasPermission u article_edit_all = true →
  LockService.releaseLock now i u s
  = (Ok true,
     Store.setArticles
       (alter (FileArticleRepository.withLockInfo None None None) i)
       (Store.setLocks (delete i) s)).
Proof.
  intros Hl Hlive Hother Hne Hperm. unfold LockService.releaseLock.
  rewrite (bind_Ok _ _ s s true)
    by (unfold FileArticleRepository.exists_;
        by rewrite (bind_Ok _ _ _ _ _ (findById_run i s)), Hfound).
  simpl negb. rewrite (bind_Ok _ _ _ _ _ (throwIf_false _ _)).
  rewrite (bind_Ok _ _ s s
             {| LockStatusResponse.isLocked := true;
                LockStatusResponse.lock := Some l;
                LockStatusResponse.canEdit := false;
                LockStatusResponse.message :=
                  Some ("Article is being edited by "
                        +:+ ArticleLock.lockedByName l) |}).
  2:{ unfold FileLockRepository.getLockStatus, FileLockRepository.loadLock,
        FileLockRepository.isExpired. unfold_monad. rewrite Hl.
      rewrite (proj2 (Z.ltb_ge _ _) Hlive).
      by rewrite bool_decide_eq_false_2. }
  cbn [LockStatusResponse.isLocked LockStatusResponse.canEdit
       LockStatusResponse.lock].
  rewrite Hperm. cbn [negb andb].
  rewrite (bind_Ok _ _ _ _ _ (throwIf_false _ _)).
  unfold ArticleService.truthy.
  rewrite (bool_decide_eq_false_2 _ Hne). simpl negb. cbv iota.
  rewrite (bind_Ok _ _ s (Store.setLocks (delete i) s) true).
  2:{ unfold FileLockRepository.releaseLock, FileLockRepository.loadLock,
        FileLockRepository.deleteLock. unfold_monad. rewrite Hl.
      by rewrite bool_decide_eq_true_2. }
  done.
Qed.

Lemma release_forbidden (l : ArticleLock.t) :
  Store.locks s !! i = Some l →
  now ≤ ArticleLock.expiresAt l →
  ArticleLock.lockedBy l ≠ User.id u →
  hasPermission u article_edit_all = false →
  LockService.releaseLock now i u s
  = (Err (ForbiddenError "You cannot release a lock held by another user"),
     s).
Proof.
  intros Hl Hlive Hother Hperm. unfold LockService.releaseLock.
  rewrite (bind_Ok _ _ s s true)
    by (unfold FileArticleRepository.exists_;
        by rewrite (bind_Ok _ _ _ _ _ (findById_run i s)), Hfound).
  simpl negb. rewrite (bind_Ok _ _ _ _ _ (throwIf_false _ _)).
  rewrite (bind_Ok _ _ s s
             {| LockStatusResponse.isLocked := true;
                LockStatusResponse.lock := Some l;
                LockStatusResponse.canEdit := false;
                LockStatusResponse.message :=
                  Some ("Article is being edited by "
                        +:+ ArticleLock.lockedByName l) |}).
  2:{ unfold FileLockRepository.getLockStatus, FileLockRepository.loadLock,
        FileLockRepository.isExpired. unfold_monad. rewrite Hl.
      rewrite (proj2 (Z.ltb_ge _ _) Hlive).
      by rewrite bool_decide_eq_false_2. }
  cbn [LockStatusResponse.isLocked LockStatusResponse.canEdit
       LockStatusResponse.lock].
  by rewrite Hperm.
Qed.

End Matrix.

(** C8. The permission matrix, on a stored article [a] and at the service
    layer. A reader's create, edit, delete and add-comment are each refused
    with a [ForbiddenError] and change nothing. An actor's create is refused
    the same way, and an actor's comment on a published article, with
    content the validation accepts, is stored. An author's edit, delete,
    publish (of a draft) and restore (from trash) are refused with a
    [ForbiddenError] when [authorId] is not the author's id, and are not
    refused for lack of permission when it is: delete, publish of a draft
    and restore from trash then succeed, and edit can only fail on a lock
    conflict or on validation; an author cannot release a live lock of
    another user. For an editor none of these is refused for lack of
    permission on any article, and releasing a live lock held by another
    user succeeds and removes the lock. *)
Theorem permission_matrix (s : Store.t) (i : string) (a : Article.t)
    (now : Z) (vid : string) (u : User.t) :
  Store.articles s !! i = Some a →
  Article.id a = i →
  let forbidden (A : Type) (msg : string) : Result A * Store.t :=
    (Err (ForbiddenError msg), s) in
  let create uuid input := ArticleService.create now uuid vid input u s in
  let update input reason := ArticleService.update now vid i input u reason s in
  let delete := ArticleService.delete_ now vid i u s in
  let publish := ArticleService.publish now vid i u s in
  let restore := ArticleService.restore now vid i u s in
  let comment trim uuid content :=
    CommentService.create trim now uuid i content u s in
  let release := LockService.releaseLock now i u s in
  let held (l : ArticleLock.t) : Prop :=
    Store.locks s !! i = Some l
    ∧ now ≤ ArticleLock.expiresAt l
    ∧ ArticleLock.lockedBy l ≠ User.id u
    ∧ ArticleLock.lockedBy l ≠ "" in
  (User.role u = reader →
   (∀ uuid input,
      create uuid input
      = forbidden _ "You do not have permission to create articles")
   ∧ (∀ input reason,
        update input reason
        = forbidden _ "You do not have permission to edit this article")
   ∧ delete = forbidden _ "You do not have permission to delete this article"
   ∧ (∀ trim uuid content,
        comment trim uuid content
        = forbidden _ "You do not have permission to add comments"))
  ∧ (User.role u = actor →
     (∀ uuid input,
        create uuid input
        = forbidden _ "You do not have permission to create articles")
     ∧ (∀ trim uuid content,
          Article.status a = published →
          CommentService.validateCommentInput trim content = [] →
          ∃ c s',
            comment trim uuid content = (Ok c, s')
            ∧ Comment.authorId c = User.id u
            ∧ Comment.content c = trim content
            ∧ Store.comments s' !! i
              = Some (default [] (Store.comments s !! i) ++ [c])))
  ∧ (User.role u = author →
     (Article.authorId a ≠ User.id u →
      (∀ input reason,
         update input reason
         = forbidden _ "You do not have permission to edit this article")
      ∧ delete
        = forbidden _ "You do not have permission to delete this article"
      ∧ (Article.status a = draft →
         publish
         = forbidden _ "You do not have permission to publish this article")
      ∧ (Article.status a = deleted →
         restore
         = forbidden _ "You do not have permission to restore this article"))
     ∧ (Article.authorId a = User.id u →
        (∀ input reason, isForbidden (update input reason).1 = false)
        ∧ errorOf delete.1 = None
        ∧ (Article.status a = draft → errorOf publish.1 = None)
        ∧ (Article.status a = deleted → errorOf restore.1 = None))
     ∧ (∀ l, held l →
          release
          = forbidden _ "You cannot release a lock held by another user"))
  ∧ (User.role u = editor →
     (∀ uuid input, isForbidden (create uuid input).1 = false)
     ∧ (∀ input reason, isForbidden (update input reason).1 = false)
     ∧ errorOf delete.1 = None
     ∧ (Article.status a = draft → errorOf publish.1 = None)
     ∧ (Article.status a = deleted → errorOf restore.1 = None)
     ∧ (∀ l, held l →
          ∃ s', release = (Ok true, s') ∧ Store.locks s' !! i = None)).
Proof.
  intros Hfound Hkey forbidden create update delete publish restore comment
    release held.
  subst forbidden create update delete publish restore comment release held.
  cbv beta.
  assert (Hcreate_denied :
    hasPermission u article_create = false →
    ∀ uuid input,
      ArticleService.create now uuid vid input u s
      = (Err (ForbiddenError "You do not have permission to create articles"),
         s)).
  { intros Hperm uuid input.
    destruct (create_outcome now uuid vid input u s)
      as [(e & -> & He & _) | (r & v & s' & _ & Hp & _)]; [| congruence].
    by rewrite (He Hperm). }
  split; [| split; [| split]]; intros Hrole.
  - (* reader *)
    split; [apply Hcreate_denied; by rewrite (hasPermission_role _ _ _ Hrole) |].
    split.
    { intros input reason. apply (update_forbidden s i a Hfound).
      by rewrite (canOwnOrAll_role _ _ _ _ _ Hrole). }
    split.
    { apply (delete_forbidden s i a Hfound).
      by rewrite (canOwnOrAll_role _ _ _ _ _ Hrole). }
    intros trim uuid content. unfold CommentService.create.
    by rewrite (hasPermission_role _ _ _ Hrole).
  - (* actor *)
    split; [apply Hcreate_denied; by rewrite (hasPermission_role _ _ _ Hrole) |].
    intros trim uuid content Hst Hvalid.
    rewrite (comment_create_run s i a Hfound now u trim uuid content
               ltac:(by rewrite (hasPermission_role _ _ _ Hrole)) Hst Hvalid).
    eexists _, _. split; [reflexivity |].
    split; [reflexivity |]. split; [reflexivity |].
    simpl. by rewrite lookup_insert_eq.
  - (* author *)
    split; [| split].
    + intros Hother.
      assert (Hno : ∀ own all,
        includes (ROLE_PERMISSIONS author) all = false →
        ArticleService.canOwnOrAll u a own all = false).
      { intros own all Hall. rewrite (canOwnOrAll_role _ _ _ _ _ Hrole), Hall.
        rewrite bool_decide_eq_false_2 by done.
        by rewrite andb_false_r. }
      split; [intros input reason;
              by apply (update_forbidden s i a Hfound), Hno |].
      split; [by apply (delete_forbidden s i a Hfound), Hno |].
      split; intros Hst.
      * by apply (publish_forbidden s i a Hfound), Hno.
      * by apply (restore_forbidden s i a Hfound), Hno.
    + intros Hown.
      assert (Hyes : ∀ own all,
        includes (ROLE_PERMISSIONS author) own = true →
        ArticleService.canOwnOrAll u a own all = true).
      { intros own all Hp. rewrite (canOwnOrAll_role _ _ _ _ _ Hrole), Hp.
        by rewrite bool_decide_eq_true_2. }
      split; [intros input reason;
              by apply (update_not_forbidden s i a Hfound Hkey), Hyes |].
      split; [by apply (delete_succeeds s i a Hfound Hkey), Hyes |].
      split; intros Hst.
      * by apply (publish_succeeds s i a Hfound Hkey), Hyes.
      * by apply (restore_succeeds s i a Hfound Hkey), Hyes.
    + intros l (Hl & Hlive & Hother & _).
      apply (release_forbidden s i a Hfound now u l Hl Hlive Hother).
      by rewrite (hasPermission_role _ _ _ Hrole).
  - (* editor *)
    assert (Hyes : ∀ own all,
      includes (ROLE_PERMISSIONS editor) all = true →
      ArticleService.canOwnOrAll u a own all = true).
    { intros own all Hp. rewrite (canOwnOrAll_role _ _ _ _ _ Hrole), Hp.
      by rewrite orb_true_r. }
    split.
    { intros uuid input.
      destruct (create_outcome now uuid vid input u s)
        as [(e & -> & _ & He) | (r & v & s' & -> & _)]; [| done].
      simpl. destruct (isForbidden (Err e)) eqn:Hf; [| done].
      specialize (He eq_refl).
      by rewrite (hasPermission_role _ _ _ Hrole) in He. }
    split; [intros input reason;
            by apply (update_not_forbidden s i a Hfound Hkey), Hyes |].
    split; [by apply (delete_succeeds s i a Hfound Hkey), Hyes |].
    split; [intros Hst;
            by apply (publish_succeeds s i a Hfound Hkey), Hyes |].
    split; [intros Hst;
            by apply (restore_succeeds s i a Hfound Hkey), Hyes |].
    intros l (Hl & Hlive & Hother & Hne).
    rewrite (force_release_run s i a Hfound now u l Hl Hlive Hother Hne
               ltac:(by rewrite (hasPermission_role _ _ _ Hrole))).
    eexists. split; [reflexivity |]. simpl. apply lookup_delete_eq.
Qed.

(** [permission_matrix] on the author's locked draft at time 5: the reader
    and another author may not delete it, its author may, and the editor
    releases the author's lock. *)
Lemma permission_matrix_witness :
  ArticleService.delete_ 5 "v2" "a1" Sample.readerUser Sample.lockedDraft
  = (Err (ForbiddenError "You do not have permission to delete this article"),
     Sample.lockedDraft)
  ∧ ArticleService.delete_ 5 "v2" "a1" Sample.otherAuthor Sample.lockedDraft
    = (Err (ForbiddenError
              "You do not have permission to delete this article"),
       Sample.lockedDraft)
  ∧ errorOf
      (ArticleService.delete_ 5 "v2" "a1" Sample.authorUser
         Sample.lockedDraft).1 = None
  ∧ ∃ s',
      LockService.releaseLock 5 "a1" Sample.editorUser Sample.lockedDraft
      = (Ok true, s')
      ∧ Store.locks s' !! "a1" = None.
Proof.
  assert (Hfound : Store.articles Sample.lockedDraft !! "a1"
                   = Some Sample.draftArticle) by (by vm_compute).
  pose proof (λ u, permission_matrix Sample.lockedDraft "a1"
                     Sample.draftArticle 5 "v2" u Hfound eq_refl) as H.
  cbv zeta in H.
  split; [| split; [| split]].
  - destruct (H Sample.readerUser) as (Hreader & _).
    destruct (Hreader eq_refl) as (_ & _ & Hdel & _). exact Hdel.
  - destruct (H Sample.otherAuthor) as (_ & _ & Hauthor & _).
    destruct (Hauthor eq_refl) as (Hforeign & _).
    destruct Hforeign as (_ & Hdel & _); [by vm_compute | exact Hdel].
  - destruct (H Sample.authorUser) as (_ & _ & Hauthor & _).
    destruct (Hauthor eq_refl) as (_ & Hown & _).
    destruct (Hown eq_refl) as (_ & Hdel & _). exact Hdel.
  - destruct (H Sample.editorUser) as (_ & _ & _ & Heditor).
    destruct (Heditor eq_refl) as (_ & _ & _ & _ & _ & Hrel).
    apply (Hrel (Sample.lockOf "a1" Sample.authorUser 0 1000)).
    repeat split; by vm_compute.
Defined.

(** * Version numbers and snapshots *)


Lemma steady_refl (s : Store.t) : steady s s.
Proof. by split. Qed.

Lemma steady_trans (s1 s2 s3 : Store.t) :
  steady s1 s2 → steady s2 s3 → steady s1 s3.
Proof. intros [H1 H2] [H3 H4]. split; congruence. Qed.

Lemma steady_alter (f : Article.t → Article.t) (i : string) (s s' : Store.t) :
  (∀ a, Article.id (f a) = Article.id a
        ∧ Article.version (f a) = Article.version a) →
  Store.articles s' = alter f i (Store.articles s) →
  Store.versions s' = Store.versions s →
  steady s s'.
Proof.
  intros Hf Harts Hvers. split; [| done].
  unfold versionView. rewrite Harts. apply map_eq. intros j.
  rewrite !lookup_fmap, lookup_alter. case_decide; [| done]. subst j.
  destruct (Store.articles s !! i) as [a |]; simpl; [| done].
  destruct (Hf a) as [-> ->]. done.
Qed.

Lemma steady_insert (i : string) (a a' : Article.t) (s s' : Store.t) :
  Store.articles s !! i = Some a →
  Article.id a' = Article.id a →
  Article.version a' = Article.version a →
  Store.articles s' = <[i := a']> (Store.articles s) →
  Store.versions s' = Store.versions s →
  steady s s'.
Proof.
  intros Ha Hid Hver Harts Hvers. split; [| done].
  unfold versionView. rewrite Harts, fmap_insert, Hid, Hver.
  apply insert_id. by rewrite lookup_fmap, Ha.
Qed.

Lemma steady_inStep (s s' : Store.t) : steady s s' → inStep s → inStep s'.
Proof.
  intros [Hview Hvers] Hinv i. unfold inStep in Hinv. specialize (Hinv i).
  assert (Hi : versionView s' !! i = versionView s !! i) by by rewrite Hview.
  unfold versionView in Hi. rewrite !lookup_fmap in Hi.
  unfold versionDir in *. rewrite Hvers.
  destruct (Store.articles s' !! i) as [a' |],
    (Store.articles s !! i) as [a |]; simpl in Hi; try done.
  by injection Hi as -> ->.
Qed.

Lemma wrote_inStep_bump (s s' : Store.t) (i : string) (a r : Article.t)
    (v : ArticleVersion.t) :
  Store.articles s !! i = Some a →
  wrote s s' i r v →
  Article.id r = i →
  Article.version r = Article.version a + 1 →
  inStep s → inStep s'.
Proof.
  intros Ha (Harts & Hvers & _ & _) Hid Hver Hinv j.
  unfold inStep, versionDir in *. rewrite Harts, Hvers.
  destruct (decide (j = i)) as [-> | Hne].
  - rewrite !lookup_insert_eq. simpl.
    specialize (Hinv i). rewrite Ha in Hinv.
    destruct Hinv as (_ & Hsize & Hkeys).
    assert (Hnew : default ∅ (Store.versions s !! i) !! Article.version r
                   = None).
    { destruct (default ∅ (Store.versions s !! i) !! Article.version r)
        eqn:Hk; [| done].
      assert (Article.version r ≤ Article.version a) by (apply Hkeys; eauto).
      lia. }
    split; [done |]. split.
    + rewrite map_size_insert_None by done. lia.
    + intros k [w Hk]. destruct (decide (k = Article.version r)) as [-> |].
      * lia.
      * rewrite lookup_insert_ne in Hk by done.
        assert (k ≤ Article.version a) by (apply Hkeys; eauto). lia.
  - rewrite !lookup_insert_ne by done. apply Hinv.
Qed.

Lemma wrote_inStep_create (s s' : Store.t) (i : string) (r : Article.t)
    (v : ArticleVersion.t) :
  Store.articles s !! i = None →
  wrote s s' i r v →
  Article.id r = i →
  Article.version r = 1 →
  inStep s → inStep s'.
Proof.
  intros Hnone (Harts & Hvers & _ & _) Hid Hver Hinv j.
  unfold inStep, versionDir in *. rewrite Harts, Hvers.
  destruct (decide (j = i)) as [-> | Hne].
  - rewrite !lookup_insert_eq. simpl.
    specialize (Hinv i). rewrite Hnone in Hinv. rewrite Hinv. simpl.
    split; [done |]. split.
    + rewrite map_size_insert_None by apply lookup_empty.
      rewrite map_size_empty. lia.
    + intros k [w Hk]. destruct (decide (k = Article.version r)) as [-> |].
      * lia.
      * rewrite lookup_insert_ne, lookup_empty in Hk by done. done.
  - rewrite !lookup_insert_ne by done. apply Hinv.
Qed.

Lemma erased_inStep (s s' : Store.t) (i : string) :
  Store.articles s' = delete i (Store.articles s) →
  Store.versions s' = delete i (Store.versions s) →
  inStep s → inStep s'.
Proof.
  intros Harts Hvers Hinv j. unfold inStep, versionDir in *. rewrite Harts, Hvers.
  destruct (decide (j = i)) as [-> | Hne].
  - by rewrite !lookup_delete_eq.
  - rewrite !lookup_delete_ne by done. apply Hinv.
Qed.

Lemma explains_inStep (e : Effect) (s s' : Store.t) :
  explains e s s' → inStep s → inStep s'.
Proof.
  destruct e as [| i | i | i]; simpl.
  - apply steady_inStep.
  - intros (Hnone & r & v & Hw & Hid & Hver).
    by apply (wrote_inStep_create s s' i r v).
  - intros (a & r & v & Ha & Hw & Hid & Hver).
    by apply (wrote_inStep_bump s s' i a r v).
  - intros [Harts Hvers]. by apply (erased_inStep s s' i).
Qed.

Lemma incrementViewCount_run (now : Z) (i : string) (viewedBy : option string)
    (s : Store.t) (a : Article.t) :
  Store.articles s !! i = Some a →
  ∃ a',
    FileArticleRepository.incrementViewCount now i viewedBy s
    = (Ok tt, Store.setArticles (insert i a') s)
    ∧ Article.id a' = Article.id a
    ∧ Article.version a' = Article.version a
    ∧ ArticleMetadata.viewCount (Article.metadata a')
      = ArticleMetadata.viewCount (Article.metadata a) + 1.
Proof.
  intros Ha. unfold FileArticleRepository.incrementViewCount.
  rewrite (bind_Ok _ _ _ _ _ (findById_run i s)), Ha.
  eexists. split; [reflexivity |]. by repeat split.
Qed.

Lemma getById_steady (now : Z) (i : string) (u : User.t) (s : Store.t) :
  steady s (ArticleService.getById now i u s).2.
Proof.
  unfold ArticleService.getById.
  rewrite (bind_Ok _ _ _ _ _ (findById_run i s)).
  destruct (Store.articles s !! i) as [a |] eqn:Ha; [| apply steady_refl].
  assert (Hview :
    steady s
      ((if bool_decide (Article.status a = published)
        then
          FileArticleRepository.incrementViewCount now i (Some (User.id u));;
          let* viewed := FileArticleRepository.findById i in
          ret (default a viewed)
        else ret a) s).2).
  { case_bool_decide; [| apply steady_refl].
    destruct (incrementViewCount_run now i (Some (User.id u)) s a Ha)
      as (a' & Hrun & Hid & Hver & _).
    rewrite (bind_Ok _ _ _ _ _ Hrun).
    rewrite (bind_Ok _ _ _ _ _ (findById_run i _)). simpl.
    by apply (steady_insert i a a'). }
  destruct (Article.status a) eqn:Hst.
  - destruct (negb (bool_decide (Article.authorId a = User.id u))
              && negb (hasPermission u article_view_draft_all)).
    + apply steady_refl.
    + rewrite (bind_Ok _ _ _ _ _ (throwIf_false _ _)). exact Hview.
  - rewrite (bind_Ok _ _ s s tt) by done. exact Hview.
  - rewrite (bind_Ok _ _ s s tt) by done. exact Hview.
  - destruct (negb (hasPermission u article_delete_all)).
    + apply steady_refl.
    + rewrite (bind_Ok _ _ _ _ _ (throwIf_false _ _)). exact Hview.
Qed.

Lemma repo_acquireLock_run (cfg : Config.t) (now : Z) (i uid name : string)
    (s : Store.t) :
  ∃ (res : LockAcquisitionResult.t) (L : gmap string ArticleLock.t),
    FileLockRepository.acquireLock cfg now i uid name s
    = (Ok res, Store.setLocks (λ _, L) s).
Proof.
  unfold FileLockRepository.acquireLock, FileLockRepository.loadLock,
    FileLockRepository.saveLock. unfold_monad.
  destruct (Store.locks s !! i) as [l |].
  - destruct (negb (FileLockRepository.isExpired now l)).
    + case_bool_decide.
      * by eexists _, (insert i _ (Store.locks s)).
      * eexists _, (Store.locks s). by rewrite setLocks_same.
    + by eexists _, (insert i _ (Store.locks s)).
  - by eexists _, (insert i _ (Store.locks s)).
Qed.

Lemma withLockInfo_view (by_ name : option string) (at_ : option Z)
    (a : Article.t) :
  Article.id (FileArticleRepository.withLockInfo by_ name at_ a) = Article.id a
  ∧ Article.version (FileArticleRepository.withLockInfo by_ name at_ a)
    = Article.version a.
Proof. done. Qed.

Lemma acquire_then_mark_steady (cfg : Config.t) (now : Z) (i : string)
    (u : User.t) (s : Store.t) :
  steady s
    ((let* result :=
        FileLockRepository.acquireLock cfg now i
          (User.id u) (User.displayName u) in
      (if LockAcquisitionResult.success result
       then LockService.updateArticleLockInfo now i
              (User.id u) (User.displayName u)
       else ret tt);;
      ret result) s).2.
Proof.
  destruct (repo_acquireLock_run cfg now i (User.id u) (User.displayName u) s)
    as (res & L & Hrun).
  rewrite (bind_Ok _ _ _ _ _ Hrun).
  destruct (LockAcquisitionResult.success res).
  - unfold LockService.updateArticleLockInfo.
    rewrite (bind_Ok _ _ _ _ tt) by reflexivity. simpl.
    by eapply steady_alter; [apply withLockInfo_view | |].
  - by rewrite (bind_Ok _ _ _ _ tt) by reflexivity.
Qed.

Lemma acquireLock_steady (cfg : Config.t) (now : Z) (i : string) (u : User.t)
    (s : Store.t) :
  steady s (LockService.acquireLock cfg now i u s).2.
Proof.
  unfold LockService.acquireLock.
  rewrite (bind_Ok _ _ _ _ _ (findById_run i s)).
  destruct (Store.articles s !! i) as [a |]; [| apply steady_refl].
  destruct (negb (ArticleService.canOwnOrAll u a
                    article_edit_own article_edit_all)).
  - apply steady_refl.
  - rewrite (bind_Ok _ _ _ _ _ (throwIf_false _ _)).
    apply acquire_then_mark_steady.
Qed.

Lemma renewLock_steady (cfg : Config.t) (now : Z) (i : string) (u : User.t)
    (s : Store.t) :
  steady s (LockService.renewLock cfg now i u s).2.
Proof.
  unfold LockService.renewLock.
  destruct (getLockStatus_run now i (User.id u) s) as (ls & L & Hls).
  rewrite (bind_Ok _ _ _ _ _ Hls).
  apply (steady_trans _ (Store.setLocks (λ _, L) s));
    [apply quiet_steady, quiet_setLocks |].
  destruct (negb (LockStatusResponse.isLocked ls)
            || negb (LockStatusResponse.canEdit ls)).
  - apply acquireLock_steady.
  - apply acquire_then_mark_steady.
Qed.

Lemma exists_run (i : string) (s : Store.t) :
  FileArticleRepository.exists_ i s
  = (Ok (bool_decide (is_Some (Store.articles s !! i))), s).
Proof.
  unfold FileArticleRepository.exists_.
  by rewrite (bind_Ok _ _ _ _ _ (findById_run i s)).
Qed.

Lemma releaseLock_steady (now : Z) (i : string) (u : User.t) (s : Store.t) :
  steady s (LockService.releaseLock now i u s).2.
Proof.
  unfold LockService.releaseLock.
  rewrite (bind_Ok _ _ _ _ _ (exists_run i s)).
  destruct (negb (bool_decide (is_Some (Store.articles s !! i))));
    [apply steady_refl |].
  rewrite (bind_Ok _ _ _ _ _ (throwIf_false _ _)).
  destruct (getLockStatus_run now i (User.id u) s) as (ls & L & Hls).
  rewrite (bind_Ok _ _ _ _ _ Hls).
  apply (steady_trans _ (Store.setLocks (λ _, L) s));
    [apply quiet_steady, quiet_setLocks |].
  destruct (LockStatusResponse.isLocked ls
            && negb (LockStatusResponse.canEdit ls)
            && negb (hasPermission u article_edit_all));
    [apply steady_refl |].
  rewrite (bind_Ok _ _ _ _ _ (throwIf_false _ _)).
  match goal with
  | |- context [FileLockRepository.releaseLock i ?who] =>
      destruct (releaseLock_run i who (Store.setLocks (λ _, L) s))
        as (b & L' & Hrel)
  end.
  rewrite (bind_Ok _ _ _ _ _ Hrel).
  apply (steady_trans _ (Store.setLocks (λ _, L') (Store.setLocks (λ _, L) s)));
    [apply quiet_steady, quiet_setLocks |].
  destruct b.
  - unfold LockService.clearArticleLockInfo.
    rewrite (bind_Ok _ _ _ _ tt) by reflexivity. simpl.
    by eapply steady_alter; [apply withLockInfo_view | |].
  - rewrite (bind_Ok _ _ _ _ tt) by reflexivity. apply steady_refl.
Qed.

Lemma getLockStatus_steady (now : Z) (i : string) (u : User.t) (s : Store.t) :
  steady s (LockService.getLockStatus now i u s).2.
Proof.
  unfold LockService.getLockStatus.
  rewrite (bind_Ok _ _ _ _ _ (exists_run i s)).
  destruct (negb (bool_decide (is_Some (Store.articles s !! i))));
    [apply steady_refl |].
  rewrite (bind_Ok _ _ _ _ _ (throwIf_false _ _)).
  destruct (getLockStatus_run now i (User.id u) s) as (ls & L & ->).
  apply quiet_steady, quiet_setLocks.
Qed.

Lemma comment_create_steady (trim : string → string) (now : Z)
    (uuid i content : string) (u : User.t) (s : Store.t) :
  steady s (CommentService.create trim now uuid i content u s).2.
Proof.
  unfold CommentService.create.
  destruct (negb (hasPermission u comment_create)); [apply steady_refl |].
  rewrite (bind_Ok _ _ _ _ _ (throwIf_false _ _)).
  rewrite (bind_Ok _ _ _ _ _ (findById_run i s)).
  destruct (Store.articles s !! i) as [a |]; [| apply steady_refl].
  destruct (negb (bool_decide (Article.status a = published)));
    [apply steady_refl |].
  rewrite (bind_Ok _ _ _ _ _ (throwIf_false _ _)).
  destruct (negb (ArticleService.isValid
                    (CommentService.validateCommentInput trim content)));
    [apply steady_refl |].
  rewrite (bind_Ok _ _ _ _ _ (throwIf_false _ _)).
  apply quiet_steady. by split.
Qed.

Lemma permanentDelete_outcome (i : string) (u : User.t) (s : Store.t) :
  (∃ e, ArticleService.permanentDelete i u s = (Err e, s))
  ∨ (∃ s',
       ArticleService.permanentDelete i u s = (Ok tt, s')
       ∧ Store.articles s' = delete i (Store.articles s)
       ∧ Store.versions s' = delete i (Store.versions s)).
Proof.
  unfold ArticleService.permanentDelete.
  destruct (negb (hasPermission u article_delete_all)); [left; by eexists |].
  rewrite (bind_Ok _ _ _ _ _ (throwIf_false _ _)).
  rewrite (bind_Ok _ _ _ _ _ (findById_run i s)).
  destruct (Store.articles s !! i) as [a |] eqn:Ha; [| left; by eexists].
  destruct (negb (bool_decide (Article.status a = deleted)));
    [left; by eexists |].
  rewrite (bind_Ok _ _ _ _ _ (throwIf_false _ _)).
  unfold FileVersionRepository.deleteVersions.
  rewrite (bind_Ok _ _ s (Store.setVersions (delete i) s) tt) by reflexivity.
  unfold FileArticleRepository.hardDelete.
  rewrite (bind_Ok _ _ _ _ _ (exists_run i _)). simpl Store.articles.
  rewrite Ha. rewrite bool_decide_eq_true_2 by eauto. simpl negb.
  rewrite (bind_Ok _ _ _ _ _ (throwIf_false _ _)).
  right. eexists. split; [reflexivity |]. by split.
Qed.

Lemma inStep_key (s : Store.t) (i : string) (a : Article.t) :
  inStep s → Store.articles s !! i = Some a → Article.id a = i.
Proof. intros Hinv Ha. specialize (Hinv i). rewrite Ha in Hinv. tauto. Qed.

Lemma handle_explained (req : Request) (s : Store.t) :
  inStep s → freshIds req s →
  explains (effectOf req (handle req s).1) s (handle req s).2.
Proof.
  intros Hinv Hfresh.
  destruct req as [now ua uv input u | now uv i input u reason | now uv i u
                  | now uv i u | now uv i u | now uv i u | now uv i n u
                  | i u | now i u | cfg now i u | cfg now i u | now i u
                  | now i u | trim now uuid i content u];
    unfold handle, finish; cbn [fst snd];
    try (destruct (Store.articles s !! i) as [a |] eqn:Ha;
         [pose proof (inStep_key s i a Hinv Ha) as Hkey
         | pose proof (missing_article_outcomes s i now uv u Ha)
             as (Hupd & Hdel & Hres & Hpub & Harc & Hrv & _)]).
  - (* create *)
    destruct (create_outcome now ua uv input u s)
      as [(e & -> & _) | (r & v & s' & -> & _ & -> & Hw)]; simpl.
    + apply steady_refl.
    + split; [exact Hfresh |]. by eexists _, _.
  - (* update *)
    destruct (update_outcome s i a Ha Hkey now uv u input reason)
      as [(e & s1 & -> & Hq & _) | (r & v & s' & -> & _ & -> & Hw)]; simpl.
    + by apply quiet_steady.
    + by eexists _, _, _.
  - rewrite Hupd. apply steady_refl.
  - (* delete *)
    destruct (delete_outcome s i a Ha Hkey now uv u)
      as [(e & -> & _) | (r & v & s' & -> & _ & -> & Hw)]; simpl.
    + apply steady_refl.
    + by eexists _, _, _.
  - rewrite Hdel. apply steady_refl.
  - (* restore from trash *)
    destruct (restore_outcome s i a Ha Hkey now uv u)
      as [(e & -> & _) | (r & v & s' & -> & _ & _ & -> & Hw)]; simpl.
    + apply steady_refl.
    + by eexists _, _, _.
  - rewrite Hres. apply steady_refl.
  - (* publish *)
    destruct (publish_outcome s i a Ha Hkey now uv u)
      as [(e & -> & _) | (r & v & s' & -> & _ & _ & -> & Hw)]; simpl.
    + apply steady_refl.
    + by eexists _, _, _.
  - rewrite Hpub. apply steady_refl.
  - (* archive *)
    destruct (archive_outcome s i a Ha Hkey now uv u)
      as [(e & -> & _) | (r & v & s' & -> & _ & _ & -> & Hw)]; simpl.
    + apply steady_refl.
    + by eexists _, _, _.
  - destruct Harc as (e & ->). apply steady_refl.
  - (* restore to a version *)
    destruct (restoreVersion_outcome s i a Ha Hkey now uv u n)
      as [(e & -> & _) | (r & v & s' & -> & _ & Hver & Hid & Hw)]; simpl.
    + apply steady_refl.
    + exists a, r, v. repeat split; try done; [apply Hw.. | congruence].
  - rewrite Hrv. apply steady_refl.
  - (* permanent delete *)
    destruct (permanentDelete_outcome i u s)
      as [(e & ->) | (s' & -> & Harts & Hvers)]; simpl.
    + apply steady_refl.
    + by split.
  - (* get by id *)
    pose proof (getById_steady now i u s) as Hs.
    by destruct (ArticleService.getById now i u s) as [[r | e] s'].
  - pose proof (acquireLock_steady cfg now i u s) as Hs.
    by destruct (LockService.acquireLock cfg now i u s) as [[r | e] s'].
  - pose proof (renewLock_steady cfg now i u s) as Hs.
    by destruct (LockService.renewLock cfg now i u s) as [[r | e] s'].
  - pose proof (releaseLock_steady now i u s) as Hs.
    by destruct (LockService.releaseLock now i u s) as [[r | e] s'].
  - pose proof (getLockStatus_steady now i u s) as Hs.
    by destruct (LockService.getLockStatus now i u s) as [[r | e] s'].
  - pose proof (comment_create_steady trim now uuid i content u s) as Hs.
    by destruct (CommentService.create trim now uuid i content u s)
      as [[r | e] s'].
Qed.

Lemma reachable_inStep (s : Store.t) : Reachable s → inStep s.
Proof.
  induction 1 as [s Harts Hvers | s req _ IH Hfresh].
  - intros i. by rewrite Harts, Hvers, !lookup_empty.
  - eapply explains_inStep; [by apply handle_explained | exact IH].
Qed.






(** * Role hierarchy, permissions and route guards *)

Lemma hasMinimumRole_includes (r1 r2 : UserRole) (p : Permission) :
  hasMinimumRole r1 r2 = true →
  includes (ROLE_PERMISSIONS r2) p = true →
  includes (ROLE_PERMISSIONS r1) p = true.
Proof. by destruct r1, r2, p. Qed.

(** X1. The role hierarchy and the permission table agree: a role is at
    least another one in [ROLE_HIERARCHY] exactly when it holds every
    permission the other one holds. *)
Theorem hasMinimumRole_iff_permissions (u1 u2 : User.t) :
  hasMinimumRole (User.role u1) (User.role u2) = true
  ↔ ∀ p, hasPermission u2 p = true → hasPermission u1 p = true.
Proof.
  unfold hasPermission. split.
  - intros Hmin p. by apply hasMinimumRole_includes.
  - intros Hall.
    destruct (User.role u1), (User.role u2); try done;
      first [ by specialize (Hall comment_create eq_refl)
            | by specialize (Hall article_create eq_refl)
            | by specialize (Hall article_archive eq_refl) ].
Qed.

Lemma requireRole_run (role : UserRole) (u : User.t) (s : Store.t) :
  auth.requireRole role (Some u) s
  = if hasMinimumRole (User.role u) role then (Ok tt, s)
    else (Err (UnauthorizedError
                 ("This action requires " +:+ roleName role
                  +:+ " role or higher")), s).
Proof.
  unfold auth.requireRole, hasMinimumRole.
  by destruct (User.role u), role.
Qed.

(** X2. The role guard of each of the 14 guarded routes lets a user
    through exactly when the user's role holds the route's permission in
    [ROLE_PERMISSIONS] ([servicePermission]: the [own] variant where the
    service distinguishes own and foreign records, [article:edit:own] for
    the three lock routes); a user it stops gets a 401 and the store is
    not touched; a request without user is stopped as well. *)
Theorem requireRole_matches_service (route : GuardedRoute) (u : User.t)
    (s : Store.t) :
  let guard := auth.requireRole (minimumRole route) in
  (guard (Some u) s = (Ok tt, s)
   ↔ hasPermission u (servicePermission route) = true)
  ∧ (hasPermission u (servicePermission route) = false
     ↔ ∃ e, guard (Some u) s = (Err e, s) ∧ statusCode e = 401)
  ∧ guard None s = (Err (UnauthorizedError "Authentication required"), s).
Proof.
  intros guard. unfold guard. rewrite requireRole_run.
  unfold hasPermission.
  destruct route, (User.role u); simpl; (split; [|split]); try done;
    try (split; [done|]); try (split; [|done]);
    try (by intros [e [? ?]]); try (by intros _; eexists).
Qed.

(** * Lock files: status, release, renewal and the cleanup job *)

Lemma setLocks_id_of_none (i : string) (s : Store.t) :
  Store.locks s !! i = None → Store.setLocks (delete i) s = s.
Proof.
  intros Hnone. destruct s as [a v l c m]. unfold Store.setLocks. simpl in *.
  by rewrite delete_id.
Qed.

Lemma repo_getLockStatus_cases (now : Z) (i who : string) (s : Store.t) :
  FileLockRepository.getLockStatus now i who s
  = match Store.locks s !! i with
    | None =>
        (Ok {| LockStatusResponse.isLocked := false;
               LockStatusResponse.lock := None;
               LockStatusResponse.canEdit := true;
               LockStatusResponse.message := None |}, s)
    | Some l =>
        if FileLockRepository.isExpired now l then
          (Ok {| LockStatusResponse.isLocked := false;
                 LockStatusResponse.lock := None;
                 LockStatusResponse.canEdit := true;
                 LockStatusResponse.message :=
                   Some "Previous edit lock has expired" |},
           Store.setLocks (delete i) s)
        else
          (Ok {| LockStatusResponse.isLocked := true;
                 LockStatusResponse.lock := Some l;
                 LockStatusResponse.canEdit :=
                   bool_decide (ArticleLock.lockedBy l = who);
                 LockStatusResponse.message :=
                   Some (if bool_decide (ArticleLock.lockedBy l = who)
                         then "You have the edit lock"
                         else "Article is being edited by "
                              +:+ ArticleLock.lockedByName l) |}, s)
    end.
Proof.
  unfold FileLockRepository.getLockStatus, FileLockRepository.loadLock,
    FileLockRepository.deleteLock. unfold_monad.
  destruct (Store.locks s !! i) as [l |]; [|done].
  by destruct (FileLockRepository.isExpired now l).
Qed.

Lemma repo_releaseLock_cases (i who : string) (s : Store.t) :
  FileLockRepository.releaseLock i who s
  = match Store.locks s !! i with
    | None => (Ok true, s)
    | Some l =>
        if bool_decide (ArticleLock.lockedBy l = who)
        then (Ok true, Store.setLocks (delete i) s)
        else (Ok false, s)
    end.
Proof.
  unfold FileLockRepository.releaseLock, FileLockRepository.loadLock,
    FileLockRepository.deleteLock. unfold_monad.
  destruct (Store.locks s !! i) as [l |]; [|done].
  by destruct (bool_decide (ArticleLock.lockedBy l = who)).
Qed.

Lemma isExpired_false (now : Z) (l : ArticleLock.t) :
  FileLockRepository.isExpired now l = false ↔ now ≤ ArticleLock.expiresAt l.
Proof. unfold FileLockRepository.isExpired. by rewrite Z.ltb_ge. Qed.

Lemma isExpired_true (now : Z) (l : ArticleLock.t) :
  FileLockRepository.isExpired now l = true ↔ ArticleLock.expiresAt l < now.
Proof. unfold FileLockRepository.isExpired. by rewrite Z.ltb_lt. Qed.

(** X3. [getLockStatus] of the lock store reports a lock exactly when a
    lock file exists that has not expired, lets only the holder edit, and
    removes an expired lock file while reporting the article as free;
    [isLocked] gives the same answer but leaves the expired file in
    place. *)
Theorem getLockStatus_reaps_expired (now : Z) (i who : string) (s : Store.t) :
  let run := FileLockRepository.getLockStatus now i who s in
  ∃ st,
    run.1 = Ok st
    ∧ (LockStatusResponse.isLocked st = true
       ↔ ∃ l, Store.locks s !! i = Some l ∧ now ≤ ArticleLock.expiresAt l)
    ∧ (LockStatusResponse.isLocked st = true →
       LockStatusResponse.lock st = Store.locks s !! i
       ∧ run.2 = s
       ∧ (LockStatusResponse.canEdit st = true
          ↔ ArticleLock.lockedBy <$> Store.locks s !! i = Some who))
    ∧ (LockStatusResponse.isLocked st = false →
       LockStatusResponse.lock st = None
       ∧ LockStatusResponse.canEdit st = true
       ∧ run.2 = Store.setLocks (delete i) s
       ∧ Store.locks run.2 !! i = None)
    ∧ FileLockRepository.isLocked now i s
      = (Ok (LockStatusResponse.isLocked st), s).
Proof.
  intros run. unfold run. rewrite repo_getLockStatus_cases.
  unfold FileLockRepository.isLocked, FileLockRepository.loadLock.
  unfold_monad.
  destruct (Store.locks s !! i) as [l |] eqn:Hl.
  - destruct (FileLockRepository.isExpired now l) eqn:Hexp; simpl.
    + apply isExpired_true in Hexp.
      eexists. split; [done|]. simpl. repeat split; try done.
      * intros (l' & [= <-] & Hlive). lia.
      * apply lookup_delete_eq.
    + apply isExpired_false in Hexp.
      eexists. split; [done|]. simpl. repeat split; try done.
      * by exists l.
      * intros Hcan. apply bool_decide_eq_true in Hcan. by rewrite Hcan.
      * intros [= Hwho]. by apply bool_decide_eq_true.
  - eexists. split; [done|]. simpl. repeat split; try done.
    + by intros (l' & [=] & _).
    + by rewrite setLocks_id_of_none.
Qed.

(** X4. [releaseLock] of the lock store removes a lock file only for the
    user named in it: it answers [false] and changes nothing exactly when
    the file names another user (expired or not), and answers [true] with
    no lock file left in every other case. *)
Theorem releaseLock_only_by_holder (i who : string) (s : Store.t) :
  let run := FileLockRepository.releaseLock i who s in
  ∃ released,
    run.1 = Ok released
    ∧ (released = false
       ↔ ∃ l, Store.locks s !! i = Some l ∧ ArticleLock.lockedBy l ≠ who)
    ∧ (released = false → run.2 = s)
    ∧ (released = true →
       run.2 = Store.setLocks (delete i) s
       ∧ Store.locks run.2 !! i = None
       ∧ ∀ j, j ≠ i → Store.locks run.2 !! j = Store.locks s !! j).
Proof.
  intros run. unfold run. rewrite repo_releaseLock_cases.
  destruct (Store.locks s !! i) as [l |] eqn:Hl.
  - destruct (bool_decide (ArticleLock.lockedBy l = who)) eqn:Hwho.
    + apply bool_decide_eq_true in Hwho.
      exists true. simpl. repeat split; try done.
      * by intros (l' & [= <-] & Hne).
      * apply lookup_delete_eq.
      * intros j Hj. by apply lookup_delete_ne.
    + apply bool_decide_eq_false in Hwho.
      exists false. simpl. repeat split; try done.
      by exists l.
  - exists true. simpl. repeat split; try done;
      first [ by intros (l' & [=] & _) | by rewrite setLocks_id_of_none ].
Qed.

Lemma setLocks_delete_insert (i : string) (l : ArticleLock.t) (s : Store.t) :
  Store.locks s !! i = None →
  Store.setLocks (delete i) (Store.setLocks (insert i l) s) = s.
Proof.
  intros Hnone. destruct s as [a v m c k]. unfold Store.setLocks. simpl in *.
  by rewrite delete_insert_id.
Qed.

(** X5. Acquiring the lock of a free article and releasing it again gives
    back the store as it was; one user's release of a lock another user
    has just acquired answers [false] and leaves the lock in place. *)
Theorem acquire_release_round_trip (cfg : Config.t) (now : Z)
    (i who name other : string) (s : Store.t) :
  Store.locks s !! i = None →
  let acquired := FileLockRepository.acquireLock cfg now i who name s in
  FileLockRepository.releaseLock i who acquired.2 = (Ok true, s)
  ∧ (other ≠ who →
     FileLockRepository.releaseLock i other acquired.2
     = (Ok false, acquired.2)
     ∧ Store.locks acquired.2 !! i
       = Some (FileLockRepository.createLock cfg now i who name)).
Proof.
  intros Hfree acquired. unfold acquired.
  rewrite (acquireLock_free cfg now i who name s Hfree). simpl.
  rewrite !repo_releaseLock_cases. simpl.
  rewrite lookup_insert_eq. simpl.
  rewrite bool_decide_eq_true_2 by done.
  split; [by rewrite setLocks_delete_insert|].
  intros Hother. rewrite bool_decide_eq_false_2 by done. done.
Qed.

Lemma acquire_release_round_trip_witness :
  FileLockRepository.releaseLock "a1" "author-001"
    (FileLockRepository.acquireLock Config.default 10 "a1"
       "author-001" "Author User" (Sample.storeWith Sample.draftArticle 1)).2
  = (Ok true, Sample.storeWith Sample.draftArticle 1).
Proof.
  by apply (acquire_release_round_trip Config.default 10 "a1" "author-001"
              "Author User" "editor-001"
              (Sample.storeWith Sample.draftArticle 1)).
Defined.

(** * File names and the identifiers read back from them *)

Lemma endsWith_app (suffix k : string) : endsWith suffix (k +:+ suffix) = true.
Proof.
  induction k as [| c k IH]; simpl.
  - destruct suffix; simpl; [done|]. by rewrite bool_decide_eq_true_2.
  - by rewrite IH, orb_true_r.
Qed.

Lemma stripPrefix_app (p rest : string) : stripPrefix p (p +:+ rest) = Some rest.
Proof.
  induction p as [| c p IH]; simpl.
  - by destruct rest.
  - by rewrite bool_decide_eq_true_2.
Qed.

Lemma stripPrefix_same (p : string) : stripPrefix p p = Some "".
Proof.
  induction p as [| c p IH]; simpl; [done|]. by rewrite bool_decide_eq_true_2.
Qed.

(** An identifier without the character [d] is read back from its file
    name by removing the extension, when the extension starts with [d]. *)
Lemma removeFirst_app (d : Ascii.ascii) (ext k : string) :
  includesString (String d "") k = false →
  removeFirst (String d ext) (k +:+ String d ext) = k.
Proof.
  induction k as [| c k IH]; intros Hk.
  - change ("" +:+ String d ext) with (String d ext).
    destruct ext; cbn [removeFirst]; by rewrite stripPrefix_same.
  - simpl in Hk. apply orb_false_iff in Hk as [Hc Hk].
    change (String c k +:+ String d ext) with (String c (k +:+ String d ext)).
    cbn [removeFirst stripPrefix].
    destruct (bool_decide (d = c)) eqn:Hd.
    + exfalso. unfold startsWith in Hc. simpl in Hc. rewrite Hd in Hc.
      by destruct k.
    + by rewrite IH.
Qed.

Lemma lock_file_round_trip (k : string) :
  includesString "." k = false →
  removeFirst ".lock.json" (FileLockRepository.getFilePath k) = k.
Proof. apply removeFirst_app. Qed.

Lemma comment_file_round_trip (k : string) :
  includesString "." k = false →
  removeFirst ".json" (FileCommentRepository.getFilePath k) = k.
Proof. apply removeFirst_app. Qed.

(** * The cleanup job of the lock store *)

Lemma setLocks_setLocks (f g : gmap string ArticleLock.t →
                               gmap string ArticleLock.t) (s : Store.t) :
  Store.setLocks f (Store.setLocks g s) = Store.setLocks (f ∘ g) s.
Proof. done. Qed.

Lemma size_delete_present {A} (m : gmap string A) (k : string) (x : A) :
  m !! k = Some x → size m = S (size (delete k m)).
Proof.
  intros Hk. rewrite <- (insert_delete_id m k x Hk) at 1.
  rewrite map_size_insert_None; [done|]. apply lookup_delete_eq.
Qed.

Lemma decide_mem_cons {A} (j k : string) (ks : list string) (x y : A) :
  (if decide (j ∈ k :: ks) then x else y)
  = if decide (j = k) then x else if decide (j ∈ ks) then x else y.
Proof.
  destruct (decide (j = k)) as [-> | Hne].
  - rewrite decide_True; [done|]. apply elem_of_cons. by left.
  - destruct (decide (j ∈ ks)) as [Hin | Hin].
    + rewrite decide_True; [done|]. apply elem_of_cons. by right.
    + rewrite decide_False; [done|]. by intros [? | ?]%elem_of_cons.
Qed.

Lemma cleanFiles_run (now : Z) (ks : list string) :
  ∀ (c : Z) (s : Store.t),
    NoDup ks →
    (∀ k, k ∈ ks →
          removeFirst ".lock.json" (FileLockRepository.getFilePath k) = k) →
    ∃ m',
      FileLockRepository.cleanFiles now (FileLockRepository.getFilePath <$> ks)
        c s
      = (Ok (c + (Z.of_nat (size (Store.locks s)) - Z.of_nat (size m'))),
         Store.setLocks (λ _, m') s)
      ∧ ∀ j, m' !! j = if decide (j ∈ ks) then kept now (Store.locks s !! j)
                       else Store.locks s !! j.
Proof.
  induction ks as [| k ks IH]; intros c s Hnd Hrt.
  - exists (Store.locks s). split.
    + simpl. unfold ret. rewrite setLocks_same. f_equal. f_equal. lia.
    + intros j. case_decide as Hin; [by apply elem_of_nil in Hin | done].
  - apply NoDup_cons in Hnd as [Hk Hnd].
    assert (Hrest : ∀ k', k' ∈ ks →
              removeFirst ".lock.json" (FileLockRepository.getFilePath k')
              = k').
    { intros k' Hk'. apply Hrt. apply elem_of_cons. by right. }
    rewrite fmap_cons. cbn [FileLockRepository.cleanFiles].
    unfold FileLockRepository.getFilePath at 1.
    rewrite endsWith_app. cbn [negb].
    fold (FileLockRepository.getFilePath k).
    rewrite (Hrt k) by (apply elem_of_cons; by left).
    assert (Hload : FileLockRepository.loadLock k s
                    = (Ok (Store.locks s !! k), s)) by done.
    rewrite (bind_Ok _ _ _ _ _ Hload).
    destruct (Store.locks s !! k) as [l |] eqn:Hl;
      [destruct (FileLockRepository.isExpired now l) eqn:Hexp|].
    + assert (Hdel : FileLockRepository.deleteLock k s
                     = (Ok tt, Store.setLocks (delete k) s)) by done.
      rewrite (bind_Ok _ _ _ _ _ Hdel).
      destruct (IH (c + 1) (Store.setLocks (delete k) s) Hnd Hrest)
        as (m' & Hrun & Hm').
      exists m'. rewrite Hrun. split.
      * rewrite setLocks_setLocks. simpl.
        rewrite (size_delete_present _ _ _ Hl). f_equal. f_equal. lia.
      * intros j. rewrite Hm', decide_mem_cons. simpl.
        destruct (decide (j = k)) as [-> |Hne].
        -- rewrite decide_False by done.
           rewrite lookup_delete_eq, Hl. simpl. by rewrite Hexp.
        -- by rewrite lookup_delete_ne.
    + destruct (IH c s Hnd Hrest) as (m' & Hrun & Hm').
      exists m'. rewrite Hrun. split; [done|].
      intros j. rewrite Hm', decide_mem_cons.
      destruct (decide (j = k)) as [-> |Hne]; [|done].
      rewrite decide_False by done. rewrite Hl. simpl. by rewrite Hexp.
    + destruct (IH c s Hnd Hrest) as (m' & Hrun & Hm').
      exists m'. rewrite Hrun. split; [done|].
      intros j. rewrite Hm', decide_mem_cons.
      destruct (decide (j = k)) as [-> |Hne]; [|done].
      rewrite decide_False by done. by rewrite Hl.
Qed.

(** X6. The cleanup job removes exactly the expired lock files: when every
    lock file name gives back its article id, [cleanExpiredLocks] leaves
    the locks that have not expired, untouched, removes every other one,
    changes nothing else in the store, and returns the number of files it
    removed. *)
Theorem cleanExpiredLocks_removes_expired (now : Z) (s : Store.t) :
  (∀ k, is_Some (Store.locks s !! k) →
        removeFirst ".lock.json" (FileLockRepository.getFilePath k) = k) →
  ∃ cleaned s',
    FileLockRepository.cleanExpiredLocks now s = (Ok cleaned, s')
    ∧ s' = Store.setLocks (λ _, Store.locks s') s
    ∧ (∀ k l, Store.locks s' !! k = Some l
              ↔ Store.locks s !! k = Some l ∧ now ≤ ArticleLock.expiresAt l)
    ∧ cleaned
      = Z.of_nat (size (Store.locks s)) - Z.of_nat (size (Store.locks s'))
    ∧ 0 ≤ cleaned.
Proof.
  intros Hrt. unfold FileLockRepository.cleanExpiredLocks.
  assert (Hdir : FileLockRepository.readdir s
                 = (Ok (FileLockRepository.getFilePath
                          <$> (map_to_list (Store.locks s)).*1), s)) by done.
  rewrite (bind_Ok _ _ _ _ _ Hdir).
  destruct (cleanFiles_run now (map_to_list (Store.locks s)).*1 0 s)
    as (m' & Hrun & Hm').
  { apply NoDup_fst_map_to_list. }
  { intros k Hk. apply Hrt. apply list_elem_of_fmap in Hk as [[k' l] [-> Hin]].
    apply elem_of_map_to_list in Hin. by exists l. }
  assert (Hkept : ∀ j, m' !! j = kept now (Store.locks s !! j)).
  { intros j. rewrite Hm'. case_decide as Hin; [done|].
    destruct (Store.locks s !! j) as [l |] eqn:Hl; [|done].
    exfalso. apply Hin. apply list_elem_of_fmap. exists (j, l).
    split; [done|]. by apply elem_of_map_to_list. }
  assert (Hsub : m' ⊆ Store.locks s).
  { apply map_subseteq_spec. intros j l. rewrite Hkept.
    destruct (Store.locks s !! j) as [l' |]; [|done]. simpl.
    by destruct (FileLockRepository.isExpired now l'). }
  exists (0 + (Z.of_nat (size (Store.locks s)) - Z.of_nat (size m'))),
         (Store.setLocks (λ _, m') s).
  split; [done|]. split; [done|]. split; [|split].
  - intros k l. cbn [Store.locks Store.setLocks]. rewrite Hkept.
    destruct (Store.locks s !! k) as [l' |]; simpl.
    + destruct (FileLockRepository.isExpired now l') eqn:Hexp.
      * apply isExpired_true in Hexp. split; [done|].
        intros [[= ->] Hlive]. lia.
      * apply isExpired_false in Hexp. split.
        -- by intros [= ->].
        -- by intros [[= ->] _].
    + split; [done | by intros [? _]].
  - cbn [Store.locks Store.setLocks]. lia.
  - apply map_subseteq_size in Hsub. cbn [Store.locks Store.setLocks]. lia.
Qed.

Lemma cleanExpiredLocks_removes_expired_witness :
  ∃ cleaned s',
    FileLockRepository.cleanExpiredLocks 2000 Sample.lockedDraft
    = (Ok cleaned, s')
    ∧ s' = Store.setLocks (λ _, Store.locks s') Sample.lockedDraft
    ∧ (∀ k l, Store.locks s' !! k = Some l
              ↔ Store.locks Sample.lockedDraft !! k = Some l
                ∧ 2000 ≤ ArticleLock.expiresAt l)
    ∧ cleaned
      = Z.of_nat (size (Store.locks Sample.lockedDraft))
        - Z.of_nat (size (Store.locks s'))
    ∧ 0 ≤ cleaned.
Proof.
  apply (cleanExpiredLocks_removes_expired 2000 Sample.lockedDraft).
  intros k [l Hl]. apply lock_file_round_trip.
  destruct (decide (k = "a1")) as [-> |Hne]; [done|].
  unfold Sample.lockedDraft in Hl. simpl in Hl.
  by rewrite lookup_insert_ne in Hl.
Defined.

(** * The lock service and the calls that consult the lock store *)

Lemma service_releaseLock_cases (now : Z) (i : string) (u : User.t)
    (s : Store.t) (a : Article.t) :
  Store.articles s !! i = Some a →
  LockService.releaseLock now i u s
  = match Store.locks s !! i with
    | None =>
        (Ok true,
         Store.setArticles
           (alter (FileArticleRepository.withLockInfo None None None) i) s)
    | Some l =>
        if FileLockRepository.isExpired now l then
          (Ok true,
           Store.setArticles
             (alter (FileArticleRepository.withLockInfo None None None) i)
             (Store.setLocks (delete i) s))
        else if negb (bool_decide (ArticleLock.lockedBy l = User.id u))
                && negb (hasPermission u article_edit_all) then
          (Err (ForbiddenError
                  "You cannot release a lock held by another user"), s)
        else if bool_decide
                  (ArticleLock.lockedBy l
                   = orUser (Some (ArticleLock.lockedBy l)) u) then
          (Ok true,
           Store.setArticles
             (alter (FileArticleRepository.withLockInfo None None None) i)
             (Store.setLocks (delete i) s))
        else (Ok false, s)
    end.
Proof.
  intros Hfound. unfold LockService.releaseLock.
  rewrite (bind_Ok _ _ _ _ _ (exists_run i s)), Hfound.
  rewrite bool_decide_eq_true_2 by by eexists. simpl negb.
  rewrite (bind_Ok _ _ _ _ _ (throwIf_false _ _)).
  pose proof (repo_getLockStatus_cases now i (User.id u) s) as Hst.
  destruct (Store.locks s !! i) as [l |] eqn:Hl;
    [destruct (FileLockRepository.isExpired now l) eqn:Hexp|];
    rewrite (bind_Ok _ _ _ _ _ Hst); cbn [LockStatusResponse.isLocked
      LockStatusResponse.canEdit LockStatusResponse.lock andb negb].
  - rewrite (bind_Ok _ _ _ _ _ (throwIf_false _ _)).
    pose proof (repo_releaseLock_cases i (User.id u)
                  (Store.setLocks (delete i) s)) as Hrel.
    cbn [Store.locks Store.setLocks] in Hrel.
    rewrite lookup_delete_eq in Hrel.
    by rewrite (bind_Ok _ _ _ _ _ Hrel).
  - destruct (negb (bool_decide (ArticleLock.lockedBy l = User.id u))
              && negb (hasPermission u article_edit_all)) eqn:Hdeny.
    + by rewrite (bind_Err _ _ _ _ _ (throwIf_true _ _)).
    + rewrite (bind_Ok _ _ _ _ _ (throwIf_false _ _)).
      pose proof (repo_releaseLock_cases i
                    (orUser (Some (ArticleLock.lockedBy l)) u) s) as Hrel.
      rewrite Hl in Hrel.
      destruct (bool_decide
                  (ArticleLock.lockedBy l
                   = orUser (Some (ArticleLock.lockedBy l)) u));
        unfold orUser in Hrel;
        by rewrite (bind_Ok _ _ _ _ _ Hrel).
  - rewrite (bind_Ok _ _ _ _ _ (throwIf_false _ _)).
    pose proof (repo_releaseLock_cases i (User.id u) s) as Hrel.
    rewrite Hl in Hrel.
    by rewrite (bind_Ok _ _ _ _ _ Hrel).
Qed.

Lemma orUser_truthy (h : string) (u : User.t) :
  h ≠ "" → orUser (Some h) u = h.
Proof.
  intros Hh. unfold orUser, ArticleService.truthy.
  by rewrite bool_decide_eq_false_2.
Qed.

(** X7. [LockService.releaseLock] on an existing article: an answer [true]
    means no lock file is left and the lock fields of the cached article
    are cleared; it refuses with 403 exactly a user without
    [article:edit:all] facing a live lock of another user; and it answers
    [false], leaving the lock in place, only for a live lock whose holder id
    is the empty string and a caller with another id. *)
Theorem service_releaseLock_outcomes (now : Z) (i : string) (u : User.t)
    (s : Store.t) (a : Article.t) :
  Store.articles s !! i = Some a →
  let run := LockService.releaseLock now i u s in
  (run.1 = Ok true →
   Store.locks run.2 !! i = None
   ∧ Store.articles run.2 !! i
     = Some (FileArticleRepository.withLockInfo None None None a))
  ∧ (run.1 = Ok false →
     run.2 = s
     ∧ User.id u ≠ ""
     ∧ ∃ l, Store.locks s !! i = Some l
            ∧ now ≤ ArticleLock.expiresAt l
            ∧ ArticleLock.lockedBy l = "")
  ∧ (isForbidden run.1 = true
     ↔ hasPermission u article_edit_all = false
       ∧ ∃ l, Store.locks s !! i = Some l
              ∧ now ≤ ArticleLock.expiresAt l
              ∧ ArticleLock.lockedBy l ≠ User.id u)
  ∧ (isOk run.1 = true ∨ isForbidden run.1 = true).
Proof.
  intros Hfound run. unfold run.
  rewrite (service_releaseLock_cases now i u s a Hfound).
  assert (Hclear : ∀ s0, Store.articles s0 = Store.articles s →
            Store.articles
              (Store.setArticles
                 (alter (FileArticleRepository.withLockInfo None None None) i)
                 s0) !! i
            = Some (FileArticleRepository.withLockInfo None None None a)).
  { intros s0 Hs0. cbn [Store.articles Store.setArticles].
    by rewrite Hs0, lookup_alter_eq, Hfound. }
  destruct (Store.locks s !! i) as [l |] eqn:Hl;
    [destruct (FileLockRepository.isExpired now l) eqn:Hexp|].
  - apply isExpired_true in Hexp. cbn [fst snd].
    split; [|split; [done|split; [|by left]]].
    + intros _. split; [apply lookup_delete_eq | by apply Hclear].
    + split; [done|]. intros (_ & l' & [= <-] & Hlive & _). lia.
  - apply isExpired_false in Hexp.
    destruct (bool_decide (ArticleLock.lockedBy l = User.id u)) eqn:Hown;
      [apply bool_decide_eq_true in Hown
      |apply bool_decide_eq_false in Hown]; cbn [negb andb].
    + assert (Hwho : bool_decide
                (ArticleLock.lockedBy l
                 = orUser (Some (ArticleLock.lockedBy l)) u) = true).
      { apply bool_decide_eq_true. unfold orUser.
        by destruct (ArticleService.truthy (ArticleLock.lockedBy l)). }
      rewrite Hwho. cbn [fst snd].
      split; [|split; [done|split; [|by left]]].
      * intros _. split; [apply lookup_delete_eq | by apply Hclear].
      * split; [done|]. by intros (_ & l' & [= <-] & _ & Hne).
    + destruct (hasPermission u article_edit_all) eqn:Hall; cbn [negb].
      * destruct (decide (ArticleLock.lockedBy l = "")) as [Hempty | Hfull].
        -- rewrite bool_decide_eq_false_2.
           2:{ unfold orUser, ArticleService.truthy. rewrite Hempty.
               rewrite bool_decide_eq_true_2 by done. simpl.
               intros Heq. apply Hown. by rewrite Hempty. }
           cbn [fst snd].
           split; [done|]. split; [|split; [|by left]].
           ++ intros _. split; [done|]. split.
              ** intros Hu. apply Hown. by rewrite Hempty, Hu.
              ** by exists l.
           ++ split; [done | by intros [? _]].
        -- rewrite bool_decide_eq_true_2 by by rewrite orUser_truthy.
           cbn [fst snd].
           split; [|split; [done|split; [|by left]]].
           ++ intros _. split; [apply lookup_delete_eq | by apply Hclear].
           ++ split; [done | by intros [? _]].
      * cbn [fst snd isForbidden isOk].
        split; [done|]. split; [done|]. split; [|by right].
        split; [|done]. intros _. split; [done|]. by exists l.
  - cbn [fst snd].
    split; [|split; [done|split; [|by left]]].
    + intros _. split; [done | by apply Hclear].
    + split; [done|]. by intros (_ & l' & [=] & _).
Qed.

Lemma service_releaseLock_outcomes_witness :
  (LockService.releaseLock 500 "a1" Sample.editorUser Sample.lockedDraft).1
  = Ok true
  ∧ Store.locks
      (LockService.releaseLock 500 "a1" Sample.editorUser
         Sample.lockedDraft).2 !! "a1" = None.
Proof.
  split; [done|].
  by apply (service_releaseLock_outcomes 500 "a1" Sample.editorUser
              Sample.lockedDraft Sample.draftArticle).
Defined.

(** X8. The holder of a live lock renews it without any check of the
    article: [renewLock] succeeds and moves the expiry to
    [now + timeout] even when the article is gone or the holder may no
    longer edit it, where [acquireLock] refuses with 404 or 403. *)
Theorem renewLock_holder_unchecked (cfg : Config.t) (now : Z) (i : string)
    (u : User.t) (s : Store.t) (l : ArticleLock.t) :
  Store.locks s !! i = Some l →
  now ≤ ArticleLock.expiresAt l →
  ArticleLock.lockedBy l = User.id u →
  let fresh :=
    FileLockRepository.createLock cfg now i (User.id u) (User.displayName u) in
  LockService.renewLock cfg now i u s
  = (Ok {| LockAcquisitionResult.success := true;
           LockAcquisitionResult.lock := Some fresh;
           LockAcquisitionResult.message := "Lock renewed successfully" |},
     Store.setArticles
       (alter (FileArticleRepository.withLockInfo
                 (Some (User.id u)) (Some (User.displayName u)) (Some now)) i)
       (Store.setLocks (insert i fresh) s))
  ∧ ArticleLock.expiresAt fresh = now + Config.timeoutMs cfg
  ∧ (Store.articles s !! i = None →
     LockService.acquireLock cfg now i u s
     = (Err (NotFoundError "Article" i), s))
  ∧ (∀ a, Store.articles s !! i = Some a →
          ArticleService.canOwnOrAll u a article_edit_own article_edit_all
          = false →
          LockService.acquireLock cfg now i u s
          = (Err (ForbiddenError
                    "You do not have permission to edit this article"), s)).
Proof.
  intros Hl Hlive Hown fresh. split; [|split; [done|split]].
  - unfold LockService.renewLock.
    pose proof (repo_getLockStatus_cases now i (User.id u) s) as Hst.
    rewrite Hl in Hst. apply isExpired_false in Hlive as Hexp.
    rewrite Hexp in Hst.
    rewrite (bind_Ok _ _ _ _ _ Hst).
    cbn [LockStatusResponse.isLocked LockStatusResponse.canEdit].
    rewrite bool_decide_eq_true_2 by done. cbn [negb orb].
    rewrite (bind_Ok _ _ _ _ _
               (acquireLock_owner cfg now i (User.id u) (User.displayName u)
                  s l Hl Hlive Hown)).
    done.
  - intros Hnone. unfold LockService.acquireLock.
    by rewrite (bind_Ok _ _ _ _ _ (findById_run i s)), Hnone.
  - intros a Ha Hperm. unfold LockService.acquireLock.
    rewrite (bind_Ok _ _ _ _ _ (findById_run i s)), Ha, Hperm.
    by rewrite (bind_Err _ _ _ _ _ (throwIf_true _ _)).
Qed.

Lemma renewLock_holder_unchecked_witness :
  let s := Sample.lockedStore (Sample.lockOf "a1" Sample.authorUser 0 1000) in
  (∃ res s',
     LockService.renewLock Config.default 500 "a1" Sample.authorUser s
     = (Ok res, s')
     ∧ LockAcquisitionResult.success res = true
     ∧ ArticleLock.expiresAt <$> Store.locks s' !! "a1" = Some 1800500)
  ∧ LockService.acquireLock Config.default 500 "a1" Sample.authorUser s
    = (Err (NotFoundError "Article" "a1"), s).
Proof.
  intros s.
  destruct (renewLock_holder_unchecked Config.default 500 "a1"
              Sample.authorUser s
              (Sample.lockOf "a1" Sample.authorUser 0 1000))
    as (Hrun & _ & Hgone & _); [done | done | done |].
  split; [|by apply Hgone].
  eexists _, _. split; [exact Hrun|]. by split.
Defined.

(** * Updates and deletions against the lock store and the category counts *)

Lemma locks_updateArticleCount (c : string) (delta : Z) (s : Store.t) :
  Store.locks (FileCategoryRepository.updateArticleCount c delta s).2
  = Store.locks s.
Proof.
  rewrite updateArticleCount_run.
  by destruct (FileCategoryRepository.findByExactName c (Store.categories s)).
Qed.

Lemma comments_updateArticleCount (c : string) (delta : Z) (s : Store.t) :
  Store.comments (FileCategoryRepository.updateArticleCount c delta s).2
  = Store.comments s.
Proof.
  rewrite updateArticleCount_run.
  by destruct (FileCategoryRepository.findByExactName c (Store.categories s)).
Qed.

Lemma locks_movedCounts (old : string) (input : UpdateArticleInput.t)
    (s : Store.t) :
  Store.locks (movedCounts old input s) = Store.locks s.
Proof.
  unfold movedCounts. repeat case_match; try done.
  by rewrite !locks_updateArticleCount.
Qed.

Lemma articles_movedCounts (old : string) (input : UpdateArticleInput.t)
    (s : Store.t) :
  Store.articles (movedCounts old input s) = Store.articles s.
Proof.
  unfold movedCounts. repeat case_match; try done.
  by rewrite !articles_updateArticleCount.
Qed.

Section UpdateRun.

Variables (s : Store.t) (i : string) (a : Article.t).
Hypothesis Hfound : Store.articles s !! i = Some a.
Hypothesis Hkey : Article.id a = i.
Variables (now : Z) (vid : string) (u : User.t).
Variables (input : UpdateArticleInput.t) (reason : option string).
Hypothesis Hperm :
  ArticleService.canOwnOrAll u a article_edit_own article_edit_all = true.

Lemma update_conflict (l : ArticleLock.t) :
  Store.locks s !! i = Some l →
  now ≤ ArticleLock.expiresAt l →
  ArticleLock.lockedBy l ≠ User.id u →
  ArticleService.update now vid i input u reason s
  = (Err (ConflictError
            ("Article is currently being edited by "
             +:+ ArticleLock.lockedByName l)), s).
Proof.
  intros Hl Hlive Hother. unfold ArticleService.update.
  rewrite (bind_Ok _ _ _ _ _ (findById_run i s)), Hfound, Hperm.
  simpl negb. rewrite (bind_Ok _ _ _ _ _ (throwIf_false _ _)).
  pose proof (repo_getLockStatus_cases now i (User.id u) s) as Hst.
  rewrite Hl in Hst. apply isExpired_false in Hlive. rewrite Hlive in Hst.
  rewrite (bind_Ok _ _ _ _ _ Hst).
  cbn [LockStatusResponse.isLocked LockStatusResponse.canEdit
       LockStatusResponse.lock].
  rewrite bool_decide_eq_false_2 by done. cbn [negb andb].
  by rewrite (bind_Err _ _ _ _ _ (throwIf_true _ _)).
Qed.

Lemma update_run :
  (∀ l, Store.locks s !! i = Some l →
        now ≤ ArticleLock.expiresAt l →
        ArticleLock.lockedBy l = User.id u) →
  ArticleService.validateArticleInput input false = [] →
  let r := FileArticleRepository.applyUpdate now a input in
  ArticleService.update now vid i input u reason s
  = (Ok r,
     movedCounts (Article.category a) input
       (FileVersionRepository.createVersion now vid r
          (User.id u) (User.displayName u) reason
          (Store.setArticles (insert i r)
             (FileLockRepository.getLockStatus now i (User.id u) s).2)).2).
Proof.
  intros Hlock Hvalid r. unfold ArticleService.update.
  rewrite (bind_Ok _ _ _ _ _ (findById_run i s)), Hfound, Hperm.
  simpl negb. rewrite (bind_Ok _ _ _ _ _ (throwIf_false _ _)).
  pose proof (repo_getLockStatus_cases now i (User.id u) s) as Hst.
  rewrite Hvalid.
  assert (Hcan : ∀ l, Store.locks s !! i = Some l →
            FileLockRepository.isExpired now l = false →
            bool_decide (ArticleLock.lockedBy l = User.id u) = true).
  { intros l Hl Hexp. apply bool_decide_eq_true, Hlock; [done|].
    by apply isExpired_false. }
  destruct (Store.locks s !! i) as [l |] eqn:Hl;
    [destruct (FileLockRepository.isExpired now l) eqn:Hexp;
     [|rewrite (Hcan l eq_refl Hexp) in Hst]|];
    rewrite Hst; rewrite (bind_Ok _ _ _ _ _ Hst);
    cbn [LockStatusResponse.isLocked LockStatusResponse.canEdit
         andb negb snd];
    rewrite (bind_Ok _ _ _ _ _ (throwIf_false _ _));
    change (ArticleService.isValid []) with true; cbn [negb];
    rewrite (bind_Ok _ _ _ _ _ (throwIf_false _ _)).
  - rewrite (bind_Ok _ _ _ _ _
               (repo_update_run now i input (Store.setLocks (delete i) s) a
                  Hfound)).
    rewrite Hkey. fold r.
    rewrite (bind_Ok _ _ _ _ _ (createVersion_run _ _ _ _ _ _ _)).
    unfold movedCounts.
    destruct (UpdateArticleInput.category input) as [newCat |]; [|done].
    destruct (ArticleService.truthy newCat
              && negb (bool_decide (newCat = Article.category a))); [|done].
    by rewrite (bind_Ok _ _ _ _ _ (move_counts_run _ _ _)).
  - rewrite (bind_Ok _ _ _ _ _ (repo_update_run now i input s a Hfound)).
    rewrite Hkey. fold r.
    rewrite (bind_Ok _ _ _ _ _ (createVersion_run _ _ _ _ _ _ _)).
    unfold movedCounts.
    destruct (UpdateArticleInput.category input) as [newCat |]; [|done].
    destruct (ArticleService.truthy newCat
              && negb (bool_decide (newCat = Article.category a))); [|done].
    by rewrite (bind_Ok _ _ _ _ _ (move_counts_run _ _ _)).
  - rewrite (bind_Ok _ _ _ _ _ (repo_update_run now i input s a Hfound)).
    rewrite Hkey. fold r.
    rewrite (bind_Ok _ _ _ _ _ (createVersion_run _ _ _ _ _ _ _)).
    unfold movedCounts.
    destruct (UpdateArticleInput.category input) as [newCat |]; [|done].
    destruct (ArticleService.truthy newCat
              && negb (bool_decide (newCat = Article.category a))); [|done].
    by rewrite (bind_Ok _ _ _ _ _ (move_counts_run _ _ _)).
Qed.

End UpdateRun.

Lemma locks_createVersion (now : Z) (vid : string) (art : Article.t)
    (by_ name : string) (reason : option string) (s : Store.t) :
  Store.locks
    (FileVersionRepository.createVersion now vid art by_ name reason s).2
  = Store.locks s.
Proof. done. Qed.

Lemma articles_createVersion (now : Z) (vid : string) (art : Article.t)
    (by_ name : string) (reason : option string) (s : Store.t) :
  Store.articles
    (FileVersionRepository.createVersion now vid art by_ name reason s).2
  = Store.articles s.
Proof. done. Qed.

Lemma locks_getLockStatus (now : Z) (i who : string) (s : Store.t) :
  Store.locks (FileLockRepository.getLockStatus now i who s).2
  = match Store.locks s !! i with
    | Some l =>
        if FileLockRepository.isExpired now l
        then delete i (Store.locks s) else Store.locks s
    | None => Store.locks s
    end.
Proof.
  rewrite repo_getLockStatus_cases.
  destruct (Store.locks s !! i) as [l |]; [|done].
  by destruct (FileLockRepository.isExpired now l).
Qed.

Lemma categories_getLockStatus (now : Z) (i who : string) (s : Store.t) :
  Store.categories (FileLockRepository.getLockStatus now i who s).2
  = Store.categories s.
Proof.
  rewrite repo_getLockStatus_cases.
  destruct (Store.locks s !! i) as [l |]; [|done].
  by destruct (FileLockRepository.isExpired now l).
Qed.

(** X9. [ArticleService.update] and the edit lock: a live lock of another
    user stops the update of any caller, editors included, with a 409 that
    names the holder, and nothing is written; the holder's own live lock
    lets a valid update through and stays in place; an expired lock lets
    it through as well and its file is removed on the way. *)
Theorem update_checks_lock (s : Store.t) (i : string) (a : Article.t)
    (u : User.t) (now : Z) (vid : string) (input : UpdateArticleInput.t)
    (reason : option string) (l : ArticleLock.t) :
  Store.articles s !! i = Some a →
  Article.id a = i →
  ArticleService.canOwnOrAll u a article_edit_own article_edit_all = true →
  Store.locks s !! i = Some l →
  let run := ArticleService.update now vid i input u reason s in
  (now ≤ ArticleLock.expiresAt l →
   ArticleLock.lockedBy l ≠ User.id u →
   ∃ e, run = (Err e, s)
        ∧ e = ConflictError ("Article is currently being edited by "
                             +:+ ArticleLock.lockedByName l)
        ∧ statusCode e = 409)
  ∧ (ArticleService.validateArticleInput input false = [] →
     now ≤ ArticleLock.expiresAt l →
     ArticleLock.lockedBy l = User.id u →
     run.1 = Ok (FileArticleRepository.applyUpdate now a input)
     ∧ Store.locks run.2 !! i = Some l)
  ∧ (ArticleService.validateArticleInput input false = [] →
     ArticleLock.expiresAt l < now →
     run.1 = Ok (FileArticleRepository.applyUpdate now a input)
     ∧ Store.locks run.2 !! i = None).
Proof.
  intros Hfound Hkey Hperm Hl run. unfold run. split; [|split].
  - intros Hlive Hother. eexists. split; [|done].
    by apply (update_conflict s i a Hfound now vid u input reason Hperm l).
  - intros Hvalid Hlive Hown.
    rewrite (update_run s i a Hfound Hkey now vid u input reason Hperm);
      [|intros l' Hl' _; rewrite Hl in Hl'; by simplify_eq|done].
    split; [done|]. cbn [snd].
    rewrite locks_movedCounts, locks_createVersion.
    cbn [Store.locks Store.setArticles].
    rewrite locks_getLockStatus, Hl.
    apply isExpired_false in Hlive. by rewrite Hlive.
  - intros Hvalid Hexp.
    rewrite (update_run s i a Hfound Hkey now vid u input reason Hperm);
      [|intros l' Hl' Hlive'; rewrite Hl in Hl'; simplify_eq; lia|done].
    split; [done|]. cbn [snd].
    rewrite locks_movedCounts, locks_createVersion.
    cbn [Store.locks Store.setArticles].
    rewrite locks_getLockStatus, Hl.
    apply isExpired_true in Hexp. rewrite Hexp. apply lookup_delete_eq.
Qed.

Lemma update_checks_lock_witness :
  ∃ e,
    ArticleService.update 500 "v2" "a1" UpdateArticleInput.empty
      Sample.editorUser None Sample.lockedDraft
    = (Err e, Sample.lockedDraft)
    ∧ e = ConflictError "Article is currently being edited by Author User"
    ∧ statusCode e = 409.
Proof.
  by apply (update_checks_lock Sample.lockedDraft "a1" Sample.draftArticle
              Sample.editorUser 500 "v2" UpdateArticleInput.empty None
              (Sample.lockOf "a1" Sample.authorUser 0 1000)).
Defined.

Lemma articleCountOf_same_categories (s s' : Store.t) (c : string) :
  Store.categories s' = Store.categories s →
  articleCountOf s' c = articleCountOf s c.
Proof. intros Hc. unfold articleCountOf. by rewrite Hc. Qed.

(** X10. What a successful update does to the category counts: when the
    input names a non-empty category other than the article's, the old
    category loses one article (never going below zero) and the new one
    gains one; in every other case no count changes. In particular an
    update to the empty category name takes the article out of its
    category while that category still counts it. *)
Theorem update_moves_category_counts (s : Store.t) (i : string)
    (a : Article.t) (u : User.t) (now : Z) (vid : string)
    (input : UpdateArticleInput.t) (reason : option string) :
  Store.articles s !! i = Some a →
  Article.id a = i →
  ArticleService.canOwnOrAll u a article_edit_own article_edit_all = true →
  (∀ l, Store.locks s !! i = Some l →
        now ≤ ArticleLock.expiresAt l →
        ArticleLock.lockedBy l = User.id u) →
  ArticleService.validateArticleInput input false = [] →
  let run := ArticleService.update now vid i input u reason s in
  let old := Article.category a in
  ∃ r,
    run.1 = Ok r
    ∧ Store.articles run.2 !! i = Some r
    ∧ Article.category r = default old (UpdateArticleInput.category input)
    ∧ (∀ newCat,
         UpdateArticleInput.category input = Some newCat →
         newCat ≠ "" → newCat ≠ old →
         articleCountOf run.2 old
         = (λ n, Z.max 0 (n - 1)) <$> articleCountOf s old
         ∧ articleCountOf run.2 newCat
           = (λ n, Z.max 0 (n + 1)) <$> articleCountOf s newCat
         ∧ ∀ c, c ≠ old → c ≠ newCat →
                articleCountOf run.2 c = articleCountOf s c)
    ∧ (UpdateArticleInput.category input = None
       ∨ UpdateArticleInput.category input = Some ""
       ∨ UpdateArticleInput.category input = Some old →
       ∀ c, articleCountOf run.2 c = articleCountOf s c).
Proof.
  intros Hfound Hkey Hperm Hlock Hvalid run old. unfold run.
  rewrite (update_run s i a Hfound Hkey now vid u input reason Hperm Hlock
             Hvalid).
  set (r := FileArticleRepository.applyUpdate now a input).
  set (s1 := (FileVersionRepository.createVersion now vid r (User.id u)
                (User.displayName u) reason
                (Store.setArticles (insert i r)
                   (FileLockRepository.getLockStatus now i (User.id u)
                      s).2)).2).
  assert (Hcount1 : ∀ c, articleCountOf s1 c = articleCountOf s c).
  { intros c. unfold s1. rewrite articleCountOf_createVersion.
    apply articleCountOf_same_categories.
    cbn [Store.categories Store.setArticles].
    apply categories_getLockStatus. }
  exists r. cbn [fst snd]. split; [done|]. split; [|split; [done|split]].
  - rewrite articles_movedCounts. unfold s1.
    rewrite articles_createVersion. cbn [Store.articles Store.setArticles].
    apply lookup_insert_eq.
  - intros newCat Hnew Hfull Hmoved. unfold movedCounts. rewrite Hnew.
    unfold ArticleService.truthy.
    rewrite !bool_decide_eq_false_2 by done. cbn [negb andb].
    split; [|split].
    + rewrite updateArticleCount_other by done.
      by rewrite updateArticleCount_count, Hcount1.
    + rewrite updateArticleCount_count.
      rewrite updateArticleCount_other by done. by rewrite Hcount1.
    + intros c Hc1 Hc2.
      rewrite !updateArticleCount_other by done. apply Hcount1.
  - intros Hcase c. unfold movedCounts.
    destruct Hcase as [-> | [-> | ->]]; [apply Hcount1| |].
    + cbn [ArticleService.truthy]. apply Hcount1.
    + rewrite (bool_decide_eq_true_2 (old = Article.category a)) by done.
      cbn [negb]. rewrite andb_false_r. apply Hcount1.
Qed.

Lemma update_moves_category_counts_witness :
  ∃ r,
    (ArticleService.update 200 "v2" "a1"
       (UpdateArticleInput.mk None None (Some "") None None None None)
       Sample.authorUser None Sample.afterCreate).1 = Ok r
    ∧ Article.category r = ""
    ∧ articleCountOf
        (ArticleService.update 200 "v2" "a1"
           (UpdateArticleInput.mk None None (Some "") None None None None)
           Sample.authorUser None Sample.afterCreate).2 "Security" = Some 1.
Proof.
  destruct (update_moves_category_counts Sample.afterCreate "a1"
              (FileArticleRepository.newArticle 100 "a1" (Sample.vpnInput None)
                 "author-001" "Author User")
              Sample.authorUser 200 "v2"
              (UpdateArticleInput.mk None None (Some "") None None None None)
              None)
    as (r & Hr & _ & Hcat & _ & Hsame); try done.
  exists r. split; [done|]. split; [done|].
  rewrite Hsame by (right; by left). done.
Defined.

(** * Deletion, the lock store, and what permanent deletion leaves behind *)

Lemma delete_run_locks (s : Store.t) (i : string) (a : Article.t)
    (now : Z) (vid : string) (u : User.t) :
  Store.articles s !! i = Some a →
  Article.id a = i →
  ArticleService.canOwnOrAll u a article_delete_own article_delete_all = true →
  let d :=
    FileArticleRepository.applyUpdate now a
      (UpdateArticleInput.ofStatus deleted) in
  ArticleService.delete_ now vid i u s
  = (Ok d,
     (FileVersionRepository.createVersion now vid d
        (User.id u) (User.displayName u) (Some "Moved to trash")
        (FileCategoryRepository.updateArticleCount (Article.category a) (-1)
           (Store.setArticles (insert i d)
              (FileLockRepository.releaseLock i
                 (orUser (Article.lockedBy a) u) s).2)).2).2).
Proof.
  intros Hfound Hkey Hperm d.
  destruct (releaseLock_run i (orUser (Article.lockedBy a) u) s)
    as (b & L & Hrel).
  rewrite Hrel. unfold orUser in Hrel.
  unfold ArticleService.delete_.
  rewrite (bind_Ok _ _ _ _ _ (findById_run i s)), Hfound.
  rewrite Hperm. simpl negb.
  rewrite (bind_Ok _ _ _ _ _ (throwIf_false _ _)).
  rewrite (bind_Ok _ _ _ _ _ Hrel).
  rewrite (bind_Ok _ _ _ _ _
             (softDelete_run now i (Store.setLocks (λ _, L) s) a Hfound)).
  rewrite Hkey. fold d.
  rewrite (bind_Ok _ _ _ _ _ (updateArticleCount_run _ _ _)).
  rewrite (bind_Ok _ _ _ _ _ (createVersion_run _ _ _ _ _ _ _)).
  by rewrite updateArticleCount_run.
Qed.

(** X11. [ArticleService.delete] never consults the edit lock: a user
    allowed to delete the article moves it to the trash whoever holds the
    lock. The lock file is removed only when it names the user recorded in
    the article's [lockedBy] field or, without such a record, the caller;
    the lock file of anybody else stays behind on the deleted article. *)
Theorem delete_ignores_lock (s : Store.t) (i : string) (a : Article.t)
    (u : User.t) (now : Z) (vid : string) :
  Store.articles s !! i = Some a →
  Article.id a = i →
  ArticleService.canOwnOrAll u a article_delete_own article_delete_all = true →
  let run := ArticleService.delete_ now vid i u s in
  ∃ d,
    run.1 = Ok d
    ∧ Article.status d = deleted
    ∧ Store.articles run.2 !! i = Some d
    ∧ (∀ l, Store.locks s !! i = Some l →
            ArticleLock.lockedBy l ≠ orUser (Article.lockedBy a) u →
            Store.locks run.2 !! i = Some l)
    ∧ (∀ l, Store.locks s !! i = Some l →
            ArticleLock.lockedBy l = orUser (Article.lockedBy a) u →
            Store.locks run.2 !! i = None).
Proof.
  intros Hfound Hkey Hperm run. unfold run.
  rewrite (delete_run_locks s i a now vid u Hfound Hkey Hperm).
  eexists. cbn [fst snd]. split; [done|]. split; [done|].
  rewrite articles_createVersion, articles_updateArticleCount.
  rewrite locks_createVersion, locks_updateArticleCount.
  cbn [Store.articles Store.locks Store.setArticles].
  split; [apply lookup_insert_eq|].
  rewrite repo_releaseLock_cases.
  split; intros l Hl Hwho; rewrite Hl.
  - by rewrite bool_decide_eq_false_2.
  - rewrite bool_decide_eq_true_2 by done. apply lookup_delete_eq.
Qed.

Lemma delete_ignores_lock_witness :
  ∃ d,
    (ArticleService.delete_ 500 "v2" "a1" Sample.editorUser
       Sample.lockedDraft).1 = Ok d
    ∧ Article.status d = deleted
    ∧ Store.locks
        (ArticleService.delete_ 500 "v2" "a1" Sample.editorUser
           Sample.lockedDraft).2 !! "a1"
      = Some (Sample.lockOf "a1" Sample.authorUser 0 1000).
Proof.
  destruct (delete_ignores_lock Sample.lockedDraft "a1" Sample.draftArticle
              Sample.editorUser 500 "v2")
    as (d & Hd & Hst & _ & Hstay & _); try done.
  exists d. split; [done|]. split; [done|]. by apply Hstay.
Defined.

Lemma permanentDelete_run (i : string) (u : User.t) (s : Store.t)
    (a : Article.t) :
  hasPermission u article_delete_all = true →
  Store.articles s !! i = Some a →
  Article.status a = deleted →
  ArticleService.permanentDelete i u s
  = (Ok tt, Store.setArticles (delete i) (Store.setVersions (delete i) s)).
Proof.
  intros Hperm Hfound Hst. unfold ArticleService.permanentDelete.
  rewrite Hperm. simpl negb.
  rewrite (bind_Ok _ _ _ _ _ (throwIf_false _ _)).
  rewrite (bind_Ok _ _ _ _ _ (findById_run i s)), Hfound, Hst.
  rewrite bool_decide_eq_true_2 by done. simpl negb.
  rewrite (bind_Ok _ _ _ _ _ (throwIf_false _ _)).
  assert (Hdel : FileVersionRepository.deleteVersions i s
                 = (Ok tt, Store.setVersions (delete i) s)) by done.
  rewrite (bind_Ok _ _ _ _ _ Hdel).
  unfold FileArticleRepository.hardDelete.
  rewrite (bind_Ok _ _ _ _ _ (exists_run i _)).
  cbn [Store.articles Store.setVersions]. rewrite Hfound.
  rewrite bool_decide_eq_true_2 by by eexists. simpl negb.
  by rewrite (bind_Ok _ _ _ _ _ (throwIf_false _ _)).
Qed.

(** X12. Permanent deletion is reserved to holders of
    [article:delete:all] and to articles in the trash (403, 404 and 400
    otherwise, with nothing changed). When it succeeds the article and all
    its snapshots are gone, so that every later read answers 404, while
    the comments and the lock file of the article and all category counts
    are left as they were. *)
Theorem permanentDelete_effects (i : string) (u : User.t) (s : Store.t) :
  let run := ArticleService.permanentDelete i u s in
  (hasPermission u article_delete_all = false →
   ∃ e, run = (Err e, s) ∧ statusCode e = 403)
  ∧ (hasPermission u article_delete_all = true →
     Store.articles s !! i = None →
     run = (Err (NotFoundError "Article" i), s))
  ∧ (∀ a, hasPermission u article_delete_all = true →
          Store.articles s !! i = Some a →
          Article.status a ≠ deleted →
          ∃ e, run = (Err e, s) ∧ statusCode e = 400)
  ∧ (∀ a, hasPermission u article_delete_all = true →
          Store.articles s !! i = Some a →
          Article.status a = deleted →
          run.1 = Ok tt
          ∧ Store.articles run.2 = delete i (Store.articles s)
          ∧ Store.versions run.2 = delete i (Store.versions s)
          ∧ Store.comments run.2 = Store.comments s
          ∧ Store.locks run.2 = Store.locks s
          ∧ Store.categories run.2 = Store.categories s
          ∧ (∀ now reader_,
               ArticleService.getById now i reader_ run.2
               = (Err (NotFoundError "Article" i), run.2))
          ∧ (∀ n, storedVersion run.2 i n = None)).
Proof.
  intros run. unfold run. split; [|split; [|split]].
  - intros Hperm. unfold ArticleService.permanentDelete. rewrite Hperm.
    simpl negb. rewrite (bind_Err _ _ _ _ _ (throwIf_true _ _)).
    by eexists.
  - intros Hperm Hnone. unfold ArticleService.permanentDelete. rewrite Hperm.
    simpl negb. rewrite (bind_Ok _ _ _ _ _ (throwIf_false _ _)).
    by rewrite (bind_Ok _ _ _ _ _ (findById_run i s)), Hnone.
  - intros a Hperm Hfound Hst. unfold ArticleService.permanentDelete.
    rewrite Hperm. simpl negb.
    rewrite (bind_Ok _ _ _ _ _ (throwIf_false _ _)).
    rewrite (bind_Ok _ _ _ _ _ (findById_run i s)), Hfound.
    rewrite bool_decide_eq_false_2 by done. simpl negb.
    rewrite (bind_Err _ _ _ _ _ (throwIf_true _ _)).
    by eexists.
  - intros a Hperm Hfound Hst.
    rewrite (permanentDelete_run i u s a Hperm Hfound Hst).
    cbn [fst snd]. repeat (split; [done|]). split.
    + intros now r. unfold ArticleService.getById.
      rewrite (bind_Ok _ _ _ _ _ (findById_run i _)).
      cbn [Store.articles Store.setArticles Store.setVersions].
      by rewrite lookup_delete_eq.
    + intros n. unfold storedVersion.
      cbn [Store.versions Store.setArticles Store.setVersions].
      by rewrite lookup_delete_eq.
Qed.

(** * The stable sort *)

Section ArraySort.

Context {A : Type} (cmp : A → A → Z).

Lemma insertBy_perm (x : A) (l : list A) : insertBy cmp x l ≡ₚ x :: l.
Proof.
  induction l as [| y l IH]; simpl; [done|].
  destruct (0 <? cmp x y); [|done].
  rewrite IH. apply Permutation_swap.
Qed.

Lemma arraySort_perm (l : list A) : arraySort cmp l ≡ₚ l.
Proof.
  induction l as [| x l IH]; simpl; [done|].
  by rewrite insertBy_perm, IH.
Qed.

Lemma length_arraySort (l : list A) : length (arraySort cmp l) = length l.
Proof. by rewrite arraySort_perm. Qed.

Lemma elem_of_arraySort (x : A) (l : list A) : x ∈ arraySort cmp l ↔ x ∈ l.
Proof. by rewrite arraySort_perm. Qed.

Hypothesis cmp_total : ∀ a b, 0 < cmp a b → cmp b a ≤ 0.
Hypothesis cmp_trans : ∀ a b c, cmp a b ≤ 0 → cmp b c ≤ 0 → cmp a c ≤ 0.

Lemma insertBy_sorted (x : A) (l : list A) :
  StronglySorted (inOrder cmp) l →
  StronglySorted (inOrder cmp) (insertBy cmp x l).
Proof.
  induction 1 as [| y l Hsorted IH Hall]; simpl.
  - repeat constructor.
  - destruct (0 <? cmp x y) eqn:Hxy.
    + apply Z.ltb_lt in Hxy. constructor; [done|].
      rewrite insertBy_perm. constructor; [by apply cmp_total | done].
    + apply Z.ltb_ge in Hxy. constructor; [by constructor|].
      constructor; [done|].
      eapply Forall_impl; [exact Hall|]. intros z Hyz.
      by apply (cmp_trans x y z).
Qed.

Lemma arraySort_sorted (l : list A) :
  StronglySorted (inOrder cmp) (arraySort cmp l).
Proof.
  induction l as [| x l IH]; simpl; [constructor|].
  by apply insertBy_sorted.
Qed.

End ArraySort.

Lemma StronglySorted_weaken {A} (R1 R2 : A → A → Prop) (l : list A) :
  (∀ x y, R1 x y → R2 x y) → StronglySorted R1 l → StronglySorted R2 l.
Proof.
  intros Himpl. induction 1 as [| x l Hsorted IH Hall]; constructor; [done|].
  eapply Forall_impl; [exact Hall|]. intros y. apply Himpl.
Qed.

Lemma head_sorted_max {A} (R : A → A → Prop) (l : list A) (x y : A) :
  StronglySorted R l → head l = Some x → y ∈ l → x = y ∨ R x y.
Proof.
  intros Hsorted Hhead Hy. destruct l as [| z l]; [done|].
  simpl in Hhead. injection Hhead as ->.
  apply StronglySorted_inv in Hsorted as [_ Hall].
  apply elem_of_cons in Hy as [-> | Hy]; [by left|].
  right. rewrite Forall_forall in Hall. by apply Hall.
Qed.

(** * Version listings *)

Lemma repo_getVersions_run (i : string) (s : Store.t) :
  FileVersionRepository.getVersions i s
  = (Ok {| VersionListResponse.articleId := i;
           VersionListResponse.currentVersion :=
             default 0
               (ArticleVersion.version
                  <$> head (arraySort
                              (λ a b, ArticleVersion.version b
                                      - ArticleVersion.version a)
                              (FileVersionRepository.versionFiles s i)));
           VersionListResponse.versions :=
             arraySort (λ a b, ArticleVersion.version b
                               - ArticleVersion.version a)
                       (FileVersionRepository.versionFiles s i) |}, s).
Proof. done. Qed.

Lemma elem_of_versionFiles (s : Store.t) (i : string) (v : ArticleVersion.t) :
  v ∈ FileVersionRepository.versionFiles s i
  ↔ ∃ n, storedVersion s i n = Some v.
Proof.
  unfold FileVersionRepository.versionFiles, storedVersion.
  rewrite list_elem_of_fmap. split.
  - intros [[n v'] [-> Hin]]. apply elem_of_map_to_list in Hin.
    exists n. by destruct (Store.versions s !! i).
  - intros [n Hn]. exists (n, v). split; [done|].
    apply elem_of_map_to_list. by destruct (Store.versions s !! i).
Qed.

(** X13. [getVersions] of the version store reads without writing and
    lists every stored snapshot of the article exactly once, newest first;
    [currentVersion] is the largest version number listed, and [0] when
    the article has no snapshot. *)
Theorem getVersions_newest_first (i : string) (s : Store.t) :
  ∃ r,
    FileVersionRepository.getVersions i s = (Ok r, s)
    ∧ VersionListResponse.articleId r = i
    ∧ VersionListResponse.versions r
      ≡ₚ FileVersionRepository.versionFiles s i
    ∧ (∀ v, v ∈ VersionListResponse.versions r
            ↔ ∃ n, storedVersion s i n = Some v)
    ∧ Z.of_nat (length (VersionListResponse.versions r)) = versionCount s i
    ∧ StronglySorted newestFirst (VersionListResponse.versions r)
    ∧ (∀ v, v ∈ VersionListResponse.versions r →
            ArticleVersion.version v ≤ VersionListResponse.currentVersion r)
    ∧ (VersionListResponse.versions r = [] →
       VersionListResponse.currentVersion r = 0)
    ∧ (VersionListResponse.versions r ≠ [] →
       ∃ v, v ∈ VersionListResponse.versions r
            ∧ ArticleVersion.version v
              = VersionListResponse.currentVersion r).
Proof.
  rewrite repo_getVersions_run. eexists. split; [done|].
  cbn [VersionListResponse.articleId VersionListResponse.versions
       VersionListResponse.currentVersion].
  set (cmp := λ a b : ArticleVersion.t,
                ArticleVersion.version b - ArticleVersion.version a).
  set (l := arraySort cmp (FileVersionRepository.versionFiles s i)).
  assert (Hsorted : StronglySorted newestFirst l).
  { apply (StronglySorted_weaken (inOrder cmp)).
    - unfold inOrder, newestFirst, cmp. intros; lia.
    - apply (arraySort_sorted cmp); unfold cmp; intros; lia. }
  split; [done|]. split; [apply arraySort_perm|]. split.
  { intros v. unfold l. rewrite elem_of_arraySort.
    apply elem_of_versionFiles. }
  split; [unfold l, versionCount; by rewrite length_arraySort|].
  split; [done|]. split; [|split].
  - intros v Hv. destruct l as [| x l'] eqn:Hl; [by apply elem_of_nil in Hv|].
    simpl. destruct (head_sorted_max newestFirst (x :: l') x v Hsorted eq_refl Hv)
      as [-> | Hle]; [lia | done].
  - by intros ->.
  - intros Hne. destruct l as [| x l']; [done|].
    exists x. split; [by left | done].
Qed.


(** * Version numbers in the stores the service can reach *)




Lemma reachable_afterMove : Reachable Sample.afterMove.
Proof.
  apply (reach_step Sample.afterCreate
           (ReqUpdate 200 "v2" "a1"
              (UpdateArticleInput.mk None None (Some "Network")
                 None None None None)
              Sample.authorUser None)); [| exact I].
  apply (reach_step Sample.seeded
           (ReqCreate 100 "a1" "v1" (Sample.vpnInput None)
              Sample.authorUser)); [| reflexivity].
  by apply reach_init.
Qed.





(** * Reading and comparing snapshots *)

Lemma diffOf_nil {A} `{EqDecision A} (field : string) (inj : A → DiffValue)
    (old new : A) :
  diffOf field inj old new = [] ↔ old = new.
Proof. unfold diffOf. case_bool_decide; naive_solver. Qed.





Lemma compareVersions_same (v : ArticleVersion.t) : compareVersions v v = [].
Proof.
  unfold compareVersions. rewrite !app_nil, !diffOf_nil. tauto.
Qed.

Lemma all_roles_view_versions (u : User.t) :
  hasPermission u article_version_view = true.
Proof. unfold hasPermission. by destruct (User.role u). Qed.

Lemma service_getVersion_run (i : string) (n : Z) (u : User.t) (s : Store.t)
    (a : Article.t) :
  Store.articles s !! i = Some a →
  VersionService.getVersion i n u s
  = match storedVersion s i n with
    | Some v => (Ok v, s)
    | None =>
        (Err (NotFoundError "Version" (i +:+ "/v" +:+ pretty n)), s)
    end.
Proof.
  intros Hfound. unfold VersionService.getVersion.
  rewrite (bind_Ok _ _ _ _ _ (findById_run i s)), Hfound.
  rewrite all_roles_view_versions. simpl negb.
  rewrite (bind_Ok _ _ _ _ _ (throwIf_false _ _)).
  assert (Hget : FileVersionRepository.getVersion i n s
                 = (Ok (storedVersion s i n), s)) by done.
  rewrite (bind_Ok _ _ _ _ _ Hget).
  by destruct (storedVersion s i n).
Qed.

(** X16. Reading one snapshot is not subject to the draft check: for a
    draft of another author, a user without [article:view:draft:all] is
    refused the article itself and its version list with a 403, yet
    [getVersion] hands out each stored snapshot of it. *)
Theorem getVersion_skips_draft_check (s : Store.t) (i : string)
    (a : Article.t) (u : User.t) (now n : Z) (v : ArticleVersion.t) :
  Store.articles s !! i = Some a →
  Article.status a = draft →
  Article.authorId a ≠ User.id u →
  hasPermission u article_view_draft_all = false →
  storedVersion s i n = Some v →
  (∃ e, ArticleService.getById now i u s = (Err e, s) ∧ statusCode e = 403)
  ∧ (∃ e, VersionService.getVersions i u s = (Err e, s) ∧ statusCode e = 403)
  ∧ VersionService.getVersion i n u s = (Ok v, s).
Proof.
  intros Hfound Hdraft Hother Hperm Hv. split; [|split].
  - unfold ArticleService.getById.
    rewrite (bind_Ok _ _ _ _ _ (findById_run i s)), Hfound, Hdraft, Hperm.
    rewrite bool_decide_eq_false_2 by done. cbn [negb andb].
    rewrite (bind_Err _ _ _ _ _ (throwIf_true _ _)). by eexists.
  - unfold VersionService.getVersions.
    rewrite (bind_Ok _ _ _ _ _ (findById_run i s)), Hfound, Hdraft, Hperm.
    rewrite all_roles_view_versions. simpl negb.
    rewrite (bind_Ok _ _ _ _ _ (throwIf_false _ _)).
    rewrite bool_decide_eq_true_2 by done.
    rewrite bool_decide_eq_false_2 by done. cbn [negb andb].
    rewrite (bind_Err _ _ _ _ _ (throwIf_true _ _)). by eexists.
  - by rewrite (service_getVersion_run i n u s a Hfound), Hv.
Qed.

Lemma getVersion_skips_draft_check_witness :
  let s := Sample.storeWith Sample.draftArticle 1 in
  (∃ e, VersionService.getVersions "a1" Sample.readerUser s = (Err e, s)
        ∧ statusCode e = 403)
  ∧ ∃ v, VersionService.getVersion "a1" 1 Sample.readerUser s = (Ok v, s)
         ∧ ArticleVersion.briefTitle v = "VPN setup".
Proof.
  intros s.
  pose (v := createVersionFromArticle "v1" Sample.draftArticle
               "author-001" "Author User" (Some "Initial creation") 0).
  destruct (getVersion_skips_draft_check s "a1" Sample.draftArticle
              Sample.readerUser 5 1 v) as (_ & Hlist & Hone); try done.
  split; [exact Hlist|]. by exists v.
Defined.

(** X17. [VersionService.compareVersions] puts the snapshot with the
    smaller requested number first, so both orders of the two numbers give
    the same answer; comparing a number with itself gives an empty
    difference. Any user gets this answer for any stored article: the
    call checks neither the draft visibility nor the trash. *)
Theorem service_compareVersions_order (s : Store.t) (i : string)
    (a : Article.t) (u : User.t) (n m : Z) (v1 v2 : ArticleVersion.t) :
  Store.articles s !! i = Some a →
  storedVersion s i n = Some v1 →
  storedVersion s i m = Some v2 →
  n < m →
  let answer :=
    {| VersionService.Comparison.older := v1;
       VersionService.Comparison.newer := v2;
       VersionService.Comparison.diff := compareVersions v1 v2 |} in
  VersionService.compareVersions i n m u s = (Ok answer, s)
  ∧ VersionService.compareVersions i m n u s = (Ok answer, s)
  ∧ VersionService.compareVersions i n n u s
    = (Ok {| VersionService.Comparison.older := v1;
             VersionService.Comparison.newer := v1;
             VersionService.Comparison.diff := [] |}, s).
Proof.
  intros Hfound Hv1 Hv2 Hlt answer.
  assert (Hget1 : VersionService.getVersion i n u s = (Ok v1, s))
    by by rewrite (service_getVersion_run i n u s a Hfound), Hv1.
  assert (Hget2 : VersionService.getVersion i m u s = (Ok v2, s))
    by by rewrite (service_getVersion_run i m u s a Hfound), Hv2.
  unfold VersionService.compareVersions. split; [|split].
  - rewrite (bind_Ok _ _ _ _ _ Hget1), (bind_Ok _ _ _ _ _ Hget2).
    by rewrite (proj2 (Z.ltb_lt n m) Hlt).
  - rewrite (bind_Ok _ _ _ _ _ Hget2), (bind_Ok _ _ _ _ _ Hget1).
    by rewrite (proj2 (Z.ltb_ge m n)) by lia.
  - rewrite !(bind_Ok _ _ _ _ _ Hget1).
    rewrite Z.ltb_irrefl. unfold ret. do 3 f_equal.
    by apply compareVersions_same.
Qed.

Lemma service_compareVersions_order_witness :
  ∃ v1 v2,
    VersionService.compareVersions "a1" 2 1 Sample.readerUser Sample.afterMove
    = (Ok {| VersionService.Comparison.older := v1;
             VersionService.Comparison.newer := v2;
             VersionService.Comparison.diff := compareVersions v1 v2 |},
       Sample.afterMove)
    ∧ ArticleVersion.version v1 = 1
    ∧ VersionDiff.field <$> compareVersions v1 v2 = ["category"].
Proof.
  pose (a := default Sample.draftArticle
               (Store.articles Sample.afterMove !! "a1")).
  pose (v1 := default (createVersionFromArticle "" a "" "" None 0)
                (storedVersion Sample.afterMove "a1" 1)).
  pose (v2 := default (createVersionFromArticle "" a "" "" None 0)
                (storedVersion Sample.afterMove "a1" 2)).
  exists v1, v2.
  split; [|by vm_compute].
  apply (service_compareVersions_order Sample.afterMove "a1" a
           Sample.readerUser 1 2 v1 v2); by vm_compute.
Defined.

(** * Reading one article *)

Lemma incrementViewCount_viewed (now : Z) (i : string) (who : string)
    (s : Store.t) (a : Article.t) :
  Store.articles s !! i = Some a →
  ∃ a',
    FileArticleRepository.incrementViewCount now i (Some who) s
    = (Ok tt, Store.setArticles (insert i a') s)
    ∧ toArticleSummary a' = viewedOnce (toArticleSummary a)
    ∧ Article.detailedDescription a' = Article.detailedDescription a
    ∧ Article.version a' = Article.version a
    ∧ ArticleMetadata.viewCount (Article.metadata a')
      = ArticleMetadata.viewCount (Article.metadata a) + 1
    ∧ (who ≠ "" →
       ArticleMetadata.lastViewedBy (Article.metadata a') = Some who
       ∧ ArticleMetadata.lastViewedAt (Article.metadata a') = Some now)
    ∧ (who = "" →
       ArticleMetadata.lastViewedBy (Article.metadata a')
       = ArticleMetadata.lastViewedBy (Article.metadata a)
       ∧ ArticleMetadata.lastViewedAt (Article.metadata a')
         = ArticleMetadata.lastViewedAt (Article.metadata a)).
Proof.
  intros Hfound. unfold FileArticleRepository.incrementViewCount.
  rewrite (bind_Ok _ _ _ _ _ (findById_run i s)), Hfound.
  eexists. split; [reflexivity|]. simpl.
  repeat split; try done.
  - by rewrite bool_decide_eq_false_2.
  - by rewrite bool_decide_eq_false_2.
  - by rewrite bool_decide_eq_true_2.
  - by rewrite bool_decide_eq_true_2.
Qed.

(** X18. What [getById] shows and what it writes. An article in the trash
    is a 404 for everybody without [article:delete:all], not a 403; a
    draft is shown to its author and to holders of
    [article:view:draft:all]; archived articles are shown to everybody.
    None of these reads writes anything. Reading a published article
    succeeds for every user, counts one view and records the reader and
    the time, and returns the article with the new count; its version,
    its content and every other article are left alone. *)
Theorem getById_views (s : Store.t) (i : string) (a : Article.t)
    (u : User.t) (now : Z) :
  Store.articles s !! i = Some a →
  let run := ArticleService.getById now i u s in
  (Article.status a = deleted →
   run = if hasPermission u article_delete_all then (Ok a, s)
         else (Err (NotFoundError "Article" i), s))
  ∧ (Article.status a = archived → run = (Ok a, s))
  ∧ (Article.status a = draft →
     Article.authorId a = User.id u
     ∨ hasPermission u article_view_draft_all = true →
     run = (Ok a, s))
  ∧ (Article.status a = published →
     ∃ a',
       run = (Ok a', Store.setArticles (insert i a') s)
       ∧ toArticleSummary a' = viewedOnce (toArticleSummary a)
       ∧ Article.detailedDescription a' = Article.detailedDescription a
       ∧ Article.version a' = Article.version a
       ∧ (User.id u ≠ "" →
          ArticleMetadata.lastViewedBy (Article.metadata a')
          = Some (User.id u)
          ∧ ArticleMetadata.lastViewedAt (Article.metadata a') = Some now)).
Proof.
  intros Hfound run. unfold run, ArticleService.getById.
  rewrite (bind_Ok _ _ _ _ _ (findById_run i s)), Hfound.
  split; [|split; [|split]]; intros Hst; rewrite Hst.
  - destruct (hasPermission u article_delete_all); cbn [negb].
    + by rewrite (bind_Ok _ _ _ _ _ (throwIf_false _ _)).
    + by rewrite (bind_Err _ _ _ _ _ (throwIf_true _ _)).
  - done.
  - intros Hsee.
    assert (Hcheck : negb (bool_decide (Article.authorId a = User.id u))
                     && negb (hasPermission u article_view_draft_all)
                     = false).
    { destruct Hsee as [Hown | Hall].
      - by rewrite bool_decide_eq_true_2.
      - rewrite Hall. apply andb_false_r. }
    rewrite Hcheck.
    by rewrite (bind_Ok _ _ _ _ _ (throwIf_false _ _)).
  - destruct (incrementViewCount_viewed now i (User.id u) s a Hfound)
      as (a' & Hinc & Hsum & Hdesc & Hver & _ & Hwho & _).
    exists a'.
    assert (Hret : ret (A := unit) tt s = (Ok tt, s)) by done.
    rewrite (bind_Ok _ _ _ _ _ Hret).
    rewrite bool_decide_eq_true_2 by done.
    rewrite (bind_Ok _ _ _ _ _ Hinc).
    rewrite (bind_Ok _ _ _ _ _ (findById_run i _)).
    cbn [Store.articles Store.setArticles]. rewrite lookup_insert_eq.
    done.
Qed.

Lemma getById_views_witness :
  ∃ a',
    ArticleService.getById 9 "a1" Sample.readerUser
      (Sample.storeWith Sample.publishedArticle 1)
    = (Ok a',
       Store.setArticles (insert "a1" a')
         (Sample.storeWith Sample.publishedArticle 1))
    ∧ ArticleMetadata.viewCount (Article.metadata a') = 1
    ∧ ArticleMetadata.lastViewedBy (Article.metadata a') = Some "reader-001"
    ∧ Article.version a' = 1.
Proof.
  destruct (getById_views (Sample.storeWith Sample.publishedArticle 1) "a1"
              Sample.publishedArticle Sample.readerUser 9 eq_refl)
    as (_ & _ & _ & Hpub).
  destruct (Hpub eq_refl) as (a' & Hrun & Hsum & _ & Hver & Hwho).
  exists a'. split; [exact Hrun|]. split; [|split; [by apply Hwho | exact Hver]].
  change (ArticleMetadata.viewCount (Article.metadata a'))
    with (ArticleSummary.viewCount (toArticleSummary a')).
  by rewrite Hsum.
Defined.

(** * Search and related articles *)

Lemma elem_of_arraySlice {A} (x : A) (l : list A) (start end_ : Z) :
  x ∈ arraySlice l start end_ → x ∈ l.
Proof.
  unfold arraySlice. intros Hx.
  apply elem_of_take in Hx as (k & Hk & _).
  apply list_elem_of_lookup_2 in Hk.
  by eapply subseteq_drop.
Qed.

Lemma arraySlice_page {A} (l : list A) (start limit : Z) :
  0 ≤ start → 0 ≤ limit →
  arraySlice l start (start + limit)
  = take (Z.to_nat limit) (drop (Z.to_nat start) l).
Proof.
  intros Hstart Hlimit. unfold arraySlice.
  rewrite (proj2 (Z.ltb_ge start 0)) by done.
  rewrite (proj2 (Z.ltb_ge (start + limit) 0)) by lia.
  destruct (decide (start ≤ Z.of_nat (length l))) as [Hin | Hout].
  - rewrite (Z.min_l start) by done.
    destruct (decide (start + limit ≤ Z.of_nat (length l))) as [Hfit | Hcut].
    + rewrite (Z.min_l (start + limit)) by done. f_equal. lia.
    + rewrite (Z.min_r (start + limit)) by lia.
      rewrite !take_ge; [done | |]; rewrite length_drop; lia.
  - rewrite !drop_ge by lia. by rewrite !take_nil.
Qed.

Lemma length_arraySlice_prefix {A} (l : list A) (n : Z) :
  0 ≤ n → Z.of_nat (length (arraySlice l 0 n)) ≤ n.
Proof.
  intros Hn. change n with (0 + n) at 1.
  rewrite (arraySlice_page l 0 n) by done.
  rewrite length_take. lia.
Qed.


Lemma getById_readable (s : Store.t) (i : string) (a : Article.t)
    (u : User.t) (now : Z) :
  Store.articles s !! i = Some a →
  Article.status a ≠ deleted →
  (Article.status a = draft →
   Article.authorId a = User.id u
   ∨ hasPermission u article_view_draft_all = true) →
  isOk (ArticleService.getById now i u s).1 = true.
Proof.
  intros Hfound Hlive Hsee. unfold ArticleService.getById.
  rewrite (bind_Ok _ _ _ _ _ (findById_run i s)), Hfound.
  destruct (Article.status a) eqn:Hst; try done.
  - assert (Hcheck : negb (bool_decide (Article.authorId a = User.id u))
                     && negb (hasPermission u article_view_draft_all)
                     = false).
    { destruct (Hsee eq_refl) as [Hown | Hall].
      - by rewrite bool_decide_eq_true_2.
      - rewrite Hall. apply andb_false_r. }
    rewrite Hcheck.
    by rewrite (bind_Ok _ _ _ _ _ (throwIf_false _ _)).
  - assert (Hret : ret (A := unit) tt s = (Ok tt, s)) by done.
    rewrite (bind_Ok _ _ _ _ _ Hret).
    rewrite bool_decide_eq_true_2 by done.
    destruct (incrementViewCount_run now i (Some (User.id u)) s a Hfound)
      as (a' & Hinc & _).
    rewrite (bind_Ok _ _ _ _ _ Hinc).
    by rewrite (bind_Ok _ _ _ _ _ (findById_run i _)).
Qed.

Section SearchProps.

Variable toLowerCase : string → string.
Variable localeCompare : string → string → Z.

Lemma matches_visible (params : ArticleSearchParams.t) (userId : string)
    (canViewAllDrafts : bool) (a : Article.t) :
  FileArticleRepository.matches toLowerCase params userId canViewAllDrafts a
  = true →
  Article.status a ≠ deleted
  ∧ (Article.status a = draft →
     Article.authorId a = userId ∨ canViewAllDrafts = true).
Proof.
  unfold FileArticleRepository.matches.
  destruct (bool_decide (Article.status a = deleted)) eqn:Hdel; [done|].
  apply bool_decide_eq_false in Hdel.
  destruct (bool_decide (Article.status a = draft) && negb canViewAllDrafts
            && negb (bool_decide (Article.authorId a = userId))) eqn:Hdraft;
    [done|].
  intros _. split; [done|]. intros Hst.
  rewrite bool_decide_eq_true_2 in Hdraft by done.
  destruct canViewAllDrafts; [by right|]. left.
  simpl in Hdraft. apply negb_false_iff in Hdraft.
  by apply bool_decide_eq_true in Hdraft.
Qed.

Lemma search_run (params : ArticleSearchParams.t) (userId : string)
    (canViewAllDrafts : bool) (s : Store.t) :
  let articles :=
    FileArticleRepository.sorted localeCompare params
      (List.filter
         (FileArticleRepository.matches toLowerCase params userId
            canViewAllDrafts)
         (map_to_list (Store.articles s)).*2) in
  let page :=
    FileArticleRepository.orElse (ArticleSearchParams.page params) 1 in
  let limit :=
    FileArticleRepository.orElse (ArticleSearchParams.limit params) 20 in
  let totalItems := Z.of_nat (length articles) in
  FileArticleRepository.search toLowerCase localeCompare params userId
    canViewAllDrafts s
  = (Ok {| PaginatedResponse.data :=
             toArticleSummary
               <$> arraySlice articles ((page - 1) * limit)
                     ((page - 1) * limit + limit);
           PaginatedResponse.pagination :=
             {| Pagination.page := page;
                Pagination.limit := limit;
                Pagination.totalItems := totalItems;
                Pagination.totalPages := ceilDiv totalItems limit;
                Pagination.hasNextPage := page <? ceilDiv totalItems limit;
                Pagination.hasPreviousPage := 1 <? page |} |}, s).
Proof. done. Qed.

(** X19. Search never lists what a direct read would refuse: in every
    store the service can reach, each entry of a search result is the
    summary of a stored article that is not in the trash and, when it is a
    draft, is the caller's own unless the caller holds
    [article:view:draft:all]; [getById] by the same user returns every
    listed article. The search itself writes nothing. *)
Theorem search_lists_only_readable (params : ArticleSearchParams.t)
    (u : User.t) (s : Store.t) :
  Reachable s →
  ∃ r,
    ArticleService.search toLowerCase localeCompare params u s = (Ok r, s)
    ∧ ∀ item, item ∈ PaginatedResponse.data r →
        ∃ a,
          Store.articles s !! ArticleSummary.id item = Some a
          ∧ item = toArticleSummary a
          ∧ Article.status a ≠ deleted
          ∧ (Article.status a = draft →
             Article.authorId a = User.id u
             ∨ hasPermission u article_view_draft_all = true)
          ∧ ∀ now,
              isOk (ArticleService.getById now (ArticleSummary.id item)
                      u s).1 = true.
Proof.
  intros Hreach. unfold ArticleService.search. rewrite search_run.
  eexists. split; [done|]. cbn [PaginatedResponse.data].
  intros item Hitem.
  apply list_elem_of_fmap in Hitem as (a & -> & Ha).
  apply elem_of_arraySlice in Ha.
  unfold FileArticleRepository.sorted in Ha.
  rewrite elem_of_arraySort in Ha.
  apply list_elem_of_In, filter_In in Ha as [Hin Hmatch].
  apply list_elem_of_In, list_elem_of_fmap in Hin as ([k a'] & -> & Hin).
  simpl in *. apply elem_of_map_to_list in Hin.
  pose proof (inStep_key s k a' (reachable_inStep s Hreach) Hin) as Hkey.
  apply matches_visible in Hmatch as [Hlive Hsee].
  exists a'. simpl. rewrite Hkey. repeat split; try done.
  intros now. by apply (getById_readable s k a').
Qed.


End SearchProps.

Lemma search_lists_only_readable_witness :
  ∃ r,
    ArticleService.search (λ x, x) (λ _ _, 0) ArticleSearchParams.empty
      Sample.readerUser Sample.afterMove = (Ok r, Sample.afterMove)
    ∧ ∀ item, item ∈ PaginatedResponse.data r →
        ∃ a,
          Store.articles Sample.afterMove !! ArticleSummary.id item = Some a
          ∧ item = toArticleSummary a
          ∧ Article.status a ≠ deleted
          ∧ (Article.status a = draft →
             Article.authorId a = User.id Sample.readerUser
             ∨ hasPermission Sample.readerUser article_view_draft_all = true)
          ∧ ∀ now,
              isOk (ArticleService.getById now (ArticleSummary.id item)
                      Sample.readerUser Sample.afterMove).1 = true.
Proof.
  apply (search_lists_only_readable (λ x, x) (λ _ _, 0)
           ArticleSearchParams.empty Sample.readerUser Sample.afterMove).
  apply reachable_afterMove.
Defined.


Lemma getRelatedArticles_run (articleId : string) (limit : option Z)
    (s : Store.t) :
  FileArticleRepository.getRelatedArticles articleId limit s
  = match Store.articles s !! articleId with
    | None => (Ok [], s)
    | Some article =>
        let relatedIds := setOf (Article.relatedArticles article) in
        let related :=
          omap (λ relId,
                  match Store.articles s !! relId with
                  | Some relArticle =>
                      if bool_decide (Article.status relArticle = published)
                      then Some relArticle else None
                  | None => None
                  end)
               relatedIds in
        let candidates :=
          if Z.of_nat (length related) <? default 5 limit then
            arraySlice
              (List.filter
                 (λ a, negb (bool_decide (Article.id a = articleId))
                       && bool_decide (Article.status a = published)
                       && negb (includes relatedIds (Article.id a))
                       && (bool_decide (Article.category a
                                        = Article.category article)
                           || existsb
                                (λ t, includes (Article.tags article) t)
                                (Article.tags a)))
                 (map_to_list (Store.articles s)).*2)
              0 (default 5 limit - Z.of_nat (length related))
          else [] in
        (Ok (toArticleSummary
               <$> arraySlice (related ++ candidates) 0 (default 5 limit)),
         s)
    end.
Proof.
  unfold FileArticleRepository.getRelatedArticles.
  rewrite (bind_Ok _ _ _ _ _ (findById_run articleId s)).
  by destruct (Store.articles s !! articleId).
Qed.

(** X21. The related-articles list never shows anything but published
    articles: whoever asks and whatever the article's own state, every
    entry is the summary of a stored article whose status is [published];
    the list has at most [limit] entries (5 when no limit is given), is
    empty for an unknown article, and the call writes nothing. *)
Theorem getRelatedArticles_published (articleId : string) (limit : option Z)
    (s : Store.t) :
  ∃ items,
    ArticleService.getRelatedArticles articleId limit s = (Ok items, s)
    ∧ (∀ item, item ∈ items →
         ArticleSummary.status item = published
         ∧ ∃ k a, Store.articles s !! k = Some a
                  ∧ item = toArticleSummary a)
    ∧ (0 ≤ default 5 limit → Z.of_nat (length items) ≤ default 5 limit)
    ∧ (Store.articles s !! articleId = None → items = []).
Proof.
  unfold ArticleService.getRelatedArticles. rewrite getRelatedArticles_run.
  destruct (Store.articles s !! articleId) as [article |].
  2:{ exists []. split; [done|]. split; [|split; [simpl; lia | done]].
      by intros item ?%elem_of_nil. }
  cbv zeta. eexists. split; [reflexivity|]. split; [|split; [|done]].
  - intros item Hitem. apply list_elem_of_fmap in Hitem as (a & -> & Ha).
    apply elem_of_arraySlice, elem_of_app in Ha as [Ha | Ha].
    + apply list_elem_of_omap in Ha as (relId & _ & Hrel).
      destruct (Store.articles s !! relId) as [rel |] eqn:Hlookup; [|done].
      case_bool_decide as Hpub; [|done]. injection Hrel as ->.
      split; [done|]. by exists relId, a.
    + destruct (_ <? _); [|by apply elem_of_nil in Ha].
      apply elem_of_arraySlice in Ha.
      apply list_elem_of_In, filter_In in Ha as [Hin Hcond].
      apply list_elem_of_In, list_elem_of_fmap in Hin as ([k a'] & -> & Hin).
      apply elem_of_map_to_list in Hin. simpl in *.
      apply andb_true_iff in Hcond as [Hcond _].
      apply andb_true_iff in Hcond as [Hcond _].
      apply andb_true_iff in Hcond as [_ Hpub].
      apply bool_decide_eq_true in Hpub.
      split; [done|]. by exists k, a'.
  - intros Hlimit. rewrite length_fmap. by apply length_arraySlice_prefix.
Qed.

(** * Comments: lookup by id, edition and removal *)

Lemma find_app_first {A} (p : A → bool) (l1 l2 : list A) :
  List.find p (l1 ++ l2)
  = match List.find p l1 with
    | Some x => Some x
    | None => List.find p l2
    end.
Proof.
  induction l1 as [| x l1 IH]; simpl; [done|]. by destruct (p x).
Qed.

Lemma find_elem_of {A} (p : A → bool) (l : list A) (x : A) :
  List.find p l = Some x → x ∈ l ∧ p x = true.
Proof.
  induction l as [| y l IH]; simpl; [done|].
  destruct (p y) eqn:Hy.
  - intros [= ->]. split; [by left | done].
  - intros Hx. destruct (IH Hx) as [Hin Hp]. split; [by right | done].
Qed.

Lemma find_none_elem {A} (p : A → bool) (l : list A) :
  List.find p l = None ↔ ∀ x, x ∈ l → p x = false.
Proof.
  induction l as [| y l IH]; simpl.
  - split; [|done]. by intros _ x ?%elem_of_nil.
  - destruct (p y) eqn:Hy.
    + split; [done|]. intros Hall. specialize (Hall y (list_elem_of_here _ _)).
      congruence.
    + rewrite IH. split.
      * intros Hall x [-> | Hx]%elem_of_cons; [done | by apply Hall].
      * intros Hall x Hx. apply Hall. by right.
Qed.

Lemma find_list_find (id : string) (l : list Comment.t) (c : Comment.t) :
  List.find (λ c, bool_decide (Comment.id c = id)) l = Some c →
  ∃ index, list_find (λ c, Comment.id c = id) l = Some (index, c)
           ∧ l !! index = Some c.
Proof.
  induction l as [| y l IH]; simpl; [done|].
  case_bool_decide as Hy.
  - intros [= ->]. exists 0%nat. split; [|done].
    cbn. by rewrite decide_True.
  - intros Hc. destruct (IH Hc) as (index & Hfind & Hlook).
    exists (S index). split; [|done].
    cbn. rewrite decide_False by done. by rewrite Hfind.
Qed.

Lemma findInFiles_run (id : string) (s : Store.t) (ks : list string) :
  (∀ k, k ∈ ks →
        removeFirst ".json" (FileCommentRepository.getFilePath k) = k) →
  FileCommentRepository.findInFiles id
    (FileCommentRepository.getFilePath <$> ks) s
  = (Ok (firstWithId id s ks), s).
Proof.
  induction ks as [| k ks IH]; intros Hrt; [done|].
  rewrite fmap_cons. cbn [FileCommentRepository.findInFiles].
  unfold FileCommentRepository.getFilePath at 1.
  rewrite endsWith_app. cbn [negb].
  fold (FileCommentRepository.getFilePath k).
  rewrite (Hrt k) by (apply elem_of_cons; by left).
  assert (Hload : FileCommentRepository.loadComments k s
                  = (Ok (default [] (Store.comments s !! k)), s)) by done.
  rewrite (bind_Ok _ _ _ _ _ Hload).
  unfold firstWithId. cbn [mbind list_bind]. rewrite find_app_first.
  destruct (List.find _ (default [] (Store.comments s !! k))); [done|].
  apply IH. intros k' Hk'. apply Hrt. apply elem_of_cons. by right.
Qed.

Lemma comment_findById_run (id : string) (s : Store.t) :
  commentsFiled s →
  FileCommentRepository.findById id s
  = (Ok (firstWithId id s (map_to_list (Store.comments s)).*1), s).
Proof.
  intros Hfiled. unfold FileCommentRepository.findById.
  assert (Hdir : FileCommentRepository.readdir s
                 = (Ok (FileCommentRepository.getFilePath
                          <$> (map_to_list (Store.comments s)).*1), s))
    by done.
  rewrite (bind_Ok _ _ _ _ _ Hdir).
  apply findInFiles_run. intros k Hk.
  apply list_elem_of_fmap in Hk as ([k' cs] & -> & Hin).
  apply elem_of_map_to_list in Hin. by apply (Hfiled k' cs).
Qed.

Lemma firstWithId_Some (id : string) (s : Store.t) (ks : list string)
    (c : Comment.t) :
  firstWithId id s ks = Some c →
  ∃ k, k ∈ ks
       ∧ List.find (λ c, bool_decide (Comment.id c = id))
           (default [] (Store.comments s !! k)) = Some c.
Proof.
  unfold firstWithId. induction ks as [| k ks IH]; [done|].
  cbn [mbind list_bind]. rewrite find_app_first.
  destruct (List.find _ (default [] (Store.comments s !! k))) as [c' |] eqn:Hk.
  - intros [= ->]. exists k. split; [by left | done].
  - intros Hc. destruct (IH Hc) as (k' & Hin & Hfind).
    exists k'. split; [by right | done].
Qed.

Lemma firstWithId_None (id : string) (s : Store.t) (ks : list string) :
  firstWithId id s ks = None →
  ∀ k c, k ∈ ks → c ∈ default [] (Store.comments s !! k) →
         Comment.id c ≠ id.
Proof.
  unfold firstWithId. rewrite find_none_elem. intros Hnone k c Hk Hc.
  specialize (Hnone c). rewrite bool_decide_eq_false in Hnone.
  apply Hnone. apply list_elem_of_bind. by exists k.
Qed.

(** What [findById] finds: the comment, its file and its place there. *)
Lemma comment_findById_found (id : string) (s : Store.t) (c : Comment.t) :
  commentsFiled s →
  FileCommentRepository.findById id s = (Ok (Some c), s) →
  Comment.id c = id
  ∧ ∃ cs index,
      Store.comments s !! Comment.articleId c = Some cs
      ∧ list_find (λ c, Comment.id c = id) cs = Some (index, c)
      ∧ cs !! index = Some c.
Proof.
  intros Hfiled. rewrite (comment_findById_run id s Hfiled). intros [= Hfirst].
  apply firstWithId_Some in Hfirst as (k & Hk & Hfind).
  destruct (Store.comments s !! k) as [cs |] eqn:Hcs; [|done]. simpl in Hfind.
  destruct (find_elem_of _ _ _ Hfind) as [Hin Hid].
  apply bool_decide_eq_true in Hid.
  destruct (Hfiled k cs Hcs) as [_ Hart]. rewrite (Hart c Hin).
  split; [done|].
  destruct (find_list_find id cs c Hfind) as (index & Hlf & Hlook).
  by exists cs, index.
Qed.

(** X22. [findById] of the comment store, which scans the comment files:
    when every file name gives back its article id, it finds a comment
    with the given id exactly when some file holds one, the comment it
    returns carries that id and is stored in the file of its own article,
    and the scan writes nothing. *)
Theorem comment_findById_complete (id : string) (s : Store.t) :
  commentsFiled s →
  ∃ found,
    FileCommentRepository.findById id s = (Ok found, s)
    ∧ (is_Some found
       ↔ ∃ k cs c, Store.comments s !! k = Some cs
                   ∧ c ∈ cs ∧ Comment.id c = id)
    ∧ ∀ c, found = Some c →
           Comment.id c = id
           ∧ ∃ cs, Store.comments s !! Comment.articleId c = Some cs
                   ∧ c ∈ cs.
Proof.
  intros Hfiled. rewrite (comment_findById_run id s Hfiled).
  eexists. split; [done|]. split.
  - split.
    + intros [c Hfirst].
      apply firstWithId_Some in Hfirst as (k & _ & Hfind).
      destruct (Store.comments s !! k) as [cs |] eqn:Hcs; [|done].
      destruct (find_elem_of _ _ _ Hfind) as [Hin Hid].
      apply bool_decide_eq_true in Hid. by exists k, cs, c.
    + intros (k & cs & c & Hcs & Hin & Hid).
      destruct (firstWithId id s (map_to_list (Store.comments s)).*1)
        as [c' |] eqn:Hfirst; [by eexists|].
      exfalso. apply (firstWithId_None id s _ Hfirst k c); [|by rewrite Hcs|done].
      apply list_elem_of_fmap. exists (k, cs). split; [done|].
      by apply elem_of_map_to_list.
  - intros c Hc. 
    assert (Hrun : FileCommentRepository.findById id s = (Ok (Some c), s))
      by by rewrite (comment_findById_run id s Hfiled), Hc.
    destruct (comment_findById_found id s c Hfiled Hrun)
      as (Hid & cs & index & Hcs & _ & Hlook).
    split; [done|]. exists cs. split; [done|].
    by apply list_elem_of_lookup_2 in Hlook.
Qed.

Lemma comment_repo_update_run (now : Z) (id content : string) (s : Store.t)
    (c : Comment.t) (cs : list Comment.t) (index : nat) :
  FileCommentRepository.findById id s = (Ok (Some c), s) →
  Store.comments s !! Comment.articleId c = Some cs →
  list_find (λ c, Comment.id c = id) cs = Some (index, c) →
  FileCommentRepository.update now id content s
  = (Ok (FileCommentRepository.edited now content c),
     Store.setComments
       (insert (Comment.articleId c)
          (<[index := FileCommentRepository.edited now content c]> cs)) s).
Proof.
  intros Hfound Hcs Hindex. unfold FileCommentRepository.update.
  rewrite (bind_Ok _ _ _ _ _ Hfound).
  assert (Hload : FileCommentRepository.loadComments (Comment.articleId c) s
                  = (Ok cs, s)).
  { unfold FileCommentRepository.loadComments, gets. by rewrite Hcs. }
  rewrite (bind_Ok _ _ _ _ _ Hload), Hindex.
  done.
Qed.

Lemma comment_repo_delete_run (id : string) (s : Store.t) (c : Comment.t)
    (cs : list Comment.t) :
  FileCommentRepository.findById id s = (Ok (Some c), s) →
  Store.comments s !! Comment.articleId c = Some cs →
  FileCommentRepository.delete_ id s
  = (Ok tt,
     Store.setComments
       (insert (Comment.articleId c)
          (List.filter (λ c, negb (bool_decide (Comment.id c = id))) cs)) s).
Proof.
  intros Hfound Hcs. unfold FileCommentRepository.delete_.
  rewrite (bind_Ok _ _ _ _ _ Hfound).
  assert (Hload : FileCommentRepository.loadComments (Comment.articleId c) s
                  = (Ok cs, s)).
  { unfold FileCommentRepository.loadComments, gets. by rewrite Hcs. }
  by rewrite (bind_Ok _ _ _ _ _ Hload).
Qed.

Lemma sublist_filter_bool {A} (p : A → bool) (l : list A) :
  List.filter p l `sublist_of` l.
Proof.
  induction l as [| x l IH]; simpl; [constructor|].
  destruct (p x); by constructor.
Qed.

Lemma comment_canOwnOrAll_role (u : User.t) (c : Comment.t)
    (own all : Permission) :
  (own = comment_edit_own ∧ all = comment_edit_all)
  ∨ (own = comment_delete_own ∧ all = comment_delete_all) →
  CommentService.canOwnOrAll u c own all = true
  ↔ User.role u = editor
    ∨ (User.role u ≠ reader ∧ Comment.authorId c = User.id u).
Proof.
  intros Hperm. unfold CommentService.canOwnOrAll, hasPermission.
  destruct Hperm as [[-> ->] | [-> ->]];
    destruct (User.role u); simpl;
    rewrite ?orb_false_r, ?orb_true_r, ?bool_decide_eq_true;
    intuition (try done; try congruence).
Qed.

Section CommentEdits.

Variable trim : string → string.
Variables (s : Store.t) (id : string) (c : Comment.t) (u : User.t).
Hypothesis Hfiled : commentsFiled s.
Hypothesis Hfound : FileCommentRepository.findById id s = (Ok (Some c), s).

(** X23. Editing a comment: the comment's author, unless a reader, and
    every editor may do it, anybody else gets a 403 and an invalid text a
    422, both without any write. A successful edit replaces the comment
    in place, in the file of its article, by one with the trimmed text,
    the edit mark and the time of the edit; id, author and creation time
    are kept, and so are all other comments and their order. The state of
    the article is not looked at. *)
Theorem comment_update_effect (now : Z) (content : string) :
  let run := CommentService.update trim now id content u s in
  let may :=
    CommentService.canOwnOrAll u c comment_edit_own comment_edit_all in
  (may = true
   ↔ User.role u = editor
     ∨ (User.role u ≠ reader ∧ Comment.authorId c = User.id u))
  ∧ (may = false → ∃ e, run = (Err e, s) ∧ statusCode e = 403)
  ∧ (may = true → CommentService.validateCommentInput trim content ≠ [] →
     ∃ e, run = (Err e, s) ∧ statusCode e = 422)
  ∧ (may = true → CommentService.validateCommentInput trim content = [] →
     ∃ cs index e,
       Store.comments s !! Comment.articleId c = Some cs
       ∧ cs !! index = Some c
       ∧ run = (Ok e,
                Store.setComments
                  (insert (Comment.articleId c) (<[index := e]> cs)) s)
       ∧ Comment.content e = trim content
       ∧ Comment.isEdited e = true
       ∧ Comment.updatedAt e = Some now
       ∧ Comment.id e = Comment.id c
       ∧ Comment.authorId e = Comment.authorId c
       ∧ Comment.createdAt e = Comment.createdAt c
       ∧ length (<[index := e]> cs) = length cs
       ∧ ∀ j, j ≠ index → <[index := e]> cs !! j = cs !! j).
Proof.
  intros run may. unfold run, may.
  split; [apply comment_canOwnOrAll_role; by left|].
  unfold CommentService.update. rewrite (bind_Ok _ _ _ _ _ Hfound).
  split; [|split].
  - intros ->. cbn [negb].
    rewrite (bind_Err _ _ _ _ _ (throwIf_true _ _)). by eexists.
  - intros -> Hbad. cbn [negb].
    rewrite (bind_Ok _ _ _ _ _ (throwIf_false _ _)).
    unfold ArticleService.isValid.
    rewrite bool_decide_eq_false_2 by done. cbn [negb].
    rewrite (bind_Err _ _ _ _ _ (throwIf_true _ _)). by eexists.
  - intros -> Hgood. cbn [negb].
    rewrite (bind_Ok _ _ _ _ _ (throwIf_false _ _)).
    rewrite Hgood. change (ArticleService.isValid []) with true. cbn [negb].
    rewrite (bind_Ok _ _ _ _ _ (throwIf_false _ _)).
    destruct (comment_findById_found id s c Hfiled Hfound)
      as (Hid & cs & index & Hcs & Hlf & Hlook).
    rewrite (comment_repo_update_run now id (trim content) s c cs index
               Hfound Hcs Hlf).
    exists cs, index. eexists. split; [done|]. split; [done|].
    split; [reflexivity|]. simpl. repeat split; try done.
    + apply length_insert.
    + intros j Hj. by apply list_lookup_insert_ne.
Qed.

End CommentEdits.

(** X24. Deleting a comment: allowed to the same users as editing it
    (with the delete permissions), a 403 without any write for the
    others. A successful deletion rewrites the file of the comment's
    article without the comments that carry this id; the comments with
    other ids stay, in their order, and no other file is touched. *)
Theorem comment_delete_effect (s : Store.t) (id : string) (c : Comment.t)
    (u : User.t) :
  commentsFiled s →
  FileCommentRepository.findById id s = (Ok (Some c), s) →
  let run := CommentService.delete_ id u s in
  let may :=
    CommentService.canOwnOrAll u c comment_delete_own comment_delete_all in
  (may = true
   ↔ User.role u = editor
     ∨ (User.role u ≠ reader ∧ Comment.authorId c = User.id u))
  ∧ (may = false → ∃ e, run = (Err e, s) ∧ statusCode e = 403)
  ∧ (may = true →
     ∃ cs left,
       Store.comments s !! Comment.articleId c = Some cs
       ∧ run = (Ok tt,
                Store.setComments (insert (Comment.articleId c) left) s)
       ∧ left `sublist_of` cs
       ∧ (∀ c', c' ∈ left ↔ c' ∈ cs ∧ Comment.id c' ≠ id)
       ∧ ∀ k, k ≠ Comment.articleId c →
              Store.comments run.2 !! k = Store.comments s !! k).
Proof.
  intros Hfiled Hfound run may. unfold run, may.
  split; [apply comment_canOwnOrAll_role; by right|].
  unfold CommentService.delete_. rewrite (bind_Ok _ _ _ _ _ Hfound).
  split.
  - intros ->. cbn [negb].
    rewrite (bind_Err _ _ _ _ _ (throwIf_true _ _)). by eexists.
  - intros ->. cbn [negb].
    rewrite (bind_Ok _ _ _ _ _ (throwIf_false _ _)).
    destruct (comment_findById_found id s c Hfiled Hfound)
      as (Hid & cs & index & Hcs & _ & _).
    rewrite (comment_repo_delete_run id s c cs Hfound Hcs).
    eexists cs, _. split; [done|]. split; [reflexivity|].
    split; [|split].
    + apply sublist_filter_bool.
    + intros c'. rewrite list_elem_of_In, filter_In, <- list_elem_of_In.
      rewrite negb_true_iff, bool_decide_eq_false. tauto.
    + intros k Hk. cbn [snd Store.comments Store.setComments].
      by rewrite lookup_insert_ne.
Qed.

Lemma commentsFiled_commented : commentsFiled Sample.commented.
Proof.
  intros k cs Hk. destruct (decide (k = "a1")) as [-> | Hne].
  - injection Hk as <-. split; [done|].
    intros c Hc. repeat (apply elem_of_cons in Hc as [-> | Hc]; [done|]).
    by apply elem_of_nil in Hc.
  - unfold Sample.commented in Hk. simpl in Hk.
    by rewrite lookup_insert_ne in Hk.
Qed.

Lemma comment_update_effect_witness :
  ∃ e s',
    CommentService.update (λ x, x) 30 "c1" "Edited" Sample.actorUser
      Sample.commented = (Ok e, s')
    ∧ Comment.content e = "Edited"
    ∧ Comment.isEdited e = true
    ∧ Comment.authorId e = "actor-001".
Proof.
  destruct (comment_update_effect (λ x, x) Sample.commented "c1"
              (Sample.comment "c1" "a1" Sample.actorUser "First" 10)
              Sample.actorUser commentsFiled_commented eq_refl 30 "Edited")
    as (_ & _ & _ & Hok).
  destruct (Hok eq_refl eq_refl)
    as (cs & index & e & _ & _ & Hrun & Hcontent & Hedited & _ & _ & Hauthor
        & _).
  exists e. eexists. split; [exact Hrun|]. by rewrite Hauthor.
Defined.

Lemma comment_delete_effect_witness :
  (∃ e, CommentService.delete_ "c2" Sample.actorUser Sample.commented
        = (Err e, Sample.commented)
        ∧ statusCode e = 403)
  ∧ ∃ left,
      CommentService.delete_ "c2" Sample.editorUser Sample.commented
      = (Ok tt, Store.setComments (insert "a1" left) Sample.commented)
      ∧ ∀ c', c' ∈ left → Comment.id c' ≠ "c2".
Proof.
  split.
  - destruct (comment_delete_effect Sample.commented "c2"
                (Sample.comment "c2" "a1" Sample.authorUser "Second" 20)
                Sample.actorUser commentsFiled_commented eq_refl)
      as (_ & Hdenied & _).
    by apply Hdenied.
  - destruct (comment_delete_effect Sample.commented "c2"
                (Sample.comment "c2" "a1" Sample.authorUser "Second" 20)
                Sample.editorUser commentsFiled_commented eq_refl)
      as (_ & _ & Hok).
    destruct (Hok eq_refl) as (cs & left & _ & Hrun & _ & Hleft & _).
    exists left. split; [exact Hrun|]. intros c' Hc'. by apply Hleft.
Defined.

Lemma all_roles_view_comments (u : User.t) :
  hasPermission u comment_view = true.
Proof. unfold hasPermission. by destruct (User.role u). Qed.

(** X25. Listing the comments of an article: a 404 when the article does
    not exist, and otherwise, for every user and whatever the state of the
    article, all comments of its file, each once, oldest first, with
    their number as [totalCount]; the call writes nothing. *)
Theorem comment_getByArticle_lists (articleId : string) (u : User.t)
    (s : Store.t) :
  let run := CommentService.getByArticle articleId u s in
  (Store.articles s !! articleId = None →
   run = (Err (NotFoundError "Article" articleId), s))
  ∧ (is_Some (Store.articles s !! articleId) →
     ∃ r,
       run = (Ok r, s)
       ∧ CommentListResponse.articleId r = articleId
       ∧ CommentListResponse.comments r
         ≡ₚ default [] (Store.comments s !! articleId)
       ∧ StronglySorted oldestFirst (CommentListResponse.comments r)
       ∧ CommentListResponse.totalCount r
         = Z.of_nat (length (default [] (Store.comments s !! articleId)))).
Proof.
  intros run. unfold run, CommentService.getByArticle.
  rewrite all_roles_view_comments. cbn [negb].
  rewrite (bind_Ok _ _ _ _ _ (throwIf_false _ _)).
  rewrite (bind_Ok _ _ _ _ _ (exists_run articleId s)).
  split.
  - intros Hnone. rewrite Hnone.
    rewrite bool_decide_eq_false_2 by by intros [? ?]. cbn [negb].
    by rewrite (bind_Err _ _ _ _ _ (throwIf_true _ _)).
  - intros Hsome. rewrite bool_decide_eq_true_2 by done. cbn [negb].
    rewrite (bind_Ok _ _ _ _ _ (throwIf_false _ _)).
    eexists. split; [reflexivity|].
    cbn [CommentListResponse.articleId CommentListResponse.comments
         CommentListResponse.totalCount].
    split; [done|]. split; [apply arraySort_perm|]. split.
    + apply (StronglySorted_weaken
               (inOrder (λ a b, Z.sgn (Comment.createdAt a
                                       - Comment.createdAt b)))).
      * unfold inOrder, oldestFirst. intros; lia.
      * apply arraySort_sorted; intros; lia.
    + by rewrite length_arraySort.
Qed.

Lemma comment_findById_complete_witness :
  ∃ found,
    FileCommentRepository.findById "c1" Sample.commented
    = (Ok found, Sample.commented)
    ∧ (is_Some found
       ↔ ∃ k cs c, Store.comments Sample.commented !! k = Some cs
                   ∧ c ∈ cs ∧ Comment.id c = "c1")
    ∧ ∀ c, found = Some c →
           Comment.id c = "c1"
           ∧ ∃ cs, Store.comments Sample.commented !! Comment.articleId c
                   = Some cs
                   ∧ c ∈ cs.
Proof.
  apply (comment_findById_complete "c1" Sample.commented).
  apply commentsFiled_commented.
Defined.

(** * Categories *)

Lemma NoDup_list_insert {A} (l : list A) (i : nat) (x : A) :
  NoDup l →
  (∀ j y, j ≠ i → l !! j = Some y → y ≠ x) →
  NoDup (<[i := x]> l).
Proof.
  intros Hnd Hfresh. apply NoDup_alt. intros j k y Hj Hk.
  destruct (decide (j = i)) as [-> | Hji], (decide (k = i)) as [-> | Hki];
    try done.
  - apply list_lookup_insert_Some in Hj as [(_ & <- & _) | [? _]]; [|done].
    rewrite list_lookup_insert_ne in Hk by done.
    by destruct (Hfresh k x Hki Hk).
  - apply list_lookup_insert_Some in Hk as [(_ & <- & _) | [? _]]; [|done].
    rewrite list_lookup_insert_ne in Hj by done.
    by destruct (Hfresh j x Hji Hj).
  - rewrite list_lookup_insert_ne in Hj by done.
    rewrite list_lookup_insert_ne in Hk by done.
    by apply (proj1 (NoDup_alt l) Hnd j k y).
Qed.

Lemma fmap_mutateFirst {B} (g : Category.t → B) (p : Category.t → bool)
    (f : Category.t → Category.t) (cats : list Category.t) :
  (∀ c, g (f c) = g c) →
  g <$> FileCategoryRepository.mutateFirst p f cats = g <$> cats.
Proof.
  intros Hg. induction cats as [| c cats IH]; [done|].
  cbn [FileCategoryRepository.mutateFirst].
  destruct (p c); rewrite !fmap_cons; [by rewrite Hg | by rewrite IH].
Qed.

Lemma fmap_filter_sublist {A B} (g : A → B) (p : A → bool) (l : list A) :
  g <$> List.filter p l `sublist_of` g <$> l.
Proof.
  induction l as [| x l IH]; [constructor|].
  cbn [List.filter]. destruct (p x); rewrite !fmap_cons; by constructor.
Qed.

Lemma existsb_false_elem {A} (p : A → bool) (l : list A) :
  existsb p l = false ↔ ∀ x, x ∈ l → p x = false.
Proof.
  induction l as [| y l IH]; simpl.
  - split; [|done]. by intros _ x ?%elem_of_nil.
  - rewrite orb_false_iff, IH. split.
    + intros [Hy Hall] x [-> | Hx]%elem_of_cons; [done | by apply Hall].
    + intros Hall. split; [apply Hall; by left|].
      intros x Hx. apply Hall. by right.
Qed.

Section Categories.

Variable toLowerCase : string → string.

Lemma category_create_run (now : Z) (uuid name : string)
    (description parentId : option string) (s : Store.t) :
  FileCategoryRepository.create toLowerCase now uuid name description
    parentId s
  = if existsb (FileCategoryRepository.sameName toLowerCase name)
         (Store.categories s)
    then (Err (InternalError ("Category '" +:+ name +:+ "' already exists")),
          s)
    else
      let category :=
        {| Category.id := uuid;
           Category.name := name;
           Category.description := description;
           Category.parentId := parentId;
           Category.order := Z.of_nat (length (Store.categories s)) + 1;
           Category.articleCount := 0;
           Category.createdAt := now;
           Category.updatedAt := None |} in
      (Ok category,
       Store.setCategories (λ _, Store.categories s ++ [category]) s).
Proof.
  unfold FileCategoryRepository.create.
  assert (Hget : gets Store.categories s = (Ok (Store.categories s), s))
    by done.
  rewrite (bind_Ok _ _ _ _ _ Hget).
  destruct (existsb _ (Store.categories s)).
  - by rewrite (bind_Err _ _ _ _ _ (throwIf_true _ _)).
  - by rewrite (bind_Ok _ _ _ _ _ (throwIf_false _ _)).
Qed.

Lemma category_update_run (now : Z) (id : string)
    (name description : option string) (s : Store.t) :
  FileCategoryRepository.update toLowerCase now id name description s
  = match list_find (λ c, Category.id c = id) (Store.categories s) with
    | None => (Err (NotFoundError "Category" id), s)
    | Some (index, current) =>
        if match name with
           | Some n =>
               isTruthy n
               && existsb
                    (λ c, negb (bool_decide (Category.id c = id))
                          && FileCategoryRepository.sameName toLowerCase n c)
                    (Store.categories s)
           | None => false
           end
        then (Err (InternalError
                     ("Category '" +:+ default "" name
                      +:+ "' already exists")), s)
        else
          (Ok (FileCategoryRepository.renamed now name description current),
           Store.setCategories
             (λ _, <[index := FileCategoryRepository.renamed now name
                                description current]>
                     (Store.categories s)) s)
    end.
Proof.
  unfold FileCategoryRepository.update.
  assert (Hget : gets Store.categories s = (Ok (Store.categories s), s))
    by done.
  rewrite (bind_Ok _ _ _ _ _ Hget).
  destruct (list_find _ (Store.categories s)) as [[index current] |]; [|done].
  destruct (match name with Some _ => _ | None => _ end).
  - by rewrite (bind_Err _ _ _ _ _ (throwIf_true _ _)).
  - by rewrite (bind_Ok _ _ _ _ _ (throwIf_false _ _)).
Qed.

Lemma category_delete_run (id : string) (s : Store.t) :
  FileCategoryRepository.delete_ id s
  = match List.find (λ c, bool_decide (Category.id c = id))
            (Store.categories s) with
    | None => (Err (NotFoundError "Category" id), s)
    | Some category =>
        if 0 <? Category.articleCount category
        then (Err (InternalError
                     ("Cannot delete category '" +:+ Category.name category
                      +:+ "' - it has "
                      +:+ pretty (Category.articleCount category)
                      +:+ " articles")), s)
        else (Ok tt,
              Store.setCategories
                (λ _, List.filter
                        (λ c, negb (bool_decide (Category.id c = id)))
                        (Store.categories s)) s)
    end.
Proof.
  unfold FileCategoryRepository.delete_.
  assert (Hget : gets Store.categories s = (Ok (Store.categories s), s))
    by done.
  rewrite (bind_Ok _ _ _ _ _ Hget).
  destruct (List.find _ (Store.categories s)) as [category |]; [|done].
  destruct (0 <? Category.articleCount category).
  - by rewrite (bind_Err _ _ _ _ _ (throwIf_true _ _)).
  - by rewrite (bind_Ok _ _ _ _ _ (throwIf_false _ _)).
Qed.

(** X26. Category ids and category names, compared without regard to
    case, stay unique: a store in which they are unique keeps them unique
    under [create] with a fresh id, [update], [delete] and
    [updateArticleCount], whether the call succeeds or fails; [create]
    refuses a name that an existing category carries in another case. *)
Theorem category_names_stay_unique (s : Store.t) :
  uniqueCategories toLowerCase (Store.categories s) →
  (∀ now uuid name description parentId,
     let run :=
       FileCategoryRepository.create toLowerCase now uuid name description
         parentId s in
     ((∃ c, c ∈ Store.categories s
            ∧ toLowerCase (Category.name c) = toLowerCase name) →
      ∃ e, run = (Err e, s))
     ∧ ((∀ c, c ∈ Store.categories s → Category.id c ≠ uuid) →
        uniqueCategories toLowerCase (Store.categories run.2)))
  ∧ (∀ now id name description,
       uniqueCategories toLowerCase
         (Store.categories
            (FileCategoryRepository.update toLowerCase now id name
               description s).2))
  ∧ (∀ id,
       uniqueCategories toLowerCase
         (Store.categories (FileCategoryRepository.delete_ id s).2))
  ∧ (∀ categoryName delta,
       uniqueCategories toLowerCase
         (Store.categories
            (FileCategoryRepository.updateArticleCount categoryName delta
               s).2)).
Proof.
  intros [Hids Hnames]. split; [|split; [|split]].
  - intros now uuid name description parentId run. unfold run.
    rewrite category_create_run. split.
    + intros (c & Hc & Hsame).
      destruct (existsb _ (Store.categories s)) eqn:Hex; [by eexists|].
      rewrite existsb_false_elem in Hex. specialize (Hex c Hc).
      unfold FileCategoryRepository.sameName in Hex.
      by rewrite bool_decide_eq_true_2 in Hex.
    + intros Hfresh.
      destruct (existsb _ (Store.categories s)) eqn:Hex; [done|].
      rewrite existsb_false_elem in Hex.
      cbn [snd Store.categories Store.setCategories].
      split; rewrite fmap_app; apply NoDup_app; (split; [done|]);
        (split; [|apply NoDup_singleton]);
        intros x Hx ->%list_elem_of_singleton;
        apply list_elem_of_fmap in Hx as (c & Hxc & Hc); simpl in Hxc.
      * by apply (Hfresh c Hc).
      * specialize (Hex c Hc).
        unfold FileCategoryRepository.sameName in Hex.
        by rewrite bool_decide_eq_true_2 in Hex.
  - intros now id name description. rewrite category_update_run.
    destruct (list_find _ (Store.categories s)) as [[index current] |] eqn:Hfind;
      [|done].
    apply list_find_Some in Hfind as (Hlook & Hid & _).
    destruct (match name with Some _ => _ | None => _ end) eqn:Hclash; [done|].
    cbn [snd Store.categories Store.setCategories].
    split; rewrite list_fmap_insert.
    + rewrite list_insert_id; [done|].
      by rewrite list_lookup_fmap, Hlook.
    + destruct name as [n |]; cbn [FileCategoryRepository.renamed Category.name];
        [destruct (isTruthy n) eqn:Htruthy|].
      * cbn [andb] in Hclash. rewrite existsb_false_elem in Hclash.
        apply NoDup_list_insert; [done|].
        intros j y Hj Hy Heq. rewrite list_lookup_fmap in Hy.
        destruct (Store.categories s !! j) as [c |] eqn:Hc; [|done].
        injection Hy as <-.
        specialize (Hclash c (list_elem_of_lookup_2 _ _ _ Hc)).
        unfold FileCategoryRepository.sameName in Hclash.
        rewrite (bool_decide_eq_true_2 _ Heq), andb_true_r in Hclash.
        apply negb_false_iff, bool_decide_eq_true in Hclash.
        apply Hj.
        apply (proj1 (NoDup_alt _) Hids j index id);
          rewrite list_lookup_fmap; [rewrite Hc; simpl; by rewrite Hclash|].
        rewrite Hlook. simpl. by rewrite Hid.
      * rewrite list_insert_id; [done|].
        by rewrite list_lookup_fmap, Hlook.
      * rewrite list_insert_id; [done|].
        by rewrite list_lookup_fmap, Hlook.
  - intros id. rewrite category_delete_run.
    destruct (List.find _ (Store.categories s)) as [category |]; [|done].
    destruct (0 <? Category.articleCount category); [done|].
    cbn [snd Store.categories Store.setCategories].
    split; (eapply sublist_NoDup; [|apply fmap_filter_sublist]; done).
  - intros categoryName delta. rewrite updateArticleCount_run.
    destruct (FileCategoryRepository.findByExactName _ _); [|done].
    cbn [snd Store.categories Store.setCategories].
    split; by rewrite fmap_mutateFirst.
Qed.

End Categories.

Lemma uniqueCategories_seeded :
  uniqueCategories (λ x, x) (Store.categories Sample.seeded).
Proof.
  split; (apply NoDup_cons; split; [|apply NoDup_singleton]);
    by intros ?%list_elem_of_singleton.
Qed.

Lemma category_names_stay_unique_witness :
  (∃ e, FileCategoryRepository.create (λ x, x) 5 "c3" "Security" None None
          Sample.seeded = (Err e, Sample.seeded))
  ∧ uniqueCategories (λ x, x)
      (Store.categories
         (FileCategoryRepository.create (λ x, x) 5 "c3" "Printing" None None
            Sample.seeded).2).
Proof.
  destruct (category_names_stay_unique (λ x, x) Sample.seeded
              uniqueCategories_seeded) as (Hcreate & _).
  split.
  - destruct (Hcreate 5 "c3" "Security" None None) as [Hdup _].
    apply Hdup. exists (Sample.category "Security" 0).
    split; [by left | done].
  - destruct (Hcreate 5 "c3" "Printing" None None) as [_ Hnew].
    apply Hnew. intros c Hc.
    repeat (apply elem_of_cons in Hc as [-> | Hc]; [done|]).
    by apply elem_of_nil in Hc.
Defined.

(** X27. A category is deleted only when its counter is not positive:
    [delete] answers 404 for an unknown id, refuses the first category
    with that id while it counts articles, and otherwise removes the
    categories with that id and nothing else; no article is touched, so
    an article may keep the name of a category that is gone. *)
Theorem category_delete_only_empty (id : string) (s : Store.t) :
  let run := FileCategoryRepository.delete_ id s in
  let first :=
    List.find (λ c, bool_decide (Category.id c = id)) (Store.categories s) in
  (first = None ↔ ∀ c, c ∈ Store.categories s → Category.id c ≠ id)
  ∧ (first = None → run = (Err (NotFoundError "Category" id), s))
  ∧ (∀ c, first = Some c → 0 < Category.articleCount c →
          ∃ e, run = (Err e, s) ∧ statusCode e = 500)
  ∧ (∀ c, first = Some c → Category.articleCount c ≤ 0 →
          run.1 = Ok tt
          ∧ (∀ c', c' ∈ Store.categories run.2
                   ↔ c' ∈ Store.categories s ∧ Category.id c' ≠ id)
          ∧ Store.categories run.2 `sublist_of` Store.categories s
          ∧ Store.articles run.2 = Store.articles s).
Proof.
  intros run first. unfold run, first. rewrite category_delete_run.
  split; [|split; [|split]].
  - rewrite find_none_elem. apply forall_proper. intros c.
    by rewrite bool_decide_eq_false.
  - by intros ->.
  - intros c -> Hpos. rewrite (proj2 (Z.ltb_lt _ _) Hpos). by eexists.
  - intros c -> Hzero. rewrite (proj2 (Z.ltb_ge _ _) Hzero).
    cbn [fst snd Store.categories Store.articles Store.setCategories].
    split; [done|]. split; [|split; [apply sublist_filter_bool | done]].
    intros c'. rewrite list_elem_of_In, filter_In, <- list_elem_of_In.
    rewrite negb_true_iff, bool_decide_eq_false. tauto.
Qed.

(** * From the route to the response *)

Lemma isHexDigit_not_dot (c : Ascii.ascii) :
  Validation.isHexDigit c = true → bool_decide ("."%char = c) = false.
Proof.
  intros Hhex. apply bool_decide_eq_false. intros <-. done.
Qed.

Lemma matchesPattern_no_dot (pattern : list Validation.UuidChar)
    (value : string) :
  Validation.matchesPattern pattern value = true →
  includesString "." value = false.
Proof.
  revert value. induction pattern as [| p pattern IH]; intros value.
  - by destruct value.
  - destruct value as [| c value]; [by destruct p|].
    cbn [Validation.matchesPattern].
    destruct p; intros [Hc Hrest]%andb_true_iff;
      cbn [includesString]; rewrite (IH value Hrest), orb_false_r;
      unfold startsWith; cbn [stripPrefix].
    + rewrite (isHexDigit_not_dot c Hc). by apply bool_decide_eq_false_2.
    + apply bool_decide_eq_true in Hc as ->.
      by apply bool_decide_eq_false_2.
Qed.

Lemma validateUUID_run (paramName id : string) (s : Store.t) :
  Validation.validateUUID paramName (Some id) s
  = if Validation.matchesPattern Validation.uuidPattern id
    then (Ok tt, s)
    else (Err (BadRequestError ("Invalid " +:+ paramName +:+ " format")), s).
Proof.
  unfold Validation.validateUUID.
  destruct (Validation.matchesPattern Validation.uuidPattern id) eqn:Hm.
  - assert (Hfull : isTruthy id = true) by by destruct id.
    by rewrite Hfull.
  - by rewrite orb_true_r.
Qed.

Lemma service_acquireLock_denied (cfg : Config.t) (now : Z) (i : string)
    (u : User.t) (s : Store.t) (a : Article.t) :
  Store.articles s !! i = Some a →
  ArticleService.canOwnOrAll u a article_edit_own article_edit_all = false →
  LockService.acquireLock cfg now i u s
  = (Err (ForbiddenError "You do not have permission to edit this article"),
     s).
Proof.
  intros Hfound Hperm. unfold LockService.acquireLock.
  rewrite (bind_Ok _ _ _ _ _ (findById_run i s)), Hfound, Hperm.
  by rewrite (bind_Err _ _ _ _ _ (throwIf_true _ _)).
Qed.

Lemma service_acquireLock_conflict (cfg : Config.t) (now : Z) (i : string)
    (u : User.t) (s : Store.t) (a : Article.t) (l : ArticleLock.t) :
  Store.articles s !! i = Some a →
  ArticleService.canOwnOrAll u a article_edit_own article_edit_all = true →
  Store.locks s !! i = Some l →
  now ≤ ArticleLock.expiresAt l →
  ArticleLock.lockedBy l ≠ User.id u →
  LockService.acquireLock cfg now i u s
  = (Ok {| LockAcquisitionResult.success := false;
           LockAcquisitionResult.lock := Some l;
           LockAcquisitionResult.message :=
             "Article is currently being edited by "
             +:+ ArticleLock.lockedByName l |}, s).
Proof.
  intros Hfound Hperm Hl Hlive Hother. unfold LockService.acquireLock.
  rewrite (bind_Ok _ _ _ _ _ (findById_run i s)), Hfound, Hperm.
  cbn [negb]. rewrite (bind_Ok _ _ _ _ _ (throwIf_false _ _)).
  by rewrite (bind_Ok _ _ _ _ _
                (acquireLock_foreign cfg now i (User.id u)
                   (User.displayName u) s l Hl Hlive Hother)).
Qed.

Lemma service_acquireLock_granted (cfg : Config.t) (now : Z) (i : string)
    (u : User.t) (s : Store.t) (a : Article.t) :
  Store.articles s !! i = Some a →
  ArticleService.canOwnOrAll u a article_edit_own article_edit_all = true →
  (∀ l, Store.locks s !! i = Some l →
        now ≤ ArticleLock.expiresAt l →
        ArticleLock.lockedBy l = User.id u) →
  let fresh :=
    FileLockRepository.createLock cfg now i (User.id u) (User.displayName u) in
  ∃ res,
    LockService.acquireLock cfg now i u s
    = (Ok res,
       Store.setArticles
         (alter (FileArticleRepository.withLockInfo
                   (Some (User.id u)) (Some (User.displayName u)) (Some now))
                i)
         (Store.setLocks (insert i fresh) s))
    ∧ LockAcquisitionResult.success res = true
    ∧ LockAcquisitionResult.lock res = Some fresh.
Proof.
  intros Hfound Hperm Hmine fresh. unfold LockService.acquireLock.
  rewrite (bind_Ok _ _ _ _ _ (findById_run i s)), Hfound, Hperm.
  cbn [negb]. rewrite (bind_Ok _ _ _ _ _ (throwIf_false _ _)).
  destruct (Store.locks s !! i) as [l |] eqn:Hl.
  - destruct (decide (now ≤ ArticleLock.expiresAt l)) as [Hlive | Hexp].
    + rewrite (bind_Ok _ _ _ _ _
                 (acquireLock_owner cfg now i (User.id u)
                    (User.displayName u) s l Hl Hlive (Hmine l eq_refl Hlive))).
      by eexists.
    + rewrite (bind_Ok _ _ _ _ _
                 (acquireLock_expired cfg now i (User.id u)
                    (User.displayName u) s l Hl ltac:(lia))).
      by eexists.
  - rewrite (bind_Ok _ _ _ _ _
               (acquireLock_free cfg now i (User.id u)
                  (User.displayName u) s Hl)).
    by eexists.
Qed.

(** X28. The answers of [POST /articles/:id/lock], from the role guard to
    the response: 401 for a role below author, 400 for an id that is not a
    UUID, 404 for an unknown article, 403 for a user who may not edit it,
    409 with the code [LOCK_CONFLICT] while another user holds a live
    lock, and all of these without any write; in every other case 200,
    and then the lock file of the article names the caller and gives back
    the article id from its file name, as the cleanup job needs it. *)
Theorem lock_post_responses (cfg : Config.t) (now : Z) (id : string)
    (u : User.t) (s : Store.t) :
  let r := lockRoutes.post cfg now id u s in
  let answer (status : Z) (errorCode : string) :=
    ({| HttpResponse.status := status;
        HttpResponse.errorCode := Some errorCode |}, s) in
  (hasMinimumRole (User.role u) author = false →
   r = answer 401 "UNAUTHORIZED")
  ∧ (hasMinimumRole (User.role u) author = true →
     (Validation.matchesPattern Validation.uuidPattern id = false →
      r = answer 400 "BAD_REQUEST")
     ∧ (Validation.matchesPattern Validation.uuidPattern id = true →
        (Store.articles s !! id = None → r = answer 404 "NOT_FOUND")
        ∧ ∀ a, Store.articles s !! id = Some a →
            (ArticleService.canOwnOrAll u a article_edit_own article_edit_all
             = false →
             r = answer 403 "FORBIDDEN")
            ∧ (ArticleService.canOwnOrAll u a article_edit_own
                 article_edit_all = true →
               (∀ l, Store.locks s !! id = Some l →
                     now ≤ ArticleLock.expiresAt l →
                     ArticleLock.lockedBy l ≠ User.id u →
                     r = answer 409 "LOCK_CONFLICT")
               ∧ ((∀ l, Store.locks s !! id = Some l →
                        now ≤ ArticleLock.expiresAt l →
                        ArticleLock.lockedBy l = User.id u) →
                  r.1 = {| HttpResponse.status := 200;
                           HttpResponse.errorCode := None |}
                  ∧ Store.locks r.2 !! id
                    = Some (FileLockRepository.createLock cfg now id
                              (User.id u) (User.displayName u))
                  ∧ removeFirst ".lock.json"
                      (FileLockRepository.getFilePath id) = id)))).
Proof.
  intros r answer. unfold r, answer, lockRoutes.post, respond.
  cbn [minimumRole]. split.
  - intros Hrole.
    pose proof (requireRole_run author u s) as Hguard. rewrite Hrole in Hguard.
    by rewrite (bind_Err _ _ _ _ _ Hguard).
  - intros Hrole.
    pose proof (requireRole_run author u s) as Hguard. rewrite Hrole in Hguard.
    rewrite (bind_Ok _ _ _ _ _ Hguard). unfold lockController.acquire.
    pose proof (validateUUID_run "id" id s) as Huuid.
    split; intros Hid; rewrite Hid in Huuid.
    { by rewrite (bind_Err _ _ _ _ _ Huuid). }
    rewrite (bind_Ok _ _ _ _ _ Huuid). split.
    + intros Hnone.
      assert (Hrun : LockService.acquireLock cfg now id u s
                     = (Err (NotFoundError "Article" id), s)).
      { unfold LockService.acquireLock.
        by rewrite (bind_Ok _ _ _ _ _ (findById_run id s)), Hnone. }
      by rewrite (bind_Err _ _ _ _ _ Hrun).
    + intros a Hfound. split.
      * intros Hperm.
        by rewrite (bind_Err _ _ _ _ _
                      (service_acquireLock_denied cfg now id u s a Hfound
                         Hperm)).
      * intros Hperm. split.
        -- intros l Hl Hlive Hother.
           by rewrite (bind_Ok _ _ _ _ _
                         (service_acquireLock_conflict cfg now id u s a l
                            Hfound Hperm Hl Hlive Hother)).
        -- intros Hmine.
           destruct (service_acquireLock_granted cfg now id u s a Hfound
                       Hperm Hmine) as (res & Hrun & Hsuccess & _).
           rewrite (bind_Ok _ _ _ _ _ Hrun), Hsuccess.
           split; [done|]. split.
           ++ cbn [snd ret Store.locks Store.setArticles Store.setLocks].
              apply lookup_insert_eq.
           ++ apply lock_file_round_trip.
              by apply (matchesPattern_no_dot Validation.uuidPattern).
Qed.

Lemma includesString_app_r (q a s : string) :
  includesString q s = true → includesString q (a +:+ s) = true.
Proof.
  intros Hs. induction a as [| c a IH]; [done|].
  change (String c a +:+ s) with (String c (a +:+ s)).
  cbn [includesString]. by rewrite IH, orb_true_r.
Qed.

Lemma already_exists_message (name : string) :
  includesString "already exists"
    (messageOf (InternalError ("Category '" +:+ name
                               +:+ "' already exists"))) = true.
Proof.
  cbn [messageOf].
  apply (includesString_app_r _ "Category '").
  by apply includesString_app_r.
Qed.

Lemma required_string_entry (field : string) (data : list (string * JValue))
    (minL maxL : option Z) :
  Validation.validateEntry "" field
    (mkRules TString true minL maxL None None None None None) data [] = [] →
  ∃ v, Validation.getField field data = Some (JStr v) ∧ v ≠ "".
Proof.
  cbn [Validation.validateEntry].
  destruct (Validation.getField field data) as [[| b | n | v | items | fields] |];
    try done.
  case_bool_decide as Hv; [done|]. intros _. by exists v.
Qed.

Section CategoryResponses.

Variable toLowerCase : string → string.

(** X30. The answers of [POST /categories]: the body is checked first, so
    a body the schema refuses is a 422 for every role; a valid body from
    anybody but an editor is a 403; from an editor, a name that an
    existing category carries, in any case, is a 409 with the code
    [CONFLICT]; none of these writes anything. Otherwise the answer is 201
    and one category with the given name, the fresh id and no articles is
    appended. *)
Theorem category_create_responses (now : Z) (uuid : string)
    (body : list (string * JValue)) (u : User.t) (s : Store.t) :
  let r := respond (categoryController.create toLowerCase now uuid body u) s in
  let answer (status : Z) (errorCode : string) :=
    ({| HttpResponse.status := status;
        HttpResponse.errorCode := Some errorCode |}, s) in
  (Validation.validateObject body categoryController.createSchema "" ≠ [] →
   r = answer 422 "VALIDATION_ERROR")
  ∧ (Validation.validateObject body categoryController.createSchema "" = [] →
     (User.role u ≠ editor → r = answer 403 "FORBIDDEN")
     ∧ (User.role u = editor →
        ∃ name,
          categoryController.stringField "name" body = Some name
          ∧ name ≠ ""
          ∧ ((∃ c, c ∈ Store.categories s
                   ∧ toLowerCase (Category.name c) = toLowerCase name) →
             r = answer 409 "CONFLICT")
          ∧ ((∀ c, c ∈ Store.categories s →
                   toLowerCase (Category.name c) ≠ toLowerCase name) →
             r.1 = {| HttpResponse.status := 201;
                      HttpResponse.errorCode := None |}
             ∧ ∃ c, Store.categories r.2 = Store.categories s ++ [c]
                    ∧ Category.name c = name
                    ∧ Category.id c = uuid
                    ∧ Category.articleCount c = 0))).
Proof.
  intros r answer. unfold r, answer, respond, categoryController.create,
    Validation.validateBody, ArticleService.isValid.
  split.
  - intros Hbad. rewrite bool_decide_eq_false_2 by done. cbn [negb].
    by rewrite (bind_Err _ _ _ _ _ (throwIf_true _ _)).
  - intros Hgood. rewrite Hgood. rewrite bool_decide_eq_true_2 by done.
    cbn [negb]. rewrite (bind_Ok _ _ _ _ _ (throwIf_false _ _)).
    split.
    + intros Hrole. by rewrite bool_decide_eq_false_2.
    + intros Hrole. rewrite bool_decide_eq_true_2 by done. cbn [negb].
      apply validateObject_nil in Hgood.
      unfold categoryController.createSchema in Hgood.
      apply Forall_cons in Hgood as [Hname _].
      cbn beta iota delta [fst snd] in Hname.
      apply required_string_entry in Hname as (name & Hget & Hfull).
      exists name. unfold categoryController.stringField at 1.
      rewrite Hget. split; [done|]. split; [done|].
      unfold tryCatch.
      assert (Hfield : categoryController.stringField "name" body = Some name).
      { unfold categoryController.stringField. by rewrite Hget. }
      rewrite Hfield. cbn [default].
      pose proof (category_create_run toLowerCase now uuid name
                    (categoryController.stringField "description" body)
                    (categoryController.stringField "parentId" body) s)
        as Hrun.
      split.
      * intros (c & Hc & Hsame).
        assert (Hex : existsb
                        (FileCategoryRepository.sameName toLowerCase name)
                        (Store.categories s) = true).
        { apply existsb_exists. exists c. split; [by apply list_elem_of_In|].
          by apply bool_decide_eq_true. }
        rewrite Hex in Hrun.
        rewrite (bind_Err _ _ _ _ _ Hrun).
        by rewrite already_exists_message.
      * intros Hnew.
        assert (Hex : existsb
                        (FileCategoryRepository.sameName toLowerCase name)
                        (Store.categories s) = false).
        { apply existsb_false_elem. intros c Hc.
          apply bool_decide_eq_false. by apply Hnew. }
        rewrite Hex in Hrun. cbv zeta in Hrun.
        rewrite (bind_Ok _ _ _ _ _ Hrun).
        split; [done|]. by eexists.
Qed.

End CategoryResponses.

(** * The body schema and the validation of the service *)

Lemma string_entry_bounds (field : string) (data : list (string * JValue))
    (v : string) (minL maxL : option Z) :
  Validation.getField field data = Some (JStr v) →
  Validation.validateEntry "" field
    (mkRules TString true minL maxL None None None None None) data [] = [] →
  v ≠ ""
  ∧ Validation.below minL (ArticleService.len v) = false
  ∧ Validation.above maxL (ArticleService.len v) = false.
Proof.
  cbn [Validation.validateEntry]. intros ->.
  case_bool_decide as Hv; [done|]. cbn [andb].
  destruct (Validation.below minL (ArticleService.len v)),
           (Validation.above maxL (ArticleService.len v)); simpl; done.
Qed.

Lemma asCreateArticleInput_fields (b : articleController.Body.t)
    (input : CreateArticleInput.t) :
  articleController.asCreateArticleInput b = Some input →
  articleController.Body.briefTitle b
  = Some (CreateArticleInput.briefTitle input)
  ∧ articleController.Body.detailedDescription b
    = Some (CreateArticleInput.detailedDescription input)
  ∧ articleController.Body.category b
    = Some (CreateArticleInput.category input)
  ∧ articleController.Body.tags b = CreateArticleInput.tags input
  ∧ articleController.Body.relatedArticles b
    = CreateArticleInput.relatedArticles input.
Proof.
  unfold articleController.asCreateArticleInput.
  destruct (articleController.Body.briefTitle b) as [t |]; [|done].
  destruct (articleController.Body.detailedDescription b) as [d |]; [|done].
  destruct (articleController.Body.category b) as [c |]; [|done].
  simpl.
  destruct (match articleController.Body.status b with
            | Some s => Some <$> articleController.statusOfString s
            | None => Some None
            end) as [st |]; [|done].
  simpl.
  destruct (match articleController.Body.contentFormat b with
            | Some s => Some <$> articleController.contentFormatOfString s
            | None => Some None
            end) as [fmt |]; [|done].
  simpl. by intros [= <-].
Qed.

(** X29. The body schema of [POST /articles] covers the service's checks
    of the three required strings: a body the schema accepts has a title
    of 3 to 150 characters, a description of 10 to 50000 and a non-empty
    category of at most 50, so the validation of the service can only
    object to the number of tags, the length of a tag or the number of
    related articles, which the schema does not bound; with at most 10
    tags of at most 30 characters and at most 10 related articles it
    finds nothing. *)
Theorem schema_covers_required_strings (body : articleController.Body.t)
    (input : CreateArticleInput.t) :
  Validation.validateObject (articleController.Body.toJSON body)
    articleController.createSchema "" = [] →
  articleController.asCreateArticleInput body = Some input →
  let errors :=
    ArticleService.validateArticleInput (ArticleService.ofCreate input) true in
  let tags := default [] (CreateArticleInput.tags input) in
  let related := default [] (CreateArticleInput.relatedArticles input) in
  3 ≤ ArticleService.len (CreateArticleInput.briefTitle input) ≤ 150
  ∧ 10 ≤ ArticleService.len (CreateArticleInput.detailedDescription input)
    ≤ 50000
  ∧ 1 ≤ ArticleService.len (CreateArticleInput.category input) ≤ 50
  ∧ (∀ k, k ∈ errors.*1 → k = "tags" ∨ k = "relatedArticles")
  ∧ (Z.of_nat (length tags) ≤ 10 →
     Forall (λ t, ArticleService.len t ≤ 30) tags →
     Z.of_nat (length related) ≤ 10 →
     errors = []).
Proof.
  intros Hvalid Hinput errors tags related.
  destruct (asCreateArticleInput_fields body input Hinput)
    as (Htitle & Hdesc & Hcat & Htags & Hrel).
  apply validateObject_nil in Hvalid.
  unfold articleController.createSchema in Hvalid.
  repeat match goal with
         | H : Forall _ (_ :: _) |- _ => apply Forall_cons in H as [? H]
         end.
  cbn beta iota delta [fst snd] in *.
  assert (Ht : Validation.getField "briefTitle"
                 (articleController.Body.toJSON body)
               = Some (JStr (CreateArticleInput.briefTitle input)))
    by by rewrite getField_briefTitle, Htitle.
  assert (Hd : Validation.getField "detailedDescription"
                 (articleController.Body.toJSON body)
               = Some (JStr (CreateArticleInput.detailedDescription input)))
    by by rewrite getField_detailedDescription, Hdesc.
  assert (Hc : Validation.getField "category"
                 (articleController.Body.toJSON body)
               = Some (JStr (CreateArticleInput.category input)))
    by by rewrite getField_category, Hcat.
  destruct (string_entry_bounds _ _ _ _ _ Ht ltac:(eassumption))
    as (Ht0 & Ht1 & Ht2).
  destruct (string_entry_bounds _ _ _ _ _ Hd ltac:(eassumption))
    as (Hd0 & Hd1 & Hd2).
  destruct (string_entry_bounds _ _ _ _ _ Hc ltac:(eassumption))
    as (Hc0 & _ & Hc2).
  unfold Validation.below, Validation.above, TITLE_MIN_LENGTH,
    TITLE_MAX_LENGTH, DESCRIPTION_MIN_LENGTH, DESCRIPTION_MAX_LENGTH,
    CATEGORY_MAX_LENGTH in *.
  cbn [negb andb Z.eqb] in *.
  apply Z.ltb_ge in Ht1, Ht2, Hd1, Hd2, Hc2.
  assert (Hc1 : 1 ≤ ArticleService.len (CreateArticleInput.category input)).
  { unfold ArticleService.len.
    destruct (CreateArticleInput.category input); [done | simpl; lia]. }
  split; [done|]. split; [done|]. split; [done|].
  assert (Herrors :
    errors
    = (match CreateArticleInput.tags input with
       | Some tags =>
           if MAX_TAGS <? Z.of_nat (length tags) then
             [("tags", ["Maximum 10 tags allowed"])]
           else if 0 <? Z.of_nat
                          (length (List.filter
                                     (λ t, TAG_MAX_LENGTH
                                           <? ArticleService.len t) tags))
           then [("tags", ["Tags must not exceed 30 characters"])]
           else []
       | None => []
       end)
      ++ match CreateArticleInput.relatedArticles input with
         | Some related =>
             if MAX_RELATED_ARTICLES <? Z.of_nat (length related)
             then [("relatedArticles",
                    ["Maximum 10 related articles allowed"])]
             else []
         | None => []
         end).
  { unfold errors, ArticleService.validateArticleInput, ArticleService.ofCreate.
    cbn [UpdateArticleInput.briefTitle UpdateArticleInput.detailedDescription
         UpdateArticleInput.category UpdateArticleInput.tags
         UpdateArticleInput.relatedArticles default orb andb].
    unfold ArticleService.truthy, TITLE_MIN_LENGTH, TITLE_MAX_LENGTH,
      DESCRIPTION_MIN_LENGTH, DESCRIPTION_MAX_LENGTH, CATEGORY_MAX_LENGTH.
    rewrite !(bool_decide_eq_false_2 _ Ht0), !(bool_decide_eq_false_2 _ Hd0),
      !(bool_decide_eq_false_2 _ Hc0).
    rewrite !orb_true_r. cbn [negb andb]. unfold id.
    rewrite (proj2 (Z.ltb_ge _ _) Ht1), (proj2 (Z.ltb_ge _ _) Ht2),
      (proj2 (Z.ltb_ge _ _) Hd1), (proj2 (Z.ltb_ge _ _) Hd2),
      (proj2 (Z.ltb_ge _ _) Hc2).
    done. }
  split.
  - rewrite Herrors. intros k. rewrite fmap_app, elem_of_app.
    intros [Hk | Hk]; [left | right].
    + destruct (CreateArticleInput.tags input) as [ts |];
        [|by apply elem_of_nil in Hk].
      repeat case_match; simpl in Hk;
        first [ by apply list_elem_of_singleton in Hk
              | by apply elem_of_nil in Hk ].
    + destruct (CreateArticleInput.relatedArticles input) as [rs |];
        [|by apply elem_of_nil in Hk].
      repeat case_match; simpl in Hk;
        first [ by apply list_elem_of_singleton in Hk
              | by apply elem_of_nil in Hk ].
  - intros Hcount Hshort Hrelated. rewrite Herrors.
    unfold tags, related, MAX_TAGS, MAX_RELATED_ARTICLES, TAG_MAX_LENGTH in *.
    destruct (CreateArticleInput.tags input) as [ts |];
      destruct (CreateArticleInput.relatedArticles input) as [rs |];
      simpl in *;
      rewrite ?(proj2 (Z.ltb_ge _ _) Hcount), ?(proj2 (Z.ltb_ge _ _) Hrelated);
      try done.
    all: assert (Hnone : List.filter (λ t, 30 <? ArticleService.len t) ts
                         = []);
      [ clear -Hshort; induction Hshort as [| t ts Ht _ IH]; simpl; [done|];
        by rewrite (proj2 (Z.ltb_ge _ _) Ht)
      | by rewrite Hnone ].
Qed.

Lemma schema_covers_required_strings_witness :
  ArticleService.validateArticleInput
    (ArticleService.ofCreate (Sample.vpnInput None)) true = [].
Proof.
  pose (body := {| articleController.Body.briefTitle := Some "VPN setup";
                   articleController.Body.detailedDescription :=
                     Some "How to set up the VPN client";
                   articleController.Body.category := Some "Security";
                   articleController.Body.tags := Some ["vpn"];
                   articleController.Body.relatedArticles := None;
                   articleController.Body.status := None;
                   articleController.Body.expirationDate := None;
                   articleController.Body.contentFormat := None |}).
  destruct (schema_covers_required_strings body (Sample.vpnInput None))
    as (_ & _ & _ & _ & Hclean); [by vm_compute | by vm_compute |].
  apply Hclean; [by vm_compute | | by vm_compute].
  repeat constructor. by vm_compute.
Defined.
